(** * Usage-quota and caching core of the image-compression platform

    A shallow embedding of the quota ledger (shared/schema.ts: the
    UnifiedOperationCounter and ScopedOperationCounter classes), the usage
    tracker (server/usageTracker.ts), the scope middleware
    (server/scopeMiddleware.ts), the result cache, memory manager and
    metrics (attached_assets/performance-caching_1757404672749.js) and the
    password rules of the sign-up page (client/src/pages/signup.tsx), with
    the properties of the specification stated and settled against them.

    Conventions.
    - A timestamp is a [Z]: milliseconds since the epoch, what
      [Date.getTime()] returns.
    - The server's local time zone is a fixed offset [tz] in milliseconds
      (no daylight-saving changes).
    - A database statement and a Redis command are atomic; an [await] is a
      point where another request may run.  Every [new Date()] is a reading
      of the clock of its own, and a step of the call: time may pass between
      two readings within one call.  Concurrent calls are interleaved step
      by step, which covers every interleaving of the Node.js event loop.
    - An [integer] column holds at most 2147483647; an UPDATE that would
      make a counter larger fails, and the call throws.  A counter column
      holds a number: every INSERT of the code writes 0 and every UPDATE a
      number, so NULL, which the schema would admit, is in no row.  The
      size of a file in megabytes, rounded, is taken to fit its integer
      column.
    - A column that references [users.id] takes the id of a row of [users]
      only; an INSERT with another user id fails, and the call throws.
    - A table is a map where the schema gives it a primary key, and a list
      of rows where it does not. *)

From Stdlib Require Import ZArith Ascii String List Lia QArith Qround Lqa Bool.
From stdpp Require Import base gmap strings list fin_maps.

Local Open Scope string_scope.
Local Open Scope Z_scope.

(* ===================================================================== *)
(** * JavaScript values as the code sees them *)
(* ===================================================================== *)

Module JS.

(** Values that can sit in a header, a query parameter or a JSON body.
    [JObj] stands for any array or object (always truthy). *)
Inductive jsval : Type :=
| JUndefined
| JNull
| JBool (b : bool)
| JNum (n : Z)
| JStr (s : string)
| JObj.

Definition truthy (v : jsval) : bool :=
  match v with
  | JUndefined | JNull => false
  | JBool b => b
  | JNum n => negb (n =? 0)
  | JStr s => negb (String.eqb s "")
  | JObj => true
  end.

(** [a || b] *)
Definition or (a b : jsval) : jsval := if truthy a then a else b.

(** [typeof v === 'string' && v.startsWith(p)] *)
Definition isStringStartingWith (p : string) (v : jsval) : bool :=
  match v with
  | JStr s => String.prefix p s
  | _ => false
  end.

(** The string inside a string value. *)
Definition asString (v : jsval) : string :=
  match v with
  | JStr s => s
  | _ => ""
  end.

(** [v === s] for a string literal [s], as a [switch] compares. *)
Definition strictEq (v : jsval) (s : string) : bool :=
  match v with
  | JStr s' => String.eqb s' s
  | _ => false
  end.

(** An optional string used as a condition: [undefined], [null] and the
    empty string are falsy. *)
Definition truthyStr (o : option string) : bool :=
  match o with
  | Some s => negb (String.eqb s "")
  | None => false
  end.

(** [a || b] on optional strings. *)
Definition orStr (a b : option string) : option string :=
  if truthyStr a then a else b.

(** [s || d] with a string default. *)
Definition orDefault (a : option string) (d : string) : string :=
  match a with
  | Some s => if String.eqb s "" then d else s
  | None => d
  end.

(** ASCII upper-casing, [String.prototype.toUpperCase] on ASCII text. *)
Definition upperAscii (c : ascii) : ascii :=
  let n := nat_of_ascii c in
  if (Nat.leb 97 n && Nat.leb n 122)%bool then ascii_of_nat (n - 32) else c.

Fixpoint toUpperCase (s : string) : string :=
  match s with
  | EmptyString => EmptyString
  | String c r => String (upperAscii c) (toUpperCase r)
  end.

(** [Math.round] on a rational: the nearest integer, halves upwards. *)
Definition mathRound (x : Q) : Z := Qfloor (x + (1 # 2))%Q.

End JS.

(* ===================================================================== *)
(** * Dates: the three [Date] operations the reset logic relies on *)
(* ===================================================================== *)

Module Clock.

Definition msPerHour : Z := 60 * 60 * 1000.
Definition msPerDay : Z := 24 * 60 * 60 * 1000.
(** [30 * 24 * 60 * 60 * 1000], the length of the monthly window. *)
Definition msPer30Days : Z := 30 * 24 * 60 * 60 * 1000.

(** [d.setHours(0, 0, 0, 0)]: local midnight of the day of [t]. *)
Definition startOfDay (tz t : Z) : Z := t - (t + tz) mod msPerDay.

(** [d.setMinutes(0, 0, 0)]: start of the local hour of [t]. *)
Definition startOfHour (tz t : Z) : Z := t - (t + tz) mod msPerHour.

(** Index of the local calendar day, and of the local hour, of [t]: the
    buckets of the daily and of the hourly window. *)
Definition dayBucket (tz t : Z) : Z := (t + tz) / msPerDay.
Definition hourBucket (tz t : Z) : Z := (t + tz) / msPerHour.

(** Civil date of a day number (days since 1970-01-01), proleptic
    Gregorian calendar: year, month 1..12, day of month 1..31. *)
Definition civilFromDays (z : Z) : Z * Z * Z :=
  let z' := z + 719468 in
  let era := z' / 146097 in
  let doe := z' mod 146097 in
  let yoe := (doe - doe / 1460 + doe / 36524 - doe / 146096) / 365 in
  let doy := doe - (365 * yoe + yoe / 4 - yoe / 100) in
  let mp := (5 * doy + 2) / 153 in
  let d := doy - (153 * mp + 2) / 5 + 1 in
  let m := if mp <? 10 then mp + 3 else mp - 9 in
  let y := yoe + era * 400 in
  (if m <=? 2 then y + 1 else y, m, d).

(** The day number of a civil date. *)
Definition daysFromCivil (ymd : Z * Z * Z) : Z :=
  let '(y0, m, d) := ymd in
  let y := if m <=? 2 then y0 - 1 else y0 in
  let era := y / 400 in
  let yoe := y - era * 400 in
  let doy := (153 * (if 2 <? m then m - 3 else m + 9) + 2) / 5 + d - 1 in
  let doe := yoe * 365 + yoe / 4 - yoe / 100 + doy in
  era * 146097 + doe - 719468.

(** [getFullYear()], [getMonth()] (0-based) and [getDate()] in local time. *)
Definition getFullYear (tz t : Z) : Z := fst (fst (civilFromDays (dayBucket tz t))).
Definition getMonth (tz t : Z) : Z := snd (fst (civilFromDays (dayBucket tz t))) - 1.
Definition getDate (tz t : Z) : Z := snd (civilFromDays (dayBucket tz t)).

(** The part of the civil date that depends on the day within the
    400-year era only; used to check the calendar on one whole era. *)
Definition eraRoundTrip (doe : Z) : bool :=
  let yoe := (doe - doe / 1460 + doe / 36524 - doe / 146096) / 365 in
  let doy := doe - (365 * yoe + yoe / 4 - yoe / 100) in
  let mp := (5 * doy + 2) / 153 in
  let d := doy - (153 * mp + 2) / 5 + 1 in
  let m := if mp <? 10 then mp + 3 else mp - 9 in
  let adj := if m <=? 2 then 1 else 0 in
  let yoe' := yoe + adj - (if m <=? 2 then 1 else 0) in
  let doy' := (153 * (if 2 <? m then m - 3 else m + 9) + 2) / 5 + d - 1 in
  (0 <=? yoe) && (yoe <? 400) &&
  (yoe' * 365 + yoe' / 4 - yoe' / 100 + doy' =? doe).

Fixpoint allFrom (n : nat) (z : Z) (p : Z -> bool) : bool :=
  match n with
  | O => true
  | S k => p z && allFrom k (z + 1) p
  end.

Lemma allFrom_spec n : forall z p,
  allFrom n z p = true -> forall x, z <= x < z + Z.of_nat n -> p x = true.
Proof.
  induction n as [|k IH]; intros z p H x Hx; [lia|].
  cbn [allFrom] in H. apply andb_true_iff in H as [Hz Hrest].
  destruct (Z.eq_dec x z) as [->|Hne]; [exact Hz|].
  apply (IH (z + 1) p Hrest). lia.
Qed.

Lemma eraRoundTrip_all : allFrom (Z.to_nat 146097) 0 eraRoundTrip = true.
Proof. vm_compute. reflexivity. Qed.

Lemma daysFromCivil_civilFromDays z : daysFromCivil (civilFromDays z) = z.
Proof.
  pose proof (Z.mod_pos_bound (z + 719468) 146097 ltac:(lia)) as Hdoe.
  pose proof (allFrom_spec _ _ _ eraRoundTrip_all ((z + 719468) mod 146097)
                ltac:(lia)) as Hchk.
  pose proof (Z.div_mod (z + 719468) 146097 ltac:(lia)) as Hdm.
  unfold eraRoundTrip in Hchk. unfold civilFromDays, daysFromCivil.
  set (era := (z + 719468) / 146097) in *.
  set (doe := (z + 719468) mod 146097) in *.
  set (yoe := (doe - doe / 1460 + doe / 36524 - doe / 146096) / 365) in *.
  set (doy := doe - (365 * yoe + yoe / 4 - yoe / 100)) in *.
  set (mp := (5 * doy + 2) / 153) in *.
  set (d := doy - (153 * mp + 2) / 5 + 1) in *.
  set (m := if mp <? 10 then mp + 3 else mp - 9) in *.
  apply andb_true_iff in Hchk as [Hchk Hdoe'].
  apply andb_true_iff in Hchk as [Hy0 Hy1].
  apply Z.leb_le in Hy0. apply Z.ltb_lt in Hy1. apply Z.eqb_eq in Hdoe'.
  assert (Hy : (if m <=? 2 then (if m <=? 2 then yoe + era * 400 + 1
                                  else yoe + era * 400) - 1
                else (if m <=? 2 then yoe + era * 400 + 1
                      else yoe + era * 400)) = yoe + era * 400)
    by (destruct (m <=? 2); lia).
  rewrite Hy.
  assert (Hera : (yoe + era * 400) / 400 = era)
    by (symmetry; apply (Z.div_unique _ 400 era yoe); lia).
  rewrite Hera.
  replace (yoe + era * 400 - era * 400) with yoe by lia.
  replace (yoe + (if m <=? 2 then 1 else 0) - (if m <=? 2 then 1 else 0))
    with yoe in Hdoe' by lia.
  lia.
Qed.

(** Two days with the same civil date are the same day. *)
Lemma civilFromDays_inj z1 z2 : civilFromDays z1 = civilFromDays z2 -> z1 = z2.
Proof.
  intros H. rewrite <- (daysFromCivil_civilFromDays z1),
    <- (daysFromCivil_civilFromDays z2). now rewrite H.
Qed.

Lemma startOfDay_le tz t : startOfDay tz t <= t.
Proof.
  unfold startOfDay, msPerDay.
  pose proof (Z.mod_pos_bound (t + tz) (24 * 60 * 60 * 1000) ltac:(lia)). lia.
Qed.

Lemma startOfHour_le tz t : startOfHour tz t <= t.
Proof.
  unfold startOfHour, msPerHour.
  pose proof (Z.mod_pos_bound (t + tz) (60 * 60 * 1000) ltac:(lia)). lia.
Qed.

(** An instant is before local midnight of [now]'s day exactly when its
    day bucket is an earlier one. *)
Lemma lt_startOfDay_iff tz t now :
  t < startOfDay tz now <-> dayBucket tz t < dayBucket tz now.
Proof.
  unfold startOfDay, dayBucket, msPerDay.
  set (D := 24 * 60 * 60 * 1000).
  assert (HD : 0 < D) by (unfold D; lia).
  pose proof (Z.div_mod (now + tz) D ltac:(lia)).
  pose proof (Z.mod_pos_bound (now + tz) D HD).
  pose proof (Z.div_mod (t + tz) D ltac:(lia)).
  pose proof (Z.mod_pos_bound (t + tz) D HD).
  split; intros Hlt; nia.
Qed.

Lemma lt_startOfHour_iff tz t now :
  t < startOfHour tz now <-> hourBucket tz t < hourBucket tz now.
Proof.
  unfold startOfHour, hourBucket, msPerHour.
  set (D := 60 * 60 * 1000).
  assert (HD : 0 < D) by (unfold D; lia).
  pose proof (Z.div_mod (now + tz) D ltac:(lia)).
  pose proof (Z.mod_pos_bound (now + tz) D HD).
  pose proof (Z.div_mod (t + tz) D ltac:(lia)).
  pose proof (Z.mod_pos_bound (t + tz) D HD).
  split; intros Hlt; nia.
Qed.

Lemma dayBucket_mono tz t1 t2 : t1 <= t2 -> dayBucket tz t1 <= dayBucket tz t2.
Proof.
  intros H. unfold dayBucket, msPerDay. apply Z.div_le_mono; lia.
Qed.

Lemma hourBucket_mono tz t1 t2 : t1 <= t2 -> hourBucket tz t1 <= hourBucket tz t2.
Proof.
  intros H. unfold hourBucket, msPerHour. apply Z.div_le_mono; lia.
Qed.

Lemma startOfDay_bucket tz t : startOfDay tz t = msPerDay * dayBucket tz t - tz.
Proof.
  unfold startOfDay, dayBucket.
  pose proof (Z.div_mod (t + tz) msPerDay ltac:(unfold msPerDay; lia)). lia.
Qed.

Lemma startOfHour_bucket tz t : startOfHour tz t = msPerHour * hourBucket tz t - tz.
Proof.
  unfold startOfHour, hourBucket.
  pose proof (Z.div_mod (t + tz) msPerHour ltac:(unfold msPerHour; lia)). lia.
Qed.

Lemma startOfDay_mono tz t1 t2 : t1 <= t2 -> startOfDay tz t1 <= startOfDay tz t2.
Proof.
  intros H. rewrite !startOfDay_bucket.
  pose proof (dayBucket_mono tz t1 t2 H). unfold msPerDay. lia.
Qed.

Lemma startOfHour_mono tz t1 t2 : t1 <= t2 -> startOfHour tz t1 <= startOfHour tz t2.
Proof.
  intros H. rewrite !startOfHour_bucket.
  pose proof (hourBucket_mono tz t1 t2 H). unfold msPerHour. lia.
Qed.

Lemma startOfDay_gt tz t : t - msPerDay < startOfDay tz t.
Proof.
  unfold startOfDay.
  pose proof (Z.mod_pos_bound (t + tz) msPerDay ltac:(unfold msPerDay; lia)). lia.
Qed.


(** The three calendar fields agree exactly when the day bucket does. *)
Lemma sameCivilDate_iff tz t1 t2 :
  (getDate tz t1 = getDate tz t2 /\ getMonth tz t1 = getMonth tz t2 /\
   getFullYear tz t1 = getFullYear tz t2)
  <-> dayBucket tz t1 = dayBucket tz t2.
Proof.
  unfold getDate, getMonth, getFullYear. split.
  - intros (Hd & Hm & Hy). apply civilFromDays_inj.
    destruct (civilFromDays (dayBucket tz t1)) as [[y1 m1] d1].
    destruct (civilFromDays (dayBucket tz t2)) as [[y2 m2] d2].
    cbn [fst snd] in *. f_equal; [f_equal|]; lia.
  - intros ->. auto.
Qed.

End Clock.

(* ===================================================================== *)
(** * Asynchronous code: atomic steps, awaits and timers *)
(* ===================================================================== *)

Module Conc.

(** An async function over a shared store [S].  [Act f k] runs the store
    operation [f] atomically at the current time and resumes with its
    answer; [Wait wake k] is a timer, [k] resumes once the clock has reached
    [wake].  Between two steps of one program other programs may run. *)
Inductive prog (S R : Type) : Type :=
| Ret (r : R)
| Act {A : Type} (f : Z -> S -> S * A) (k : A -> prog S R)
| Wait (wake : Z) (k : prog S R).

Arguments Ret {S R} r.
Arguments Act {S R A} f k.
Arguments Wait {S R} wake k.

Fixpoint bind {S A B} (p : prog S A) (k : A -> prog S B) : prog S B :=
  match p with
  | Ret a => k a
  | Act f k' => Act f (fun x => bind (k' x) k)
  | Wait wake p' => Wait wake (bind p' k)
  end.

(** One atomic store operation. *)
Definition atomic {S A} (f : Z -> S -> S * A) : prog S A := Act f Ret.

(** [new Date()] / [Date.now()]. *)
Definition readClock {S} : prog S Z := Act (fun now s => (s, now)) Ret.

(** [x ? new Date(x) : new Date()]: the clock is read only when there is
    no date to copy. *)
Definition dateOrNow {S} (x : option Z) : prog S Z :=
  match x with
  | Some t => Ret t
  | None => readClock
  end.

(** [await new Promise(resolve => setTimeout(resolve, ms))]. *)
Definition sleep {S} (ms : Z) : prog S unit :=
  Act (fun now s => (s, now)) (fun t => Wait (t + ms) (Ret tt)).

(** The outcome of a call that may throw. *)
Inductive result (A : Type) : Type :=
| Ok (a : A)
| Throw (e : string).

Arguments Ok {A} a.
Arguments Throw {A} e.

(** Sequencing that lets an exception pass through. *)
Definition bindE {S A B} (p : prog S (result A)) (k : A -> prog S (result B))
  : prog S (result B) :=
  bind p (fun r => match r with Ok a => k a | Throw e => Ret (Throw e) end).

(** A call running alone, with no time passing except in timers. *)
Fixpoint run_alone {S R} (p : prog S R) (now : Z) (s : S) : Z * S * R :=
  match p with
  | Ret r => (now, s, r)
  | Act f k => let (s', a) := f now s in run_alone (k a) now s'
  | Wait wake k => run_alone k (Z.max now wake) s
  end.

(** ** Several calls in flight *)

Inductive event : Type :=
| Tick (dt : Z)   (* time passes *)
| Run (i : nat).  (* call number [i] performs its next step *)

Record config (S R : Type) : Type := mkConfig {
  clock : Z;
  store : S;
  pool : list (prog S R)
}.

Arguments mkConfig {S R} clock store pool.
Arguments clock {S R} c.
Arguments store {S R} c.
Arguments pool {S R} c.

Definition step_thread {S R} (now : Z) (s : S) (p : prog S R) : S * prog S R :=
  match p with
  | Ret r => (s, Ret r)
  | Act f k => let (s', a) := f now s in (s', k a)
  | Wait wake k => if wake <=? now then (s, k) else (s, Wait wake k)
  end.

Definition step_event {S R} (c : config S R) (e : event) : config S R :=
  match e with
  | Tick dt => mkConfig (clock c + Z.max 0 dt) (store c) (pool c)
  | Run i =>
      match pool c !! i with
      | Some p =>
          let (s', p') := step_thread (clock c) (store c) p in
          mkConfig (clock c) s' (<[i := p']> (pool c))
      | None => c
      end
  end.

Definition run_events {S R} (c : config S R) (sched : list event) : config S R :=
  fold_left step_event sched c.

Definition returned {S R} (p : prog S R) : option R :=
  match p with
  | Ret r => Some r
  | _ => None
  end.

(** ** What holds of a call however time passes *)

(** [wp p Q now s]: the call [p], started no earlier than [now] on store [s]
    and not disturbed by other calls, ends in a store and an answer that
    satisfy [Q] (with the time of its last step), whatever time passes
    before each of its steps. *)
Fixpoint wp {S R} (p : prog S R) (Q : Z -> S -> R -> Prop) (now : Z) (s : S) : Prop :=
  match p with
  | Ret r => Q now s r
  | Act f k =>
      forall now', now <= now' ->
        let (s', a) := f now' s in wp (k a) Q now' s'
  | Wait wake k => forall now', now <= now' -> wake <= now' -> wp k Q now' s
  end.

Lemma wp_bind {S A B} (p : prog S A) (k : A -> prog S B) Q :
  forall now s,
    wp p (fun now' s' a => wp (k a) Q now' s') now s -> wp (bind p k) Q now s.
Proof.
  induction p as [a | X f k' IH | wake p' IH]; intros now s H; cbn in *.
  - exact H.
  - intros now' Hle. specialize (H now' Hle).
    destruct (f now' s) as [s' x]. apply IH, H.
  - intros now' H1 H2. apply IH, H; assumption.
Qed.

Lemma wp_mono {S R} (p : prog S R) (Q Q' : Z -> S -> R -> Prop) :
  (forall now s r, Q now s r -> Q' now s r) ->
  forall now s, wp p Q now s -> wp p Q' now s.
Proof.
  intros HQ. induction p as [a | X f k IH | wake p' IH]; intros now s H; cbn in *.
  - apply HQ, H.
  - intros now' Hle. specialize (H now' Hle).
    destruct (f now' s) as [s' x]. apply IH, H.
  - intros now' H1 H2. apply IH, H; assumption.
Qed.

(** [ends P p]: whatever the store answers, [p] returns an answer in [P]. *)
Fixpoint ends {S R} (P : R -> Prop) (p : prog S R) : Prop :=
  match p with
  | Ret r => P r
  | Act f k => forall a, ends P (k a)
  | Wait _ k => ends P k
  end.

Lemma ends_bind {S A B} (p : prog S A) (k : A -> prog S B) (P : B -> Prop) :
  (forall a, ends P (k a)) -> ends P (bind p k).
Proof.
  intros Hk. induction p as [a | X f k' IH | wake p' IH]; cbn; auto.
Qed.

Lemma ends_wp {S R} (p : prog S R) (P : R -> Prop) :
  ends P p -> forall now s, wp p (fun _ _ r => P r) now s.
Proof.
  induction p as [a | X f k IH | wake p' IH]; cbn; intros H now s.
  - exact H.
  - intros now' _. destruct (f now' s) as [s' x]. apply IH, H.
  - intros now' _ _. apply IH, H.
Qed.

(** What holds of every answer holds of the answer of every call. *)
Lemma wp_any {S R} (p : prog S R) (Q : Z -> S -> R -> Prop) :
  (forall now s r, Q now s r) -> forall now s, wp p Q now s.
Proof.
  intros HQ. induction p as [a | X f k IH | wake p' IH]; intros now s; cbn.
  - apply HQ.
  - intros now' _. destruct (f now' s) as [s' x]. apply IH.
  - intros now' _ _. apply IH.
Qed.

(** Time does not run backwards during a call. *)
Lemma wp_clock {S R} (p : prog S R) : forall Q now s,
  wp p Q now s -> wp p (fun now' s' r => now <= now' /\ Q now' s' r) now s.
Proof.
  induction p as [a | X f k IH | wake p' IH]; intros Q now s H; cbn in *.
  - split; [lia | exact H].
  - intros now' Hle. specialize (H now' Hle).
    destruct (f now' s) as [s' x]. apply IH in H.
    eapply wp_mono; [|exact H]. cbn. intros n2 s2 r [Hn HQ]. split; [lia | exact HQ].
  - intros now' H1 H2. specialize (H now' H1 H2). apply IH in H.
    eapply wp_mono; [|exact H]. cbn. intros n2 s2 r [Hn HQ]. split; [lia | exact HQ].
Qed.

(** A call that has not returned may as well be started later. *)
Lemma wp_later {S R} (p : prog S R) Q now now2 s :
  returned p = None -> now <= now2 -> wp p Q now s -> wp p Q now2 s.
Proof.
  destruct p as [a | X f k | wake p']; cbn; intros Hr Hle H.
  - discriminate.
  - intros now' Hle'. apply H. lia.
  - intros now' H1 H2. apply H; lia.
Qed.

(** [wp] speaks of the call running alone... *)
Lemma wp_run_alone {S R} (p : prog S R) Q :
  forall now s, wp p Q now s ->
    let '(now', s', r) := run_alone p now s in Q now' s' r.
Proof.
  induction p as [a | X f k IH | wake p' IH]; intros now s H; cbn in *.
  - exact H.
  - specialize (H now ltac:(lia)).
    destruct (f now s) as [s' x]. apply IH, H.
  - apply IH, H; lia.
Qed.

Lemma run_events_returned {S R} (sched : list event) :
  forall now (s : S) (r : R),
    store (run_events (mkConfig now s [Ret r]) sched) = s /\
    pool (run_events (mkConfig now s [Ret r]) sched) = [Ret r].
Proof.
  induction sched as [|e sched IH]; intros now s r; cbn; [auto|].
  destruct e as [dt | [|i]]; cbn; apply IH.
Qed.

(** ... and of every schedule in which it is the only call. *)
Lemma wp_run_events {S R} (sched : list event) :
  forall (p : prog S R) Q now s,
    wp p Q now s ->
    forall r, pool (run_events (mkConfig now s [p]) sched) = [Ret r] ->
    exists now', Q now' (store (run_events (mkConfig now s [p]) sched)) r.
Proof.
  induction sched as [|e sched IH]; intros p Q now s H r Hend.
  - cbn in Hend. injection Hend as ->. cbn in *. eauto.
  - destruct (returned p) eqn:Hret.
    + destruct p as [a | |]; try discriminate.
      destruct (run_events_returned (e :: sched) now s a) as [Hs Hp].
      rewrite Hp in Hend. injection Hend as ->. rewrite Hs. cbn in H. eauto.
    + destruct e as [dt | [|i]]; cbn in Hend |- *.
      * apply IH; [|exact Hend]. apply (wp_later p Q now); [exact Hret | lia | exact H].
      * destruct p as [a | X f k | wake p']; cbn in Hend, H |- *.
        -- discriminate.
        -- specialize (H now ltac:(lia)). destruct (f now s) as [s' x].
           cbn in Hend |- *. apply IH; assumption.
        -- destruct (wake <=? now) eqn:Hw; cbn in Hend |- *.
           ++ apply IH; [|exact Hend]. apply H; lia.
           ++ apply IH; [|exact Hend]. cbn. exact H.
      * apply IH; assumption.
Qed.

(** ** Counting what concurrent calls add to one counter *)

Definition sumZ (l : list Z) : Z := foldr Z.add 0 l.

Section Adds.
Context {S : Type}.
(** An invariant of the store, the counter observed, the time until which
    the calls are followed, and the value that the counter has once every
    call has added its share. *)
Variable I : S -> Prop.
Variable c : S -> Z.
Variable T : Z.
Variable B : Z.

(** [addsQ Q n p]: whatever the other calls do in between (they keep [I]),
    the steps of [p] add [n] to the counter in total, up to what [Q] still
    allows when [p] returns, and no step adds more than is left to add.  A
    step may rely on the counter being at most [B] less what the call has
    still to add. *)
Fixpoint addsQ {R} (Q : R -> Z -> Prop) (n : Z) (p : prog S R) : Prop :=
  match p with
  | Ret r => Q r n
  | Act f k =>
      forall now s, now <= T -> I s -> 0 <= n -> c s + n <= B ->
        let (s', a) := f now s in
        I s' /\ c s' - c s <= n /\ addsQ Q (n - (c s' - c s)) (k a)
  | Wait _ k => addsQ Q n k
  end.

(** [adds n p]: the call [p] adds exactly [n]. *)
Definition adds {R} (n : Z) (p : prog S R) : Prop := addsQ (fun _ m => m = 0) n p.

Lemma addsQ_bind {A R} (p : prog S A) (k : A -> prog S R) Q :
  forall n, addsQ (fun a m => addsQ Q m (k a)) n p -> addsQ Q n (bind p k).
Proof.
  induction p as [a | X f k' IH | wake p' IH]; intros n H; cbn in *.
  - exact H.
  - intros now s Hn Hs H0 Hb. specialize (H now s Hn Hs H0 Hb).
    destruct (f now s) as [s' x]. destruct H as (Hs' & Hle & H).
    split; [exact Hs'|]. split; [exact Hle|]. apply IH, H.
  - apply IH, H.
Qed.

Lemma addsQ_mono {R} (p : prog S R) (Q Q' : R -> Z -> Prop) :
  (forall r m, Q r m -> Q' r m) -> forall n, addsQ Q n p -> addsQ Q' n p.
Proof.
  intros HQ. induction p as [a | X f k IH | wake p' IH]; intros n H; cbn in *.
  - apply HQ, H.
  - intros now s Hn Hs H0 Hb. specialize (H now s Hn Hs H0 Hb).
    destruct (f now s) as [s' x]. destruct H as (Hs' & Hle & H).
    split; [exact Hs'|]. split; [exact Hle|]. apply IH, H.
  - apply IH, H.
Qed.

(** A step that keeps the invariant and leaves the counter as it is. *)
Lemma addsQ_silent {R A} (Q : R -> Z -> Prop) n (f : Z -> S -> S * A) (k : A -> prog S R) :
  (forall now s, now <= T -> I s ->
     I (fst (f now s)) /\ c (fst (f now s)) = c s /\ addsQ Q n (k (snd (f now s)))) ->
  addsQ Q n (Act f k).
Proof.
  intros H. cbn [addsQ]. intros now s Hn Hs H0 Hb. specialize (H now s Hn Hs).
  destruct (f now s) as [s' a]. cbn [fst snd] in H. destruct H as (HI & Hc & H).
  split; [exact HI|]. rewrite Hc, Z.sub_diag, Z.sub_0_r. split; [exact H0 | exact H].
Qed.

(** A reading of the clock. *)
Lemma addsQ_readClock {R} (Q : R -> Z -> Prop) n (k : Z -> prog S R) :
  (forall now, now <= T -> addsQ Q n (k now)) -> addsQ Q n (bind readClock k).
Proof.
  intros H. unfold readClock. cbn [bind]. apply addsQ_silent.
  intros now s Hn Hs. cbn [fst snd]. auto.
Qed.

Lemma sumZ_insert (l : list Z) : forall i n m,
  l !! i = Some n -> sumZ (<[i := m]> l) = sumZ l - n + m.
Proof.
  unfold sumZ.
  induction l as [|x l IH]; intros [|i] n m H; simpl in *; try discriminate.
  - injection H as ->. lia.
  - specialize (IH i n m H). lia.
Qed.

Lemma sumZ_nonneg (l : list Z) : Forall (fun n => 0 <= n) l -> 0 <= sumZ l.
Proof. unfold sumZ. induction 1; cbn; lia. Qed.

Lemma sumZ_lookup_le (l : list Z) : forall i n,
  Forall (fun n => 0 <= n) l -> l !! i = Some n -> n <= sumZ l.
Proof.
  induction l as [|x l IH]; intros [|i] n Hall H; simpl in *; try discriminate;
    inversion Hall as [|? ? Hx Hl]; subst.
  - injection H as ->. pose proof (sumZ_nonneg l Hl). unfold sumZ in *. cbn. lia.
  - specialize (IH i n Hl H). unfold sumZ in *. cbn. lia.
Qed.

Lemma clock_run_events {R} (sched : list event) :
  forall cfg : config S R, clock cfg <= clock (run_events cfg sched).
Proof.
  induction sched as [|e sched IH]; intros cfg; cbn; [lia|].
  etransitivity; [|apply IH].
  destruct e as [dt | i]; cbn; [lia|].
  destruct (pool cfg !! i) as [p|]; [|lia].
  destruct (step_thread (clock cfg) (store cfg) p). cbn. lia.
Qed.

(** The counter moves by what the calls have added so far. *)
Lemma run_events_adds {R} (sched : list event) :
  forall (cfg : config S R) (ns : list Z),
    Forall2 adds ns (pool cfg) ->
    Forall (fun n => 0 <= n) ns ->
    I (store cfg) ->
    c (store cfg) + sumZ ns <= B ->
    clock (run_events cfg sched) <= T ->
    exists ns',
      Forall2 adds ns' (pool (run_events cfg sched)) /\
      I (store (run_events cfg sched)) /\
      c (store (run_events cfg sched)) + sumZ ns' = c (store cfg) + sumZ ns.
Proof.
  induction sched as [|e sched IH]; intros cfg ns Hall Hpos HI HB HT.
  - exists ns. auto.
  - cbn [run_events fold_left] in *. fold (run_events (step_event cfg e) sched) in *.
    pose proof (clock_run_events sched (step_event cfg e)) as Hmono.
    destruct e as [dt | i].
    + apply (IH (step_event cfg (Tick dt)) ns); assumption.
    + cbn [step_event] in *.
      destruct (pool cfg !! i) as [p|] eqn:Hp; [|apply (IH cfg ns); assumption].
      destruct (Forall2_lookup_r _ _ _ _ _ Hall Hp) as (n & Hn & Hadds).
      pose proof (sumZ_lookup_le ns i n Hpos Hn) as Hshare.
      assert (H0 : 0 <= n) by exact (proj1 (Forall_lookup _ _) Hpos i n Hn).
      destruct p as [r | X f k | wake p'].
      * cbn [step_thread] in *. rewrite (list_insert_id _ _ _ Hp) in *.
        destruct cfg as [clk st pl]. cbn in *.
        apply (IH (mkConfig clk st pl) ns); assumption.
      * cbn [step_thread] in *. unfold adds in Hadds. cbn in Hadds.
        specialize (Hadds (clock cfg) (store cfg)).
        destruct (f (clock cfg) (store cfg)) as [s' a] eqn:Hf.
        cbn [clock] in Hmono.
        destruct (Hadds ltac:(lia) HI H0 ltac:(lia)) as (HI' & Hle & Hrest).
        destruct (IH (mkConfig (clock cfg) s' (<[i := k a]> (pool cfg)))
                     (<[i := n - (c s' - c (store cfg))]> ns)) as (ns' & H1 & H2 & H3).
        -- apply Forall2_insert; assumption.
        -- apply Forall_insert; [exact Hpos | lia].
        -- exact HI'.
        -- cbn [store]. rewrite (sumZ_insert _ _ _ _ Hn). lia.
        -- exact HT.
        -- exists ns'. split; [exact H1|]. split; [exact H2|].
           rewrite H3. cbn [store]. rewrite (sumZ_insert _ _ _ _ Hn). lia.
      * cbn [step_thread] in *. unfold adds in Hadds. cbn in Hadds.
        destruct (wake <=? clock cfg).
        -- destruct (IH (mkConfig (clock cfg) (store cfg) (<[i := p']> (pool cfg)))
                       (<[i := n]> ns)) as (ns' & H1 & H2 & H3).
           ++ apply Forall2_insert; assumption.
           ++ apply Forall_insert; assumption.
           ++ exact HI.
           ++ cbn [store]. rewrite (sumZ_insert _ _ _ _ Hn). lia.
           ++ exact HT.
           ++ exists ns'. split; [exact H1|]. split; [exact H2|].
              rewrite H3. cbn [store]. rewrite (sumZ_insert _ _ _ _ Hn). lia.
        -- rewrite (list_insert_id _ _ _ Hp) in *.
           destruct cfg as [clk st pl]. cbn in *.
        apply (IH (mkConfig clk st pl) ns); assumption.
Qed.

(** Once every call has returned, each has added its whole share. *)
Lemma adds_all_returned {R} (ns : list Z) (ps : list (prog S R)) :
  Forall2 adds ns ps -> Forall (fun p => returned p <> None) ps -> sumZ ns = 0.
Proof.
  induction 1 as [|n p ns ps Hadd _ IH]; intros Hret; [reflexivity|].
  inversion Hret as [|? ? Hp Hps]; subst.
  specialize (IH Hps). unfold sumZ in *. simpl.
  destruct p as [r | |]; cbn in Hp; try congruence.
  unfold adds in Hadd. cbn in Hadd. lia.
Qed.

Lemma sumZ_replicate (n : nat) (x : Z) : sumZ (replicate n x) = Z.of_nat n * x.
Proof. unfold sumZ. induction n as [|n IH]; cbn [replicate foldr] in *; lia. Qed.

(** [N] calls that each add one leave the counter [N] higher. *)
Theorem concurrent_adds {R} (ps : list (prog S R)) (sched : list event) now s :
  Forall (adds 1) ps ->
  I s ->
  c s + Z.of_nat (length ps) <= B ->
  clock (run_events (mkConfig now s ps) sched) <= T ->
  Forall (fun p => returned p <> None) (pool (run_events (mkConfig now s ps) sched)) ->
  I (store (run_events (mkConfig now s ps) sched)) /\
  c (store (run_events (mkConfig now s ps) sched)) = c s + Z.of_nat (length ps).
Proof.
  intros Hall HI HB HT Hret.
  destruct (run_events_adds sched (mkConfig now s ps) (replicate (length ps) 1))
    as (ns' & H1 & H2 & H3); cbn [pool store]; try assumption.
  - clear -Hall. induction Hall; cbn; constructor; assumption.
  - apply Forall_replicate. lia.
  - rewrite sumZ_replicate. lia.
  - split; [exact H2|].
    rewrite (adds_all_returned _ _ H1 Hret) in H3. cbn [store] in H3.
    rewrite sumZ_replicate in H3. lia.
Qed.

End Adds.

End Conc.

(* ===================================================================== *)
(** * The parts of an HTTP request the code reads *)
(* ===================================================================== *)

Module Http.
Import JS.

Record Request : Type := mkRequest {
  path : string;                          (* req.path *)
  hdr_x_session_id : jsval;               (* req.headers['x-session-id'] *)
  hdr_user_agent : option string;         (* req.headers['user-agent'] *)
  hdr_x_usage_scope : jsval;              (* req.headers['x-usage-scope'] *)
  hdr_x_plan_id : jsval;                  (* req.headers['x-plan-id'] *)
  body_clientSessionId : jsval;           (* req.body?.clientSessionId *)
  body_pageSource : jsval;                (* req.body?.pageSource *)
  query_pageSource : jsval;               (* req.query?.pageSource *)
  query_planId : jsval;                   (* req.query?.planId *)
  query_scope : jsval;                    (* req.query.scope *)
  ctx_pageIdentifier : option string;     (* req.context?.pageIdentifier *)
  ctx_pageScope : option string;          (* req.context?.pageScope *)
  ip : option string;                     (* req.ip *)
  remoteAddress : option string;          (* req.connection.remoteAddress *)
  isAuthenticated : bool;                 (* req.isAuthenticated && req.isAuthenticated() *)
  user_sub : option (option string);      (* req.user, and its claims?.sub *)
  session_userId : option string;         (* req.session?.userId *)
  session_id : option string              (* req.session?.id *)
}.

End Http.

(* ===================================================================== *)
(** * The quota ledger (shared/schema.ts, server/usageTracker.ts) *)
(* ===================================================================== *)

Module Ledger.
Import JS Clock Conc Http.

Inductive LimitType : Type := monthly | daily | hourly.

(** [plan.limits]: [None] is JavaScript's [null], an unlimited window. *)
Record Limits : Type := mkLimits {
  monthlyOperations : option Z;
  maxOperationsPerDay : option Z;
  maxOperationsPerHour : option Z
}.

(** What [checkOperationLimits] of server/unifiedPlanConfig.ts returns, as
    far as its callers read it; [lc_remaining = None] is a value that is no
    finite number. *)
Record LimitCheck : Type := mkLimitCheck {
  lc_allowed : bool;
  lc_limitType : option LimitType;
  lc_remaining : option Z
}.

(** The largest value of an [integer] column. *)
Definition int4Max : Z := 2147483647.

(** [column + 1] as the database evaluates it: [None] when the sum is out
    of the range of the column, which makes the statement fail. *)
Definition plusOne (x : Z) : option Z :=
  if x <? int4Max then Some (x + 1) else None.

(** An UPDATE with a WHERE clause: every row that the clause selects is
    replaced by what [set] makes of it; when [set] fails on one of them, the
    statement fails as a whole. *)
Fixpoint updateWhere {A} (selects : A -> bool) (set : A -> option A) (table : list A)
  : option (list A) :=
  match table with
  | [] => Some []
  | row :: rest =>
      match (if selects row then set row else Some row), updateWhere selects set rest with
      | Some row', Some rest' => Some (row' :: rest')
      | _, _ => None
      end
  end.

(** ** Rows of the tables *)

(** The counters of a row are numbers within the range of their [integer]
    column.  The schema lets these columns be NULL, but every INSERT of the
    code writes 0 and every UPDATE a number, so a row holds NULL only when
    it is put there from outside; such rows are not modelled. *)

Section Tables.

(** The subscription columns of a user row; only [getUserPlan] reads them. *)
Variable Sub : Type.
(** The lead-magnet credit store behind [storage]. *)
Variable Lead : Type.

Record UserRow : Type := mkUserRow {
  u_id : string;
  u_sub : Sub;
  u_monthlyOperations : Z;
  u_dailyOperations : Z;
  u_hourlyOperations : Z;
  u_lastOperationAt : option Z;
  u_purchasedCredits : Z;
  u_updatedAt : option Z
}.

Record AnonymousSession : Type := mkAnonymousSession {
  sessionId : string;
  ipHash : string;
  monthlyOperationsUsed : Z;
  dailyOperationsUsed : Z;
  hourlyOperationsUsed : Z;
  currentPeriodStart : option Z;
  lastDailyReset : option Z;
  lastHourlyReset : option Z;
  as_updatedAt : option Z
}.

(** A row of [anonymous_session_scopes] or of [user_scope_counters]. *)
Record ScopeCounter : Type := mkScopeCounter {
  sc_owner : string;   (* session id, or user id *)
  sc_scope : string;
  monthlyUsed : Z;
  dailyUsed : Z;
  hourlyUsed : Z;
  sc_currentPeriodStart : option Z;
  sc_lastDailyReset : option Z;
  sc_lastHourlyReset : option Z;
  sc_lastOperationAt : option Z;
  sc_updatedAt : option Z
}.

(** A scoped table without rows. *)
#[global] Instance noScopeCounters : Empty (list ScopeCounter) := [].

Inductive OperationType : Type := compression | conversion | special_conversion.
Inductive Interface : Type := web | api.

Record OperationLog : Type := mkOperationLog {
  ol_userId : option string;
  ol_sessionId : option string;
  ol_operationType : OperationType;
  ol_fileFormat : string;
  ol_fileSizeMb : Z;
  ol_interface : Interface;
  ol_planId : string;
  ol_scope : option string;
  ol_createdAt : Z
}.

Record UsageTracking : Type := mkUsageTracking {
  ut_userId : option string;
  ut_fingerprint : option string;
  ut_totalCompressions : Z;
  ut_totalConversions : Z;
  ut_dailyCompressions : Z;
  ut_dailyConversions : Z;
  ut_currentCredits : Z;
  ut_lastResetDate : option Z;
  ut_updatedAt : option Z
}.

(** The tables.  [users] and [anonymous_sessions] have a primary key and
    are maps from it.  The two scoped tables declare their key
    (owner, scope) only as a fragment of SQL in the table's extra
    configuration, which creates no constraint: they are lists of rows, like
    [operations_log] and [usage_tracking], and may hold several rows for one
    owner and scope.  A SELECT answers the rows in the order of the list. *)
Record DB : Type := mkDB {
  users : gmap string UserRow;
  anonymousSessions : gmap string AnonymousSession;
  anonymousSessionScopes : list ScopeCounter;
  userScopeCounters : list ScopeCounter;
  operationsLog : list OperationLog;
  usageTracking : list UsageTracking;
  leadMagnet : Lead
}.

Definition with_users (f : gmap string UserRow -> gmap string UserRow) (db : DB) : DB :=
  mkDB (f (users db)) (anonymousSessions db) (anonymousSessionScopes db)
       (userScopeCounters db) (operationsLog db) (usageTracking db) (leadMagnet db).

Definition with_anonymousSessions
  (f : gmap string AnonymousSession -> gmap string AnonymousSession) (db : DB) : DB :=
  mkDB (users db) (f (anonymousSessions db)) (anonymousSessionScopes db)
       (userScopeCounters db) (operationsLog db) (usageTracking db) (leadMagnet db).

Definition with_anonymousSessionScopes
  (f : list ScopeCounter -> list ScopeCounter) (db : DB) : DB :=
  mkDB (users db) (anonymousSessions db) (f (anonymousSessionScopes db))
       (userScopeCounters db) (operationsLog db) (usageTracking db) (leadMagnet db).

Definition with_userScopeCounters
  (f : list ScopeCounter -> list ScopeCounter) (db : DB) : DB :=
  mkDB (users db) (anonymousSessions db) (anonymousSessionScopes db)
       (f (userScopeCounters db)) (operationsLog db) (usageTracking db) (leadMagnet db).

Definition with_operationsLog (f : list OperationLog -> list OperationLog) (db : DB) : DB :=
  mkDB (users db) (anonymousSessions db) (anonymousSessionScopes db)
       (userScopeCounters db) (f (operationsLog db)) (usageTracking db) (leadMagnet db).

Definition with_usageTracking (f : list UsageTracking -> list UsageTracking) (db : DB) : DB :=
  mkDB (users db) (anonymousSessions db) (anonymousSessionScopes db)
       (userScopeCounters db) (operationsLog db) (f (usageTracking db)) (leadMagnet db).

Definition with_leadMagnet (f : Lead -> Lead) (db : DB) : DB :=
  mkDB (users db) (anonymousSessions db) (anonymousSessionScopes db)
       (userScopeCounters db) (operationsLog db) (usageTracking db) (f (leadMagnet db)).

(** [and(eq(table.owner, owner), eq(table.scope, scope))] *)
Definition sameScope (owner scope : string) (row : ScopeCounter) : bool :=
  (String.eqb (sc_owner row) owner && String.eqb (sc_scope row) scope)%bool.

(** The three counters of a scoped row. *)
Definition usedOf (row : ScopeCounter) : Z * Z * Z :=
  (monthlyUsed row, dailyUsed row, hourlyUsed row).

(** ** Contexts and results *)

Record OperationContext : Type := mkOperationContext {
  userId : option string;
  ctx_sessionId : option string;
  operationType : OperationType;
  fileFormat : string;
  fileSizeMb : Q;
  interface : Interface;
  req : option Request;
  leadMagnetEmail : option string
}.

Record ScopedOperationContext : Type := mkScopedOperationContext {
  s_userId : option string;
  s_sessionId : option string;
  s_scope : string;
  s_planId : string;
  s_operationType : OperationType;
  s_fileFormat : string;
  s_fileSizeMb : Q;
  s_interface : Interface
}.


(** ** The functions *)

(** The server's time-zone offset, in milliseconds. *)
Variable tz : Z.
(** [crypto.createHash('sha256').update(s).digest('hex')]. *)
Variable sha256hex : string -> string.
(** [getUserPlan(user).id], from server/unifiedPlanConfig.ts. *)
Variable getUserPlan : UserRow -> string.
(** [getUserPlan(tier).limits], as server/usageTracker.ts calls it. *)
Variable getUserPlanOfTier : string -> Limits.
(** [checkOperationLimits(planId, monthlyUsed, dailyUsed, hourlyUsed,
    requestedOperations)], from server/unifiedPlanConfig.ts. *)
Variable checkOperationLimits : string -> Z -> Z -> Z -> Z -> LimitCheck.
(** [storage.checkLeadMagnetCredits(email)]: hasCredits, creditsRemaining. *)
Variable checkLeadMagnetCredits : string -> Lead -> bool * Z.
(** [storage.useLeadMagnetCredits(email, n)]: whether credits were used. *)
Variable useLeadMagnetCredits : string -> Z -> Lead -> Lead * bool.

Notation "'await' x <- p 'in' q" := (bind p (fun x => q))
  (at level 10, x name, p at level 100, q at level 200).
Notation "'awaitOk' x <- p 'in' q" := (bindE p (fun x => q))
  (at level 10, x name, p at level 100, q at level 200).

(** [UnifiedOperationCounter.generateAnonymousSessionId(req)] *)
Definition generateAnonymousSessionId (req : Request) : string :=
  let clientSessionId := JS.or (hdr_x_session_id req) (body_clientSessionId req) in
  if (truthy clientSessionId && isStringStartingWith "mj_client_" clientSessionId)%bool
  then asString clientSessionId
  else
    let ip := orDefault (orStr (ip req) (remoteAddress req)) "unknown" in
    let userAgent := orDefault (hdr_user_agent req) "unknown" in
    let identifier := ip ++ ":" ++ userAgent in
    let hash := String.substring 0 16 (sha256hex identifier) in
    "anon_" ++ hash.

(** *** The block that decides on the window resets

    [getAnonymousSession] (lines 683-719), [getScopedAnonymousSession]
    (1280-1311) and [getScopedUserCounter] (1353-1383) carry the same block,
    word for word, on the time stamps of the row they have read.  It calls
    [new Date()] for [now], for [today] and for [currentHour]: three
    readings of the clock, and a fourth one when the row has no
    [currentPeriodStart]. *)

(** [monthsElapsed >= 1] *)
Definition monthlyResetDue (now currentPeriodStart : Z) : bool :=
  let monthsElapsed := (now - currentPeriodStart) / msPer30Days in
  1 <=? monthsElapsed.

(** [lastDailyReset < today], [today] being the reading [t] set back to the
    start of its day by [setHours(0, 0, 0, 0)]. *)
Definition dailyResetDue (t : Z) (lastDailyReset : option Z) : bool :=
  let lastDailyReset := default 0 lastDailyReset in
  let today := startOfDay tz t in
  lastDailyReset <? today.

(** [lastHourlyReset < currentHour], [currentHour] being the reading [t] set
    back to the start of its hour by [setMinutes(0, 0, 0)]. *)
Definition hourlyResetDue (t : Z) (lastHourlyReset : option Z) : bool :=
  let lastHourlyReset := default 0 lastHourlyReset in
  let currentHour := startOfHour tz t in
  lastHourlyReset <? currentHour.

(** The object [updates] with the reading [now] that it stamps: which of
    the three windows are reset. *)
Record Updates : Type := mkUpdates {
  up_now : Z;
  up_monthly : bool;
  up_daily : bool;
  up_hourly : bool
}.

(** [needsUpdate] *)
Definition needsUpdate (updates : Updates) : bool :=
  (up_monthly updates || up_daily updates || up_hourly updates)%bool.

Definition decideResets (currentPeriodStart lastDailyReset lastHourlyReset : option Z)
  : prog DB Updates :=
  await now <- readClock in
  await currentPeriodStart <- dateOrNow currentPeriodStart in
  let monthly := monthlyResetDue now currentPeriodStart in
  await today <- readClock in
  let daily := dailyResetDue today lastDailyReset in
  await currentHour <- readClock in
  let hourly := hourlyResetDue currentHour lastHourlyReset in
  Ret (mkUpdates now monthly daily hourly).

(** What the block decides when all its readings of the clock give [now]. *)
Definition resetsAt (now : Z) (currentPeriodStart lastDailyReset lastHourlyReset : option Z)
  : Updates :=
  mkUpdates now (monthlyResetDue now (default now currentPeriodStart))
    (dailyResetDue now lastDailyReset) (hourlyResetDue now lastHourlyReset).

(** *** Window resets of an anonymous session (lines 665-730) *)

(** The row after [.set(updates)]. *)
Definition setSession (updates : Updates) (row : AnonymousSession) : AnonymousSession :=
  mkAnonymousSession
    (sessionId row) (ipHash row)
    (if up_monthly updates then 0 else monthlyOperationsUsed row)
    (if up_daily updates then 0 else dailyOperationsUsed row)
    (if up_hourly updates then 0 else hourlyOperationsUsed row)
    (if up_monthly updates then Some (up_now updates) else currentPeriodStart row)
    (if up_daily updates then Some (up_now updates) else lastDailyReset row)
    (if up_hourly updates then Some (up_now updates) else lastHourlyReset row)
    (as_updatedAt row).

(** [crypto...update(req.ip || 'unknown')...substring(0, 16)], or
    ['unknown'] without a request. *)
Definition ipHashOf (req : option Request) : string :=
  match req with
  | Some r => String.substring 0 16 (sha256hex (orDefault (ip r) "unknown"))
  | None => "unknown"
  end.

(** [UnifiedOperationCounter.getAnonymousSession(sessionId, req)].  The
    answer is [None] when the final UPDATE finds no row ([undefined]). *)
Definition getAnonymousSession (sid : string) (req : option Request)
  : prog DB (result (option AnonymousSession)) :=
  await found <- atomic (fun _ db => (db, anonymousSessions db !! sid)) in
  awaitOk session <- match found with
              | Some s => Ret (Ok s)
              | None =>
                  atomic (fun now db =>
                    match anonymousSessions db !! sid with
                    | Some _ => (db, Throw "duplicate key value")
                    | None =>
                        let row := mkAnonymousSession sid (ipHashOf req) 0 0 0
                                     (Some now) (Some now) (Some now) (Some now) in
                        (with_anonymousSessions (insert sid row) db, Ok row)
                    end)
              end in
  await updates <- decideResets (currentPeriodStart session) (lastDailyReset session)
                     (lastHourlyReset session) in
  if needsUpdate updates then
    atomic (fun _ db =>
      match anonymousSessions db !! sid with
      | Some row =>
          let row' := setSession updates row in
          (with_anonymousSessions (insert sid row') db, Ok (Some row'))
      | None => (db, Ok None)
      end)
  else Ret (Ok (Some session)).

(** *** Window resets of a registered user (lines 735-788) *)

(** [now.getTime() - lastOperation.getTime() > 30 * 24 * 60 * 60 * 1000] *)
Definition userMonthlyResetNeeded (now lastOperation : Z) : bool :=
  msPer30Days <? now - lastOperation.

(** The block of [getUserOperationCounts]: the three tests are made on
    [lastOperationAt], again with a reading of the clock each. *)
Definition decideUserResets (lastOperationAt : option Z) : prog DB Updates :=
  await now <- readClock in
  await lastOperation <- dateOrNow lastOperationAt in
  let monthlyResetNeeded := userMonthlyResetNeeded now lastOperation in
  await today <- readClock in
  let daily := dailyResetDue today lastOperationAt in
  await currentHour <- readClock in
  let hourly := hourlyResetDue currentHour lastOperationAt in
  Ret (mkUpdates now monthlyResetNeeded daily hourly).

(** What that block decides when all its readings give [now]. *)
Definition userResetsAt (now : Z) (lastOperationAt : option Z) : Updates :=
  mkUpdates now (userMonthlyResetNeeded now (default now lastOperationAt))
    (dailyResetDue now lastOperationAt) (hourlyResetDue now lastOperationAt).

(** The row after [.set(updates)]: every reset also sets [lastOperationAt]. *)
Definition setUser (updates : Updates) (row : UserRow) : UserRow :=
  mkUserRow
    (u_id row) (u_sub row)
    (if up_monthly updates then 0 else u_monthlyOperations row)
    (if up_daily updates then 0 else u_dailyOperations row)
    (if up_hourly updates then 0 else u_hourlyOperations row)
    (Some (up_now updates))
    (u_purchasedCredits row) (u_updatedAt row).

(** [UnifiedOperationCounter.getUserOperationCounts(userId)] *)
Definition getUserOperationCounts (uid : string)
  : prog DB (result (option UserRow)) :=
  await found <- atomic (fun _ db => (db, users db !! uid)) in
  match found with
  | None => Ret (Throw "User not found")
  | Some user =>
      await updates <- decideUserResets (u_lastOperationAt user) in
      if needsUpdate updates then
        atomic (fun _ db =>
          match users db !! uid with
          | Some row =>
              let row' := setUser updates row in
              (with_users (insert uid row') db, Ok (Some row'))
          | None => (db, Ok None)
          end)
      else Ret (Ok (Some user))
  end.

(** Reading a field of [undefined] throws a TypeError. *)
Definition defined {A} (o : option A) : prog DB (result A) :=
  match o with
  | Some a => Ret (Ok a)
  | None => Ret (Throw "TypeError")
  end.

(** [context.sessionId || this.generateAnonymousSessionId(context.req)] *)
Definition sessionIdOf (context : OperationContext) : result string :=
  if truthyStr (ctx_sessionId context) then
    match ctx_sessionId context with Some s => Ok s | None => Throw "TypeError" end
  else
    match req context with
    | Some r => Ok (generateAnonymousSessionId r)
    | None => Throw "TypeError"
    end.


(** [db.insert(operationsLog).values(operationLog)].  The column [user_id]
    references [users.id]: for a user id that is no row of [users] the
    INSERT is refused.  The column [scope] has the default ['main'], which a
    row gets when [operationLog] carries no scope.  [size] rounded is taken
    to be within the range of the column [file_size_mb]: it is the size of
    an upload, which the routes limit to 500 MB. *)
Definition insertOperationLog
  (uid sid : option string) (ty : OperationType) (fmt : string) (size : Q)
  (itf : Interface) (planId : string) (scope : option string) : prog DB (result unit) :=
  atomic (fun now db =>
    let row := mkOperationLog uid sid ty fmt (mathRound size) itf planId
                 (Some (default "main" scope)) now in
    match uid with
    | Some u =>
        match users db !! u with
        | Some _ => (with_operationsLog (fun l => (l ++ [row])%list) db, Ok tt)
        | None => (db, Throw "violates foreign key constraint")
        end
    | None => (with_operationsLog (fun l => (l ++ [row])%list) db, Ok tt)
    end).

(** [x || null] *)
Definition orNull (o : option string) : option string :=
  if truthyStr o then o else None.

(** The SET clause of the UPDATE of [recordOperation] on [users]; [None]
    when a counter is at the end of its range. *)
Definition bumpUser (updatedAt : Z) (row : UserRow) : option UserRow :=
  match plusOne (u_monthlyOperations row), plusOne (u_dailyOperations row),
        plusOne (u_hourlyOperations row) with
  | Some m, Some d, Some h =>
      Some (mkUserRow (u_id row) (u_sub row) m d h
              (u_lastOperationAt row) (u_purchasedCredits row) (Some updatedAt))
  | _, _, _ => None
  end.

(** The same on [anonymous_sessions]. *)
Definition bumpSession (updatedAt : Z) (row : AnonymousSession) : option AnonymousSession :=
  match plusOne (monthlyOperationsUsed row), plusOne (dailyOperationsUsed row),
        plusOne (hourlyOperationsUsed row) with
  | Some m, Some d, Some h =>
      Some (mkAnonymousSession (sessionId row) (ipHash row) m d h
              (currentPeriodStart row) (lastDailyReset row) (lastHourlyReset row)
              (Some updatedAt))
  | _, _, _ => None
  end.

(** An UPDATE of the row with primary key [key]: no row, no change. *)
Definition updateByKey {K A} `{Countable K} (key : K) (set : A -> option A)
  (table : gmap K A) : option (gmap K A) :=
  match table !! key with
  | Some row =>
      match set row with
      | Some row' => Some (<[key := row']> table)
      | None => None
      end
  | None => Some table
  end.

(** [UnifiedOperationCounter.recordOperation(context)].  The counters are
    incremented by one UPDATE whose SET clause is [column + 1], evaluated by
    the database: one atomic step.  [updatedAt] is a [new Date()] that is
    read when the statement is built. *)
Definition recordOperation (context : OperationContext) : prog DB (result unit) :=
  let regular : prog DB (result unit) :=
    awaitOk planId <- (if truthyStr (userId context) then
                  awaitOk user <- bindE (getUserOperationCounts (default "" (userId context))) defined in
                  Ret (Ok (getUserPlan user))
                else Ret (Ok "anonymous")) in
    awaitOk _ <- insertOperationLog (orNull (userId context)) (orNull (ctx_sessionId context))
           (operationType context) (fileFormat context) (fileSizeMb context)
           (interface context) planId None in
    if truthyStr (userId context) then
      await updatedAt <- readClock in
      atomic (fun _ db =>
        match updateByKey (default "" (userId context)) (bumpUser updatedAt) (users db) with
        | Some rows => (with_users (fun _ => rows) db, Ok tt)
        | None => (db, Throw "integer out of range")
        end)
    else
      match sessionIdOf context with
      | Throw e => Ret (Throw e)
      | Ok sid =>
          await updatedAt <- readClock in
          atomic (fun _ db =>
            match updateByKey sid (bumpSession updatedAt) (anonymousSessions db) with
            | Some rows => (with_anonymousSessions (fun _ => rows) db, Ok tt)
            | None => (db, Throw "integer out of range")
            end)
      end in
  if truthyStr (leadMagnetEmail context) then
    await creditsUsed <- atomic (fun _ db =>
      let (l, used) :=
        useLeadMagnetCredits (default "" (leadMagnetEmail context)) 1 (leadMagnet db) in
      (with_leadMagnet (fun _ => l) db, used)) in
    if creditsUsed : bool then
      awaitOk _ <- insertOperationLog (orNull (userId context)) (orNull (ctx_sessionId context))
             (operationType context) (fileFormat context) (fileSizeMb context)
             (interface context) "lead-magnet" None in
      Ret (Ok tt)
    else regular
  else regular.

(** The SET clause of the UPDATE of [recordScopedOperation] on
    [user_scope_counters]. *)
Definition bumpScopeUser (lastOperationAt updatedAt : Z) (row : ScopeCounter)
  : option ScopeCounter :=
  match plusOne (monthlyUsed row), plusOne (dailyUsed row), plusOne (hourlyUsed row) with
  | Some m, Some d, Some h =>
      Some (mkScopeCounter (sc_owner row) (sc_scope row) m d h
              (sc_currentPeriodStart row) (sc_lastDailyReset row) (sc_lastHourlyReset row)
              (Some lastOperationAt) (Some updatedAt))
  | _, _, _ => None
  end.

(** The same on [anonymous_session_scopes]. *)
Definition bumpScopeSession (updatedAt : Z) (row : ScopeCounter) : option ScopeCounter :=
  match plusOne (monthlyUsed row), plusOne (dailyUsed row), plusOne (hourlyUsed row) with
  | Some m, Some d, Some h =>
      Some (mkScopeCounter (sc_owner row) (sc_scope row) m d h
              (sc_currentPeriodStart row) (sc_lastDailyReset row) (sc_lastHourlyReset row)
              (sc_lastOperationAt row) (Some updatedAt))
  | _, _, _ => None
  end.

(** [ScopedOperationCounter.recordScopedOperation(context)] *)
Definition recordScopedOperation (context : ScopedOperationContext)
  : prog DB (result unit) :=
  awaitOk _ <- insertOperationLog (orNull (s_userId context)) (orNull (s_sessionId context))
         (s_operationType context) (s_fileFormat context) (s_fileSizeMb context)
         (s_interface context) (s_planId context) (Some (s_scope context)) in
  if truthyStr (s_userId context) then
    await lastOperationAt <- readClock in
    await updatedAt <- readClock in
    atomic (fun _ db =>
      match updateWhere (sameScope (default "" (s_userId context)) (s_scope context))
              (bumpScopeUser lastOperationAt updatedAt) (userScopeCounters db) with
      | Some rows => (with_userScopeCounters (fun _ => rows) db, Ok tt)
      | None => (db, Throw "integer out of range")
      end)
  else
    let sessionId := orDefault (s_sessionId context) "fallback_session" in
    await updatedAt <- readClock in
    atomic (fun _ db =>
      match updateWhere (sameScope sessionId (s_scope context))
              (bumpScopeSession updatedAt) (anonymousSessionScopes db) with
      | Some rows => (with_anonymousSessionScopes (fun _ => rows) db, Ok tt)
      | None => (db, Throw "integer out of range")
      end).

(** *** server/usageTracker.ts *)

Record UsageStats : Type := mkUsageStats {
  totalCompressions : Z;
  totalConversions : Z;
  dailyCompressions : Z;
  dailyConversions : Z;
  lastResetDate : Z;
  currentCredits : Z
}.

(** The row filter of [getUsage]: by user id when there is one, else by
    fingerprint. *)
Definition whereClause (uid fingerprint : option string) (row : UsageTracking) : bool :=
  if truthyStr uid then
    match ut_userId row, uid with
    | Some a, Some b => String.eqb a b
    | _, _ => false
    end
  else
    match ut_fingerprint row, fingerprint with
    | Some a, Some b => String.eqb a b
    | _, _ => false
    end.

(** [needsReset] of [getUsage] (lines 66-70), on the two dates it
    compares. *)
Definition usageNeedsReset (now lastReset : Z) : bool :=
  (negb (getDate tz now =? getDate tz lastReset)
   || negb (getMonth tz now =? getMonth tz lastReset)
   || negb (getFullYear tz now =? getFullYear tz lastReset))%bool.

(** The SET clause of the daily reset (lines 75-80). *)
Definition resetUsageRow (now : Z) (row : UsageTracking) : UsageTracking :=
  mkUsageTracking (ut_userId row) (ut_fingerprint row)
    (ut_totalCompressions row) (ut_totalConversions row) 0 0
    (ut_currentCredits row) (Some now) (Some now).

(** [UsageTracker.getUsage(userId, fingerprint)].  [storage.getUser] is a
    SELECT on [users]; the column [user_id] of [usage_tracking] references
    [users.id], so the INSERT of a new record is refused for a user id that
    is no row of [users]. *)
Definition getUsage (uid fingerprint : option string) : prog DB (result UsageStats) :=
  if (negb (truthyStr uid) && negb (truthyStr fingerprint))%bool then
    Ret (Throw "Either userId or fingerprint must be provided")
  else
    await found <- atomic (fun _ db =>
               (db, List.find (whereClause uid fingerprint) (usageTracking db))) in
    await purchasedCredits <-
      (if truthyStr uid then
         atomic (fun _ db =>
           (db, match users db !! default "" uid with
                | Some user => u_purchasedCredits user * 100
                | None => 0
                end))
       else Ret 0) in
    match found with
    | Some record =>
        await now <- readClock in
        await lastReset <- dateOrNow (ut_lastResetDate record) in
        if usageNeedsReset now lastReset then
          await updated <- atomic (fun _ db =>
            let rows := map (fun r => if whereClause uid fingerprint r
                                      then resetUsageRow now r else r)
                            (usageTracking db) in
            (with_usageTracking (fun _ => rows) db,
             List.find (whereClause uid fingerprint) rows)) in
          awaitOk updated <- defined updated in
          Ret (Ok (mkUsageStats
                     (ut_totalCompressions updated) (ut_totalConversions updated) 0 0 now
                     (Z.max 0 (90 * 100 + purchasedCredits - ut_currentCredits updated))))
        else
          await lastResetDate <- dateOrNow (ut_lastResetDate record) in
          Ret (Ok (mkUsageStats
                     (ut_totalCompressions record) (ut_totalConversions record)
                     (ut_dailyCompressions record) (ut_dailyConversions record)
                     lastResetDate
                     (Z.max 0 (90 * 100 + purchasedCredits - ut_currentCredits record))))
    | None =>
        awaitOk created <- atomic (fun now db =>
          let row := mkUsageTracking (orNull uid) (orNull fingerprint) 0 0 0 0 0
                       (Some now) (Some now) in
          match orNull uid with
          | Some u =>
              match users db !! u with
              | Some _ => (with_usageTracking (fun l => (l ++ [row])%list) db, Ok row)
              | None => (db, Throw "violates foreign key constraint")
              end
          | None => (with_usageTracking (fun l => (l ++ [row])%list) db, Ok row)
          end) in
        await lastResetDate <- dateOrNow (ut_lastResetDate created) in
        Ret (Ok (mkUsageStats 0 0 0 0 lastResetDate (90 * 100 + purchasedCredits)))
    end.

(** What [UsageTracker.checkLimit] returns; [cl_remaining = None] is NaN. *)
Record CheckLimitResult : Type := mkCheckLimitResult {
  cl_allowed : bool;
  cl_remaining : option Z;
  cl_usage : UsageStats
}.

(** [UsageTracker.checkLimit(user, req, operationCount)], with the user given
    by its id and subscription plan and the request by the fingerprint that
    [generateFingerprint] derives from it.  [getUsage] returns no
    [monthlyCompressions] or [monthlyConversions], so their sum is NaN and
    so is [remaining]. *)
Definition checkLimit (user : option (string * option string)) (fingerprint : string)
  (operationCount : Z) : prog DB (result CheckLimitResult) :=
  let userId := match user with Some (id, _) => Some id | None => None end in
  let fingerprint := if truthyStr userId then None else Some fingerprint in
  awaitOk usage <- getUsage userId fingerprint in
  let tier := match user with
              | Some (_, plan) => orDefault plan "free"
              | None => "free"
              end in
  let limit := default 0 (monthlyOperations (getUserPlanOfTier tier)) in
  let allowed := operationCount <=? limit in
  Ret (Ok (mkCheckLimitResult allowed None usage)).

(** ** Vocabulary of the statements *)

(** The identity whose counter record a call works on. *)
Inductive IdentityKey : Type :=
| UserKey (uid : string)
| SessionKey (sid : string)
| UserScopeKey (uid scope : string)
| SessionScopeKey (sid scope : string).

(** The monthly, daily and hourly counters of the records of an identity,
    in the order of the table: at most one record in a table with a primary
    key, any number in a scoped table. *)
Definition records (key : IdentityKey) (db : DB) : list (Z * Z * Z) :=
  match key with
  | UserKey uid =>
      option_list
        ((fun u => (u_monthlyOperations u, u_dailyOperations u, u_hourlyOperations u))
           <$> users db !! uid)
  | SessionKey sid =>
      option_list
        ((fun s => (monthlyOperationsUsed s, dailyOperationsUsed s, hourlyOperationsUsed s))
           <$> anonymousSessions db !! sid)
  | UserScopeKey uid scope =>
      map usedOf (List.filter (sameScope uid scope) (userScopeCounters db))
  | SessionScopeKey sid scope =>
      map usedOf (List.filter (sameScope sid scope) (anonymousSessionScopes db))
  end.

(** The counters of the record of an identity that a SELECT answers
    first. *)
Definition counters (key : IdentityKey) (db : DB) : option (Z * Z * Z) :=
  head (records key db).

Definition pick (w : LimitType) (c : Z * Z * Z) : Z :=
  match w with
  | monthly => fst (fst c)
  | daily => snd (fst c)
  | hourly => snd c
  end.

(** The two increment operations. *)
Inductive Call : Type :=
| RecordOperation (context : OperationContext)
| RecordScopedOperation (context : ScopedOperationContext).

Definition perform (call : Call) : prog DB (result unit) :=
  match call with
  | RecordOperation context => recordOperation context
  | RecordScopedOperation context => recordScopedOperation context
  end.

(** The identity whose record a call increments. *)
Definition identityOf (call : Call) : option IdentityKey :=
  match call with
  | RecordOperation context =>
      if truthyStr (userId context) then Some (UserKey (default "" (userId context)))
      else match sessionIdOf context with
           | Ok sid => Some (SessionKey sid)
           | Throw _ => None
           end
  | RecordScopedOperation context =>
      if truthyStr (s_userId context)
      then Some (UserScopeKey (default "" (s_userId context)) (s_scope context))
      else Some (SessionScopeKey (orDefault (s_sessionId context) "fallback_session")
                                 (s_scope context))
  end.

(** The lead-magnet e-mail address that a call carries. *)
Definition emailOf (call : Call) : option string :=
  match call with
  | RecordOperation context =>
      if truthyStr (leadMagnetEmail context) then leadMagnetEmail context else None
  | RecordScopedOperation _ => None
  end.

(** The credits of [email] are exhausted in every state [J] of the credit
    store: the use of a credit is refused there, and leaves the store in
    [J]. *)
Definition exhausted (J : Lead -> Prop) (email : string) : Prop :=
  forall l, J l ->
    snd (useLeadMagnetCredits email 1 l) = false /\ J (fst (useLeadMagnetCredits email 1 l)).

(** The call uses no lead-magnet credit: it carries no e-mail address, or
    the credits of its address are exhausted. *)
Definition usesNoCredit (J : Lead -> Prop) (call : Call) : Prop :=
  match emailOf call with
  | Some email => exhausted J email
  | None => True
  end.

(** The user of a key is a row of [users], as the foreign keys of the
    tables demand. *)
Definition ownerKnown (key : IdentityKey) (db : DB) : Prop :=
  match key with
  | UserKey uid | UserScopeKey uid _ => is_Some (users db !! uid)
  | _ => True
  end.

(** No window of a registered user's record falls due up to time [T]
    ([recordOperation] first runs [getUserOperationCounts] for a user). *)
Definition noResetDue (key : IdentityKey) (db : DB) (T : Z) : Prop :=
  match key with
  | UserKey uid =>
      exists u tl, users db !! uid = Some u /\ u_lastOperationAt u = Some tl /\
                   startOfDay tz T <= tl /\ startOfHour tz T <= tl /\
                   T - tl <= msPer30Days
  | _ => True
  end.

(** All three counters [j] higher. *)
Definition raised (j : Z) (c : Z * Z * Z) : Z * Z * Z :=
  let '(m, d, h) := c in (m + j, d + j, h + j).

(** All three counters one higher. *)
Definition bump3 (c : Z * Z * Z) : Z * Z * Z := raised 1 c.

(** A session row when all readings of a call's clock give [now]. *)
Definition sessionNeedsUpdate (now : Z) (session : AnonymousSession) : bool :=
  needsUpdate (resetsAt now (currentPeriodStart session) (lastDailyReset session)
                 (lastHourlyReset session)).

Definition sessionAfterResets (now : Z) (session : AnonymousSession) : AnonymousSession :=
  setSession (resetsAt now (currentPeriodStart session) (lastDailyReset session)
                (lastHourlyReset session)) session.

(** A user row when all readings of a call's clock give [now]. *)
Definition userNeedsUpdate (now : Z) (user : UserRow) : bool :=
  needsUpdate (userResetsAt now (u_lastOperationAt user)).

Definition userAfterResets (now : Z) (user : UserRow) : UserRow :=
  setUser (userResetsAt now (u_lastOperationAt user)) user.

(** The daily and the hourly window of an anonymous session. *)
Inductive Kind : Type := Hourly | Daily.

Definition shouldReset (kind : Kind) (lastReset now : Z) : bool :=
  match kind with
  | Hourly => hourlyResetDue now (Some lastReset)
  | Daily => dailyResetDue now (Some lastReset)
  end.

Definition bucket (kind : Kind) (t : Z) : Z :=
  match kind with
  | Hourly => hourBucket tz t
  | Daily => dayBucket tz t
  end.

(** ** The reset predicates *)

Lemma monthlyResetDue_iff now cps :
  monthlyResetDue now cps = true <-> msPer30Days <= now - cps.
Proof.
  unfold monthlyResetDue. cbv zeta. rewrite Z.leb_le.
  assert (HD : 0 < msPer30Days) by (unfold msPer30Days; lia).
  split; intros H.
  - destruct (Z_lt_le_dec (now - cps) msPer30Days) as [Hlt|Hle]; [|exact Hle].
    pose proof (Z.div_lt_upper_bound (now - cps) msPer30Days 1 HD ltac:(lia)). lia.
  - apply Z.div_le_lower_bound; lia.
Qed.

(** A period that starts at a later reading of the clock has not elapsed. *)
Lemma monthlyResetDue_later now cps : now <= cps -> monthlyResetDue now cps = false.
Proof.
  intros H. destruct (monthlyResetDue now cps) eqn:E; [|reflexivity].
  apply monthlyResetDue_iff in E. unfold msPer30Days in E. lia.
Qed.

Lemma userMonthlyResetNeeded_later now last :
  now <= last -> userMonthlyResetNeeded now last = false.
Proof. intros H. unfold userMonthlyResetNeeded, msPer30Days. apply Z.ltb_ge. lia. Qed.

Lemma dailyResetDue_iff now t :
  dailyResetDue now (Some t) = true <-> dayBucket tz t < dayBucket tz now.
Proof.
  unfold dailyResetDue. cbv zeta. cbn [default from_option]. unfold id.
  rewrite Z.ltb_lt. apply lt_startOfDay_iff.
Qed.

Lemma hourlyResetDue_iff now t :
  hourlyResetDue now (Some t) = true <-> hourBucket tz t < hourBucket tz now.
Proof.
  unfold hourlyResetDue. cbv zeta. cbn [default from_option]. unfold id.
  rewrite Z.ltb_lt. apply lt_startOfHour_iff.
Qed.

Lemma shouldReset_iff kind t now :
  shouldReset kind t now = true <-> bucket kind t < bucket kind now.
Proof.
  destruct kind; cbn [shouldReset bucket];
    [apply hourlyResetDue_iff | apply dailyResetDue_iff].
Qed.

(** A reset that is not due is not due earlier. *)
Lemma monthlyResetDue_mono t t' cps :
  t <= t' -> monthlyResetDue t' cps = false -> monthlyResetDue t cps = false.
Proof.
  intros Hle H. destruct (monthlyResetDue t cps) eqn:E; [|reflexivity].
  apply monthlyResetDue_iff in E.
  assert (E' : monthlyResetDue t' cps = true) by (apply monthlyResetDue_iff; lia).
  congruence.
Qed.

Lemma dailyResetDue_mono t t' last :
  t <= t' -> dailyResetDue t' last = false -> dailyResetDue t last = false.
Proof.
  intros Hle. unfold dailyResetDue. cbv zeta. rewrite !Z.ltb_ge.
  pose proof (startOfDay_mono tz t t' Hle). lia.
Qed.

Lemma hourlyResetDue_mono t t' last :
  t <= t' -> hourlyResetDue t' last = false -> hourlyResetDue t last = false.
Proof.
  intros Hle. unfold hourlyResetDue. cbv zeta. rewrite !Z.ltb_ge.
  pose proof (startOfHour_mono tz t t' Hle). lia.
Qed.

(** ** The block that decides on the resets *)

(** What the block answers: the reading [now], and each test made at a
    reading of its own, none earlier than the one before. *)
Definition decided (cps ld lh : option Z) (now now' : Z) (updates : Updates) : Prop :=
  exists start today hour,
    now <= up_now updates /\ up_now updates <= start /\ start <= today /\
    today <= hour /\ hour <= now' /\
    up_monthly updates = monthlyResetDue (up_now updates) (default start cps) /\
    up_daily updates = dailyResetDue today ld /\
    up_hourly updates = hourlyResetDue hour lh.

Lemma wp_decideResets cps ld lh now (db : DB) :
  wp (decideResets cps ld lh)
     (fun now' db' updates => db' = db /\ decided cps ld lh now now' updates) now db.
Proof.
  unfold decideResets, decided, readClock, dateOrNow. cbn [bind wp]. intros now1 H1.
  destruct cps as [c|]; cbn [bind wp].
  - intros now2 H2 now3 H3. split; [reflexivity|].
    exists now1, now2, now3. cbn. repeat split; lia.
  - intros now2 H2 now3 H3 now4 H4. split; [reflexivity|].
    exists now2, now3, now4. cbn. repeat split; lia.
Qed.

Lemma run_alone_decideResets {R} cps ld lh (k : Updates -> prog DB R) now db :
  run_alone (bind (decideResets cps ld lh) k) now db
  = run_alone (k (resetsAt now cps ld lh)) now db.
Proof. unfold decideResets, readClock, dateOrNow. destruct cps; reflexivity. Qed.



Lemma run_alone_decideUserResets {R} last (k : Updates -> prog DB R) now db :
  run_alone (bind (decideUserResets last) k) now db
  = run_alone (k (userResetsAt now last)) now db.
Proof. unfold decideUserResets, readClock, dateOrNow. destruct last; reflexivity. Qed.

(** Each counter is what it was, or zero. *)
Lemma setSession_id updates s : needsUpdate updates = false -> setSession updates s = s.
Proof.
  unfold needsUpdate, setSession. intros H.
  apply orb_false_iff in H as [H Hh]. apply orb_false_iff in H as [Hm Hd].
  rewrite Hm, Hd, Hh. destruct s; reflexivity.
Qed.

Lemma sessionAfterResets_id now s :
  sessionNeedsUpdate now s = false -> sessionAfterResets now s = s.
Proof. apply setSession_id. Qed.

(** ** Window resets of an anonymous session *)

(** The call on an existing record, all its steps at one time, as one
    function of time and store. *)
Lemma getAnonymousSession_existing sid req now db s :
  anonymousSessions db !! sid = Some s ->
  run_alone (getAnonymousSession sid req) now db =
    (now,
     (if sessionNeedsUpdate now s
      then with_anonymousSessions (insert sid (sessionAfterResets now s)) db
      else db),
     Ok (Some (sessionAfterResets now s))).
Proof.
  intros H. unfold getAnonymousSession, atomic, bindE.
  cbn [bind run_alone]. rewrite H. cbn [bind run_alone].
  rewrite run_alone_decideResets. fold (sessionNeedsUpdate now s).
  destruct (sessionNeedsUpdate now s) eqn:Hn.
  - cbn [run_alone]. rewrite H. reflexivity.
  - cbn [run_alone]. rewrite (sessionAfterResets_id _ _ Hn). reflexivity.
Qed.

(** The monthly window of an anonymous session: reset exactly when at
    least thirty days have passed since [currentPeriodStart]. *)
Lemma getAnonymousSession_monthly sid req now db s cps :
  anonymousSessions db !! sid = Some s ->
  currentPeriodStart s = Some cps ->
  exists db' s',
    run_alone (getAnonymousSession sid req) now db = (now, db', Ok (Some s')) /\
    (msPer30Days <= now - cps ->
       monthlyOperationsUsed s' = 0 /\ currentPeriodStart s' = Some now /\
       anonymousSessions db' !! sid = Some s') /\
    (now - cps < msPer30Days ->
       monthlyOperationsUsed s' = monthlyOperationsUsed s /\
       currentPeriodStart s' = Some cps).
Proof.
  intros H Hcps. rewrite (getAnonymousSession_existing _ _ _ _ _ H).
  eexists _, _. split; [reflexivity|].
  pose proof (monthlyResetDue_iff now cps) as Hiff.
  unfold sessionAfterResets, sessionNeedsUpdate, needsUpdate, resetsAt, setSession.
  rewrite Hcps. cbn [default from_option up_monthly up_daily up_hourly up_now].
  unfold id. destruct (monthlyResetDue now cps); cbn.
  - split; [|intros; exfalso; pose proof (proj1 Hiff eq_refl); lia].
    intros _. repeat split. cbn. apply lookup_insert_eq.
  - split; [intros Hge; apply Hiff in Hge; discriminate|]. auto.
Qed.

(** ** Window resets of a registered user *)

Lemma getUserOperationCounts_existing uid now db u :
  users db !! uid = Some u ->
  run_alone (getUserOperationCounts uid) now db =
    (now,
     (if userNeedsUpdate now u
      then with_users (insert uid (userAfterResets now u)) db else db),
     Ok (Some (if userNeedsUpdate now u then userAfterResets now u else u))).
Proof.
  intros H. unfold getUserOperationCounts, atomic.
  cbn [bind run_alone]. rewrite H. rewrite run_alone_decideUserResets.
  fold (userNeedsUpdate now u).
  destruct (userNeedsUpdate now u) eqn:Hn; cbn [run_alone]; [|reflexivity].
  rewrite H. reflexivity.
Qed.

(** Exactly thirty days after the reference time the user's monthly window
    is not reset, the anonymous session's is; the daily reset that is due at
    the same call moves the user's reference time to now. *)
Lemma user_monthly_at_30_days uid db u t :
  users db !! uid = Some u ->
  u_lastOperationAt u = Some t ->
  exists db' u',
    run_alone (getUserOperationCounts uid) (t + msPer30Days) db
      = (t + msPer30Days, db', Ok (Some u')) /\
    users db' !! uid = Some u' /\
    u_monthlyOperations u' = u_monthlyOperations u /\
    u_lastOperationAt u' = Some (t + msPer30Days) /\
    monthlyResetDue (t + msPer30Days) t = true.
Proof.
  intros H Ht. rewrite (getUserOperationCounts_existing _ _ _ _ H).
  assert (Hm : userMonthlyResetNeeded (t + msPer30Days) t = false).
  { unfold userMonthlyResetNeeded. apply Z.ltb_ge. lia. }
  assert (Hd : dailyResetDue (t + msPer30Days) (Some t) = true).
  { unfold dailyResetDue. cbv zeta. cbn [default from_option]. unfold id.
    apply Z.ltb_lt. pose proof (startOfDay_gt tz (t + msPer30Days)).
    unfold msPer30Days, msPerDay in *. lia. }
  unfold userNeedsUpdate, userAfterResets, userResetsAt, needsUpdate, setUser.
  rewrite Ht. cbn [default from_option up_monthly up_daily up_hourly up_now].
  unfold id. rewrite Hm, Hd. cbn [orb].
  eexists _, _. split; [reflexivity|]. split; [cbn; apply lookup_insert_eq|].
  cbn. repeat split. apply monthlyResetDue_iff. lia.
Qed.

(** ** UPDATE statements *)

Lemma plusOne_Some x : x < int4Max -> plusOne x = Some (x + 1).
Proof. intros H. unfold plusOne. destruct (Z.ltb_spec x int4Max); [reflexivity | lia]. Qed.

Lemma plusOne_inv x y : plusOne x = Some y -> y = x + 1 /\ x < int4Max.
Proof.
  unfold plusOne. destruct (Z.ltb_spec x int4Max) as [Hlt|Hge]; [|discriminate].
  intros H. injection H as <-. auto.
Qed.

Lemma plusOne_None x : plusOne x = None <-> int4Max <= x.
Proof.
  unfold plusOne. destruct (Z.ltb_spec x int4Max) as [Hlt|Hge]; split; intros H;
    try discriminate; try lia; reflexivity.
Qed.

(** What an UPDATE that succeeds makes of each row. *)
Lemma updateWhere_Some {A} (selects : A -> bool) set table table' :
  updateWhere selects set table = Some table' ->
  Forall2 (fun row row' => if selects row then set row = Some row' else row' = row)
          table table'.
Proof.
  revert table'. induction table as [|row rest IH]; intros table' H; cbn in H.
  - injection H as <-. constructor.
  - destruct (selects row) eqn:Hs.
    + destruct (set row) as [row'|] eqn:Hset; [|discriminate].
      destruct (updateWhere selects set rest) as [rest'|]; [|discriminate].
      injection H as <-. constructor; [rewrite Hs; exact Hset | apply IH; reflexivity].
    + destruct (updateWhere selects set rest) as [rest'|]; [|discriminate].
      injection H as <-. constructor; [rewrite Hs; reflexivity | apply IH; reflexivity].
Qed.

(** An UPDATE fails only on a row that it selects. *)
Lemma updateWhere_None {A} (selects : A -> bool) set table :
  updateWhere selects set table = None ->
  Exists (fun row => selects row = true /\ set row = None) table.
Proof.
  induction table as [|row rest IH]; cbn; [discriminate|].
  destruct (selects row) eqn:Hs.
  - destruct (set row) as [row'|] eqn:Hset; [|intros _; left; auto].
    destruct (updateWhere selects set rest); [discriminate|].
    intros _. right. apply IH. reflexivity.
  - destruct (updateWhere selects set rest); [discriminate|].
    intros _. right. apply IH. reflexivity.
Qed.

(** It succeeds when [set] succeeds on every row that it selects. *)
Lemma updateWhere_total {A} (selects : A -> bool) set table :
  Forall (fun row => is_Some (set row)) (List.filter selects table) ->
  is_Some (updateWhere selects set table).
Proof.
  induction table as [|row rest IH]; cbn; [eauto|].
  destruct (selects row) eqn:Hs; intros Hall.
  - inversion Hall as [|? ? [row' Hrow] Hrest]; subst. rewrite Hrow.
    destruct (IH Hrest) as [rest' ->]. eauto.
  - destruct (IH Hall) as [rest' ->]. eauto.
Qed.

(** The rows that another WHERE clause selects, before and after: [q] is
    a clause that [set] does not move rows into or out of. *)
Lemma updateWhere_filter {A} (selects q : A -> bool) set table table' :
  (forall row row', selects row = true -> set row = Some row' -> q row' = q row) ->
  updateWhere selects set table = Some table' ->
  Forall2 (fun row row' => if selects row then set row = Some row' else row' = row)
          (List.filter q table) (List.filter q table').
Proof.
  intros Hq H. apply updateWhere_Some in H.
  induction H as [|row row' rest rest' Hrow _ IH]; cbn; [constructor|].
  destruct (selects row) eqn:Hs.
  - rewrite (Hq row row' Hs Hrow). destruct (q row); [|exact IH].
    constructor; [rewrite Hs; exact Hrow | exact IH].
  - subst row'. destruct (q row); [|exact IH].
    constructor; [rewrite Hs; reflexivity | exact IH].
Qed.

(** The two SET clauses on a scoped row keep its owner and scope, and make
    its counters one higher. *)
Lemma bumpScopeUser_inv t1 t2 row row' :
  bumpScopeUser t1 t2 row = Some row' ->
  sc_owner row' = sc_owner row /\ sc_scope row' = sc_scope row /\
  usedOf row' = bump3 (usedOf row) /\
  sc_currentPeriodStart row' = sc_currentPeriodStart row /\
  sc_lastDailyReset row' = sc_lastDailyReset row /\
  sc_lastHourlyReset row' = sc_lastHourlyReset row.
Proof.
  unfold bumpScopeUser.
  destruct (plusOne (monthlyUsed row)) as [m|] eqn:Hm; [|discriminate].
  destruct (plusOne (dailyUsed row)) as [d|] eqn:Hd; [|discriminate].
  destruct (plusOne (hourlyUsed row)) as [h|] eqn:Hh; [|discriminate].
  apply plusOne_inv in Hm as [-> _], Hd as [-> _], Hh as [-> _].
  intros H. injection H as <-. cbn. repeat split.
Qed.

Lemma bumpScopeSession_inv t row row' :
  bumpScopeSession t row = Some row' ->
  sc_owner row' = sc_owner row /\ sc_scope row' = sc_scope row /\
  usedOf row' = bump3 (usedOf row) /\
  sc_currentPeriodStart row' = sc_currentPeriodStart row /\
  sc_lastDailyReset row' = sc_lastDailyReset row /\
  sc_lastHourlyReset row' = sc_lastHourlyReset row.
Proof.
  unfold bumpScopeSession.
  destruct (plusOne (monthlyUsed row)) as [m|] eqn:Hm; [|discriminate].
  destruct (plusOne (dailyUsed row)) as [d|] eqn:Hd; [|discriminate].
  destruct (plusOne (hourlyUsed row)) as [h|] eqn:Hh; [|discriminate].
  apply plusOne_inv in Hm as [-> _], Hd as [-> _], Hh as [-> _].
  intros H. injection H as <-. cbn. repeat split.
Qed.

(** A scoped row whose counters leave room is incremented. *)
Definition hasRoom (c : Z * Z * Z) : Prop :=
  let '(m, d, h) := c in m < int4Max /\ d < int4Max /\ h < int4Max.

Lemma bumpScopeUser_room t1 t2 row :
  hasRoom (usedOf row) -> is_Some (bumpScopeUser t1 t2 row).
Proof.
  unfold hasRoom, usedOf, bumpScopeUser. intros (Hm & Hd & Hh).
  rewrite (plusOne_Some _ Hm), (plusOne_Some _ Hd), (plusOne_Some _ Hh). eauto.
Qed.

Lemma bumpScopeSession_room t row :
  hasRoom (usedOf row) -> is_Some (bumpScopeSession t row).
Proof.
  unfold hasRoom, usedOf, bumpScopeSession. intros (Hm & Hd & Hh).
  rewrite (plusOne_Some _ Hm), (plusOne_Some _ Hd), (plusOne_Some _ Hh). eauto.
Qed.

(** The UPDATE of [recordScopedOperation] on a table that holds one row of
    the owner and scope, with room in its counters. *)
Lemma updateWhere_one owner scope set table row :
  (forall r r', set r = Some r' ->
     sc_owner r' = sc_owner r /\ sc_scope r' = sc_scope r /\ usedOf r' = bump3 (usedOf r)) ->
  List.filter (sameScope owner scope) table = [row] ->
  is_Some (set row) ->
  exists table' row',
    updateWhere (sameScope owner scope) set table = Some table' /\
    set row = Some row' /\
    List.filter (sameScope owner scope) table' = [row'].
Proof using Type.
  intros Hset Hone [row' Hrow].
  destruct (updateWhere_total (sameScope owner scope) set table) as [table' Ht].
  { rewrite Hone. constructor; [exists row'; exact Hrow | constructor]. }
  exists table', row'. split; [exact Ht|]. split; [exact Hrow|].
  assert (Hkeep : forall r r', sameScope owner scope r = true -> set r = Some r' ->
                    sameScope owner scope r' = sameScope owner scope r).
  { intros r r' _ Hr. unfold sameScope.
    destruct (Hset r r' Hr) as (-> & -> & _). reflexivity. }
  pose proof (updateWhere_filter (sameScope owner scope) (sameScope owner scope)
                set table table' Hkeep Ht) as H.
  assert (Hs : sameScope owner scope row = true).
  { assert (Hin : In row (List.filter (sameScope owner scope) table))
      by (rewrite Hone; left; reflexivity).
    apply filter_In in Hin. exact (proj2 Hin). }
  rewrite Hone in H.
  destruct (List.filter (sameScope owner scope) table') as [|r1 rest1].
  - apply Forall2_nil_inv_r in H. discriminate H.
  - apply Forall2_cons_1 in H as [Hr1 Hrest].
    apply Forall2_nil_inv_l in Hrest. rewrite Hrest.
    rewrite Hs in Hr1. congruence.
Qed.

(** ** Increments *)

Lemma pick_raised w j c : pick w (raised j c) = pick w c + j.
Proof. destruct c as [[m d] h], w; reflexivity. Qed.

Lemma raised_raised i j c : raised i (raised j c) = raised (j + i) c.
Proof. destruct c as [[m d] h]. cbn. f_equal; [f_equal|]; lia. Qed.

Lemma records_log key f db : records key (with_operationsLog f db) = records key db.
Proof. destruct key; reflexivity. Qed.

Lemma records_leadMagnet key f db : records key (with_leadMagnet f db) = records key db.
Proof. destruct key; reflexivity. Qed.

(** The one record of the identity stands [j] above [base], the foreign
    keys hold, the credit store is in [J], and a registered user's reference
    time is [tl]. *)
Definition Inv (key : IdentityKey) (base : Z * Z * Z) (J : Lead -> Prop) (tl : Z) (db : DB)
  : Prop :=
  (exists j, 0 <= j /\ records key db = [raised j base]) /\
  ownerKnown key db /\
  J (leadMagnet db) /\
  match key with
  | UserKey uid => exists u, users db !! uid = Some u /\ u_lastOperationAt u = Some tl
  | _ => True
  end.

(** How far the record stands above [base]. *)
Definition added (key : IdentityKey) (base : Z * Z * Z) (db : DB) : Z :=
  match records key db with
  | c :: _ => pick monthly c - pick monthly base
  | [] => 0
  end.

Definition quiet (key : IdentityKey) (tl T : Z) : Prop :=
  match key with
  | UserKey _ =>
      startOfDay tz T <= tl /\ startOfHour tz T <= tl /\ T - tl <= msPer30Days
  | _ => True
  end.

Lemma Inv_log key base J tl f db :
  Inv key base J tl db -> Inv key base J tl (with_operationsLog f db).
Proof. unfold Inv. rewrite records_log. destruct key; auto. Qed.

Lemma added_log key base f db : added key base (with_operationsLog f db) = added key base db.
Proof. unfold added. now rewrite records_log. Qed.

Section Adds.
Variables (key : IdentityKey) (base : Z * Z * Z) (J : Lead -> Prop) (tl T N : Z).
Hypothesis Hquiet : quiet key tl T.
Hypothesis Hroom : forall w, pick w base + N <= int4Max.

Local Abbreviation addsQ' := (addsQ (Inv key base J tl) (added key base) T N).

Lemma room_left j : j + 1 <= N -> hasRoom (raised j base).
Proof.
  intros Hj. pose proof (Hroom monthly). pose proof (Hroom daily).
  pose proof (Hroom hourly). destruct base as [[m d] h]. cbn in *. lia.
Qed.

Lemma addsQ_insertOperationLog {R} (Q : result R -> Z -> Prop) n uid sid ty fmt size itf pl sc
  (k : unit -> prog DB (result R)) :
  (forall u db, uid = Some u -> Inv key base J tl db -> is_Some (users db !! u)) ->
  addsQ' Q n (k tt) ->
  addsQ' Q n (bindE (insertOperationLog uid sid ty fmt size itf pl sc) k).
Proof.
  intros Hfk H. unfold insertOperationLog, atomic, bindE. cbn [bind].
  apply addsQ_silent. intros now s _ HI.
  destruct uid as [u|].
  - destruct (Hfk u s eq_refl HI) as [row ->]. cbn [fst snd].
    split; [apply Inv_log, HI|]. split; [apply added_log | exact H].
  - cbn [fst snd]. split; [apply Inv_log, HI|]. split; [apply added_log | exact H].
Qed.

(** The step that increments the record adds one. *)
Lemma adds_bump (g : DB -> DB * result unit) :
  (forall j db, 0 <= j -> j + 1 <= N ->
     Inv key base J tl db -> records key db = [raised j base] ->
     Inv key base J tl (fst (g db)) /\
     records key (fst (g db)) = [raised (j + 1) base]) ->
  addsQ' (fun (_ : result unit) m => m = 0) 1 (atomic (fun _ db => g db)).
Proof.
  intros Hg. unfold atomic. cbn [addsQ]. intros now s _ HI _ Hb.
  destruct HI as [(j & Hj & Hrec) Hrest].
  assert (Hadded : added key base s = j).
  { unfold added. rewrite Hrec, pick_raised. lia. }
  destruct (Hg j s Hj ltac:(lia) (conj (ex_intro _ j (conj Hj Hrec)) Hrest) Hrec)
    as (HI' & Hrec').
  destruct (g s) as [db' r]. cbn [fst] in *.
  split; [exact HI'|].
  assert (Hadded' : added key base db' = j + 1).
  { unfold added. rewrite Hrec', pick_raised. lia. }
  rewrite Hadded, Hadded'. split; [lia|]. lia.
Qed.

(** The UPDATE of [recordScopedOperation] on the one row of the identity. *)
Lemma scoped_bump owner scope set table j :
  (forall r r', set r = Some r' ->
     sc_owner r' = sc_owner r /\ sc_scope r' = sc_scope r /\ usedOf r' = bump3 (usedOf r)) ->
  (forall r, hasRoom (usedOf r) -> is_Some (set r)) ->
  j + 1 <= N ->
  map usedOf (List.filter (sameScope owner scope) table) = [raised j base] ->
  exists table',
    updateWhere (sameScope owner scope) set table = Some table' /\
    map usedOf (List.filter (sameScope owner scope) table') = [raised (j + 1) base].
Proof.
  intros Hset Hroom' Hj Hrec.
  destruct (List.filter (sameScope owner scope) table) as [|row [|row2 rest]] eqn:Hone;
    try discriminate Hrec.
  cbn [map] in Hrec. injection Hrec as Hused.
  destruct (updateWhere_one owner scope set table row Hset Hone) as (table' & row' & Ht & Hrow & Hone').
  { apply Hroom'. rewrite Hused. apply room_left, Hj. }
  exists table'. split; [exact Ht|]. rewrite Hone'. cbn [map].
  destruct (Hset row row' Hrow) as (_ & _ & ->). rewrite Hused.
  unfold bump3. rewrite raised_raised. reflexivity.
Qed.

Lemma adds_recordScopedOperation context :
  identityOf (RecordScopedOperation context) = Some key ->
  adds (Inv key base J tl) (added key base) T N 1 (recordScopedOperation context).
Proof.
  cbn [identityOf]. intros Hk. unfold adds, recordScopedOperation.
  destruct (truthyStr (s_userId context)) eqn:Hu; injection Hk as Hkey.
  - apply addsQ_insertOperationLog.
    { intros u db Hou (_ & Hown & _). revert Hown. rewrite <- Hkey. cbn [ownerKnown].
      unfold orNull in Hou. rewrite Hu in Hou. destruct (s_userId context); [|discriminate].
      injection Hou as <-. auto. }
    apply addsQ_readClock. intros t1 _. apply addsQ_readClock. intros t2 _.
    apply adds_bump. intros j db Hj HjN HI Hrec. revert HI Hrec. rewrite <- Hkey.
    intros (_ & Hown & HJ & _) Hrec. cbn [records] in Hrec.
    destruct (scoped_bump _ _ (bumpScopeUser t1 t2) _ j
                (fun r r' Hr => match bumpScopeUser_inv _ _ _ _ Hr with
                                | conj H1 (conj H2 (conj H3 _)) => conj H1 (conj H2 H3)
                                end)
                (fun r => bumpScopeUser_room t1 t2 r) HjN Hrec)
      as (table' & -> & Hrec').
    cbn [fst]. split; [|exact Hrec'].
    split; [exists (j + 1); split; [lia | exact Hrec']|]. auto.
  - apply addsQ_insertOperationLog.
    { intros u db Hou. unfold orNull in Hou. rewrite Hu in Hou. discriminate. }
    cbv zeta. apply addsQ_readClock. intros t1 _.
    apply adds_bump. intros j db Hj HjN HI Hrec. revert HI Hrec. rewrite <- Hkey.
    intros (_ & Hown & HJ & _) Hrec. cbn [records] in Hrec.
    destruct (scoped_bump _ _ (bumpScopeSession t1) _ j
                (fun r r' Hr => match bumpScopeSession_inv _ _ _ Hr with
                                | conj H1 (conj H2 (conj H3 _)) => conj H1 (conj H2 H3)
                                end)
                (fun r => bumpScopeSession_room t1 r) HjN Hrec)
      as (table' & -> & Hrec').
    cbn [fst]. split; [|exact Hrec'].
    split; [exists (j + 1); split; [lia | exact Hrec']|]. auto.
Qed.

Lemma addsQ_getUserOperationCounts (Q : result (option UserRow) -> Z -> Prop) n uid :
  key = UserKey uid ->
  (forall u, Q (Ok (Some u)) n) ->
  addsQ' Q n (getUserOperationCounts uid).
Proof.
  intros Hkey HQ. unfold getUserOperationCounts, atomic. cbn [bind].
  apply addsQ_silent. intros now s _ HI. cbn [fst snd].
  split; [exact HI|]. split; [reflexivity|].
  pose proof HI as (_ & _ & _ & Hu). rewrite Hkey in Hu.
  destruct Hu as (u & -> & Hl). rewrite Hl.
  revert Hquiet. rewrite Hkey. intros (Hd & Hh & Hm).
  unfold decideUserResets, readClock, dateOrNow. cbn [bind].
  apply addsQ_silent. intros now1 s1 Hn1 HI1. cbn [fst snd].
  split; [exact HI1|]. split; [reflexivity|].
  apply addsQ_silent. intros now2 s2 Hn2 HI2. cbn [fst snd].
  split; [exact HI2|]. split; [reflexivity|].
  apply addsQ_silent. intros now3 s3 Hn3 HI3. cbn [fst snd].
  split; [exact HI3|]. split; [reflexivity|].
  assert (Hmonth : userMonthlyResetNeeded now1 tl = false)
    by (unfold userMonthlyResetNeeded; apply Z.ltb_ge; lia).
  assert (Hday : dailyResetDue now2 (Some tl) = false).
  { unfold dailyResetDue. cbv zeta. cbn [default from_option]. unfold id.
    apply Z.ltb_ge. pose proof (startOfDay_mono tz now2 T Hn2). lia. }
  assert (Hhour : hourlyResetDue now3 (Some tl) = false).
  { unfold hourlyResetDue. cbv zeta. cbn [default from_option]. unfold id.
    apply Z.ltb_ge. pose proof (startOfHour_mono tz now3 T Hn3). lia. }
  unfold needsUpdate. cbn [up_monthly up_daily up_hourly].
  rewrite Hmonth, Hday, Hhour. cbn [orb addsQ]. apply HQ.
Qed.

(** The UPDATE of [recordOperation] on [users]. *)
Lemma bumpUser_room t u :
  hasRoom (u_monthlyOperations u, u_dailyOperations u, u_hourlyOperations u) ->
  exists u', bumpUser t u = Some u' /\
    (u_monthlyOperations u', u_dailyOperations u', u_hourlyOperations u')
    = bump3 (u_monthlyOperations u, u_dailyOperations u, u_hourlyOperations u) /\
    u_lastOperationAt u' = u_lastOperationAt u.
Proof.
  unfold hasRoom, bumpUser. intros (Hm & Hd & Hh).
  rewrite (plusOne_Some _ Hm), (plusOne_Some _ Hd), (plusOne_Some _ Hh).
  eexists. split; [reflexivity|]. cbn. auto.
Qed.

Lemma bumpSession_room t s :
  hasRoom (monthlyOperationsUsed s, dailyOperationsUsed s, hourlyOperationsUsed s) ->
  exists s', bumpSession t s = Some s' /\
    (monthlyOperationsUsed s', dailyOperationsUsed s', hourlyOperationsUsed s')
    = bump3 (monthlyOperationsUsed s, dailyOperationsUsed s, hourlyOperationsUsed s).
Proof.
  unfold hasRoom, bumpSession. intros (Hm & Hd & Hh).
  rewrite (plusOne_Some _ Hm), (plusOne_Some _ Hd), (plusOne_Some _ Hh).
  eexists. split; [reflexivity|]. cbn. auto.
Qed.

Lemma adds_recordOperation context :
  identityOf (RecordOperation context) = Some key ->
  usesNoCredit J (RecordOperation context) ->
  adds (Inv key base J tl) (added key base) T N 1 (recordOperation context).
Proof.
  cbn [identityOf]. unfold usesNoCredit, emailOf, adds, recordOperation. cbv zeta.
  intros Hk Hcredit.
  match goal with
  | |- addsQ _ _ _ _ _ _ (if _ then _ else ?reg) => set (regular := reg)
  end.
  assert (Hreg : addsQ' (fun (_ : result unit) m => m = 0) 1 regular).
  { subst regular. destruct (truthyStr (userId context)) eqn:Hu.
    - injection Hk as Hkey. unfold bindE at 1. apply addsQ_bind.
      unfold bindE at 1. apply addsQ_bind. unfold bindE at 1. apply addsQ_bind.
      apply (addsQ_getUserOperationCounts _ _ _ (eq_sym Hkey)). intros u.
      cbn [defined addsQ].
      apply addsQ_insertOperationLog.
      { intros u' db Hou (_ & Hown & _). revert Hown. rewrite <- Hkey. cbn [ownerKnown].
        unfold orNull in Hou. rewrite Hu in Hou. destruct (userId context); [|discriminate].
        injection Hou as <-. auto. }
      apply addsQ_readClock. intros t1 _.
      apply adds_bump. intros j db Hj HjN HI Hrec. revert HI Hrec. rewrite <- Hkey.
      intros (_ & Hown & HJ & (u0 & Hu0 & Hl0)) Hrec. cbn [records] in Hrec.
      rewrite Hu0 in Hrec. cbn in Hrec. injection Hrec as Hused.
      destruct (bumpUser_room t1 u0) as (u' & Hbump & Hused' & Hl').
      { rewrite Hused. apply room_left, HjN. }
      unfold updateByKey. rewrite Hu0, Hbump. cbn [fst].
      assert (Hrec' : records (UserKey (default "" (userId context)))
                        (with_users (fun _ => <[default "" (userId context) := u']> (users db)) db)
                      = [raised (j + 1) base]).
      { cbn. rewrite lookup_insert_eq. cbn. rewrite Hused', Hused.
        unfold bump3. rewrite raised_raised. reflexivity. }
      split; [|exact Hrec'].
      split; [exists (j + 1); split; [lia | exact Hrec']|].
      split; [cbn; rewrite lookup_insert_eq; eauto|]. split; [exact HJ|].
      exists u'. cbn. rewrite lookup_insert_eq. split; [reflexivity|]. congruence.
    - destruct (sessionIdOf context) as [sid|e] eqn:Hsid; [|discriminate].
      injection Hk as Hkey. unfold bindE at 1. cbn [bind].
      apply addsQ_insertOperationLog.
      { intros u db Hou. unfold orNull in Hou. rewrite Hu in Hou. discriminate. }
      apply addsQ_readClock. intros t1 _.
      apply adds_bump. intros j db Hj HjN HI Hrec. revert HI Hrec. rewrite <- Hkey.
      intros (_ & Hown & HJ & _) Hrec. cbn [records] in Hrec.
      destruct (anonymousSessions db !! sid) as [s0|] eqn:Hs0; [|discriminate Hrec].
      cbn in Hrec. injection Hrec as Hused.
      destruct (bumpSession_room t1 s0) as (s' & Hbump & Hused').
      { rewrite Hused. apply room_left, HjN. }
      unfold updateByKey. rewrite Hs0, Hbump. cbn [fst].
      assert (Hrec' : records (SessionKey sid)
                        (with_anonymousSessions (fun _ => <[sid := s']> (anonymousSessions db)) db)
                      = [raised (j + 1) base]).
      { cbn. rewrite lookup_insert_eq. cbn. rewrite Hused', Hused.
        unfold bump3. rewrite raised_raised. reflexivity. }
      split; [|exact Hrec'].
      split; [exists (j + 1); split; [lia | exact Hrec']|].
      split; [exact I|]. split; [exact HJ | exact I]. }
  destruct (truthyStr (leadMagnetEmail context)) eqn:Hl; [|exact Hreg].
  destruct (leadMagnetEmail context) as [email|] eqn:He; [|discriminate Hl].
  cbn [default from_option]. unfold id, atomic. cbn [bind].
  apply addsQ_silent. intros now s _ HI.
  destruct HI as (Hrec & Hown & HJ & Hlast).
  destruct (Hcredit (leadMagnet s) HJ) as [Hused HJ'].
  destruct (useLeadMagnetCredits email 1 (leadMagnet s)) as [l used] eqn:Huse.
  cbn [fst snd] in *. subst used.
  split.
  { unfold Inv. rewrite records_leadMagnet.
    split; [exact Hrec|]. split; [destruct key; exact Hown|].
    split; [exact HJ'|]. destruct key; exact Hlast. }
  split; [unfold added; rewrite records_leadMagnet; reflexivity|].
  exact Hreg.
Qed.

Lemma adds_perform call :
  identityOf call = Some key ->
  usesNoCredit J call ->
  adds (Inv key base J tl) (added key base) T N 1 (perform call).
Proof.
  destruct call; intros Hk Hc;
    [apply adds_recordOperation | apply adds_recordScopedOperation]; assumption.
Qed.

End Adds.

(** C1 (as amended).  A call of [recordOperation] or [recordScopedOperation]
    that uses no lead-magnet credit (it carries no lead-magnet e-mail
    address, or the credits of its address are exhausted) adds exactly one
    (there is no operation count to pass) to the monthly, the daily and the
    hourly counter of the record of its identity.  For any number [N] of
    such calls on one identity, run concurrently under any interleaving of
    their database statements and any passage of time: when the identity has
    one record, its user (if it has one) is a row of [users], and the three
    counters plus [N] stay within the range of their [integer] columns, then
    once all calls have returned the identity still has one record, with each
    of the three counters higher by exactly [N].  For [recordOperation] on a
    registered user this needs that no window of the user falls due before
    the calls have returned. *)
Theorem increments_not_lost key calls sched now db m d h (J : Lead -> Prop) :
  Forall (fun call => identityOf call = Some key /\ usesNoCredit J call) calls ->
  J (leadMagnet db) ->
  records key db = [(m, d, h)] ->
  ownerKnown key db ->
  m + Z.of_nat (length calls) <= int4Max ->
  d + Z.of_nat (length calls) <= int4Max ->
  h + Z.of_nat (length calls) <= int4Max ->
  noResetDue key db (clock (run_events (mkConfig now db (map perform calls)) sched)) ->
  Forall (fun p => returned p <> None)
         (pool (run_events (mkConfig now db (map perform calls)) sched)) ->
  records key (store (run_events (mkConfig now db (map perform calls)) sched))
  = [(m + Z.of_nat (length calls), d + Z.of_nat (length calls),
      h + Z.of_nat (length calls))].
Proof.
  intros Hcalls HJ Hrec Hown Hm Hd Hh Hquiet Hret.
  set (final := run_events (mkConfig now db (map perform calls)) sched) in *.
  set (N := Z.of_nat (length calls)) in *.
  assert (Hraised0 : raised 0 (m, d, h) = (m, d, h))
    by (cbn; f_equal; [f_equal|]; lia).
  assert (Htl : exists tl, quiet key tl (clock final) /\ Inv key (m, d, h) J tl db).
  { unfold Inv. destruct key as [uid|sid|uid sc|sid sc];
      try (exists 0; split; [exact I|]; split; [exists 0; rewrite Hraised0; auto with zarith|];
           auto; fail).
    destruct Hquiet as (u & tl & Hu & Hl & Hq). exists tl. split; [exact Hq|].
    split; [exists 0; rewrite Hraised0; auto with zarith|]. eauto 10. }
  destruct Htl as (tl & Hq & HI).
  assert (Hroom : forall w, pick w (m, d, h) + N <= int4Max) by (intros []; cbn; lia).
  assert (Hadds : Forall (adds (Inv key (m, d, h) J tl) (added key (m, d, h)) (clock final) N 1)
                    (map perform calls)).
  { apply Forall_map. eapply Forall_impl; [exact Hcalls|].
    intros call [Hid Hcredit]. cbn. apply adds_perform; assumption. }
  assert (Hadded0 : added key (m, d, h) db = 0).
  { unfold added. rewrite Hrec. cbn. lia. }
  destruct (concurrent_adds (Inv key (m, d, h) J tl) (added key (m, d, h)) (clock final) N
              (map perform calls) sched now db Hadds HI
              ltac:(rewrite Hadded0, length_map; subst N; lia)
              ltac:(fold final; lia) Hret)
    as [[(j & Hj & Hrec') _] Hadded].
  fold final in Hrec', Hadded. rewrite length_map, Hadded0 in Hadded.
  unfold added in Hadded. rewrite Hrec', pick_raised in Hadded.
  rewrite Hrec'. fold N in Hadded. assert (j = N) by lia. subst j. reflexivity.
Qed.

(** ** [UsageTracker.checkLimit] *)

(** [UsageTracker.checkLimit] compares the requested count with the monthly
    limit alone: the usage it has just read plays no part in [allowed], and
    [remaining] is NaN. *)
Lemma checkLimit_ignores_usage user fingerprint operationCount now db :
  wp (checkLimit user fingerprint operationCount)
     (fun _ _ r =>
        match r with
        | Ok res =>
            cl_allowed res
            = (operationCount <=?
                 default 0 (monthlyOperations
                              (getUserPlanOfTier match user with
                                                 | Some (_, plan) => orDefault plan "free"
                                                 | None => "free"
                                                 end))) /\
            cl_remaining res = None
        | Throw _ => True
        end)
     now db.
Proof.
  unfold checkLimit, bindE. apply wp_bind. apply wp_any.
  intros now' s [usage|e]; cbn [wp]; auto.
Qed.

(** ** [checkOperationAllowed] *)




End Tables.

(** ** The functions on a small concrete installation *)

(** A server in UTC; users without subscription columns; the lead-magnet
    store holds the number of credits left. *)
Definition demoSha (s : string) : string := s.
Definition demoPlan (u : UserRow unit) : string := "free".
Definition demoCheckCredits (email : string) (credits : Z) : bool * Z :=
  (0 <? credits, credits).
Definition demoUseCredits (email : string) (n credits : Z) : Z * bool :=
  if n <=? credits then (credits - n, true) else (credits, false).

(** The limits of the example of the specification, for every tier. *)
Definition exampleLimits (tier : string) : Limits := mkLimits (Some 10) (Some 5) (Some 2).

Definition demoSession (m d h t : Z) : AnonymousSession :=
  mkAnonymousSession "s1" "iphash" m d h (Some t) (Some t) (Some t) None.

Definition demoScopeRow : ScopeCounter :=
  mkScopeCounter "s1" "main" 4 2 1 (Some 0) (Some 0) (Some 0) None None.

Definition demoDB (sessions : gmap string AnonymousSession) (credits : Z) : DB unit Z :=
  mkDB unit Z ∅ sessions [demoScopeRow] [] [] [] credits.

Definition demoContext (email : option string) : OperationContext :=
  mkOperationContext None (Some "s1") compression "jpg" (3 # 2) web None email.

Definition demoScopedCall : Call :=
  RecordScopedOperation
    (mkScopedOperationContext None (Some "s1") "main" "anonymous" compression "jpg" (3 # 2) web).

(** The call with its answer dropped. *)
Definition forget {S R} (p : prog S R) : prog S unit := bind p (fun _ => Ret tt).

(** All steps of call [i], one after the other. *)
Definition runAll (steps : nat) (i : nat) : list event := replicate steps (Run i).

(** Three calls on the session [s1], their steps interleaved: one without a
    lead-magnet address, two with an address whose credits are exhausted.
    The session has one record, all three calls return, and each counter
    ends three higher. *)
Lemma increments_not_lost_witness :
  let calls := [RecordOperation (demoContext None);
                RecordOperation (demoContext (Some "lead@example.com"));
                RecordOperation (demoContext (Some "lead@example.com"))] in
  let db := demoDB {[ "s1" := demoSession 3 2 1 1000 ]} 0 in
  let sched := [Run 0; Run 1; Run 2; Run 1; Run 0; Tick 7; Run 2; Run 2; Run 0; Run 1;
                Run 1; Run 2]%nat in
  let final := run_events
                 (mkConfig 1000 db (map (perform unit Z 0 demoSha demoPlan demoUseCredits) calls))
                 sched in
  Forall (fun call => identityOf demoSha call = Some (SessionKey "s1") /\
                      usesNoCredit Z demoUseCredits (fun credits => credits = 0) call) calls /\
  records unit Z (SessionKey "s1") db = [(3, 2, 1)] /\
  Forall (fun p => returned p <> None) (pool final) /\
  records unit Z (SessionKey "s1") (store final) = [(3 + 3, 2 + 3, 1 + 3)].
Proof.
  cbv zeta.
  set (calls := [RecordOperation (demoContext None);
                 RecordOperation (demoContext (Some "lead@example.com"));
                 RecordOperation (demoContext (Some "lead@example.com"))]).
  set (db := demoDB {[ "s1" := demoSession 3 2 1 1000 ]} 0).
  set (sched := [Run 0; Run 1; Run 2; Run 1; Run 0; Tick 7; Run 2; Run 2; Run 0; Run 1;
                 Run 1; Run 2]%nat).
  assert (Hex : exhausted Z demoUseCredits (fun credits => credits = 0) "lead@example.com")
    by (intros l ->; split; reflexivity).
  assert (H1 : Forall (fun call => identityOf demoSha call = Some (SessionKey "s1") /\
                                   usesNoCredit Z demoUseCredits (fun credits => credits = 0)
                                     call) calls).
  { apply Forall_cons_2; [split; [reflexivity | exact I]|].
    apply Forall_cons_2; [split; [reflexivity | exact Hex]|].
    apply Forall_cons_2; [split; [reflexivity | exact Hex]|]. apply Forall_nil_2. }
  assert (H2 : records unit Z (SessionKey "s1") db = [(3, 2, 1)]) by (vm_compute; reflexivity).
  assert (H3 : Forall (fun p => returned p <> None)
                 (pool (run_events
                          (mkConfig 1000 db
                             (map (perform unit Z 0 demoSha demoPlan demoUseCredits) calls))
                          sched)))
    by (vm_compute; repeat constructor; discriminate).
  split; [exact H1|]. split; [exact H2|]. split; [exact H3|].
  exact (increments_not_lost unit Z 0 demoSha demoPlan demoUseCredits
           (SessionKey "s1") calls sched 1000 db 3 2 1 (fun credits => credits = 0)
           H1 eq_refl H2 I ltac:(vm_compute; discriminate) ltac:(vm_compute; discriminate)
           ltac:(vm_compute; discriminate) I H3).
Defined.

(** A hundred calls on one scoped session that run one after the other. *)
Lemma hundred_calls :
  counters unit Z (SessionScopeKey "s1" "main")
    (store (run_events
              (mkConfig 1000 (demoDB ∅ 0)
                 (map (perform unit Z 0 demoSha demoPlan demoUseCredits)
                      (replicate 100 demoScopedCall)))
              (flat_map (runAll 3) (seq 0 100))))
  = Some (104, 102, 101).
Proof. vm_compute. reflexivity. Qed.

(** At the end of the range of the column the increment fails: the log row
    is written, the UPDATE is refused, the call throws and the counters stay
    as they are. *)
Lemma increment_at_int4Max_throws :
  let row := mkScopeCounter "s1" "main" 2147483647 2 1 (Some 0) (Some 0) (Some 0) None None in
  let db := mkDB unit Z ∅ ∅ [row] [] [] [] 0 in
  let '(_, db', r) := run_alone (perform unit Z 0 demoSha demoPlan demoUseCredits demoScopedCall)
                        1000 db in
  r = Throw "integer out of range" /\
  counters unit Z (SessionScopeKey "s1" "main") db' = Some (2147483647, 2, 1) /\
  length (operationsLog unit Z db') = 1%nat.
Proof. vm_compute. repeat split. Qed.

(** Why a registered user's calls must not straddle a window boundary:
    [getUserOperationCounts] reads the row, decides on the reset and writes
    it in separate statements.  Two calls two days after the last operation:
    when the second call's reset is written after the first call's
    increment, the daily and hourly counters end at 1, where the two calls
    one after the other leave them at 2. *)
Lemma reset_race_loses_an_increment :
  let u := mkUserRow unit "u1" tt 5 5 5 (Some 0) 0 None in
  let db := mkDB unit Z {[ "u1" := u ]} ∅ ∅ ∅ [] [] 0 in
  let call := perform unit Z 0 demoSha demoPlan demoUseCredits
                (RecordOperation
                   (mkOperationContext (Some "u1") None compression "jpg" 1 web None None)) in
  let now := 2 * 24 * 60 * 60 * 1000 + 1000 in
  let racy := ([Run 1] ++ runAll 8 0 ++ runAll 7 1)%nat%list in
  let serial := (runAll 8 0 ++ runAll 7 1)%list in
  counters unit Z (UserKey "u1") (store (run_events (mkConfig now db [call; call]) racy))
    = Some (7, 1, 1) /\
  counters unit Z (UserKey "u1") (store (run_events (mkConfig now db [call; call]) serial))
    = Some (7, 2, 2) /\
  Forall (fun p => returned p = Some (Ok tt))
         (pool (run_events (mkConfig now db [call; call]) racy)).
Proof. vm_compute. repeat split; repeat constructor. Qed.

(** C1 as stated fails: a call that uses a lead-magnet credit returns
    without touching the three counters of its session. *)
Lemma recordOperation_lead_magnet_adds_nothing :
  let db := demoDB {[ "s1" := demoSession 3 2 1 1000 ]} 5 in
  let call := recordOperation unit Z 0 demoSha demoPlan demoUseCredits
                (demoContext (Some "lead@example.com")) in
  counters unit Z (SessionKey "s1") db = Some (3, 2, 1) /\
  snd (run_alone call 1000 db) = Ok tt /\
  counters unit Z (SessionKey "s1") (snd (fst (run_alone call 1000 db))) = Some (3, 2, 1) /\
  counters unit Z (SessionKey "s1") (snd (fst (run_alone call 1000 db)))
    <> Some (3 + 1, 2 + 1, 1 + 1).
Proof. vm_compute. repeat split; discriminate. Qed.

(** C2 fails for [UsageTracker.checkLimit].  The plan has the limits of
    the specification's example, 10 a month, 5 a day and 2 an hour, and the
    caller's usage record shows 9 compressions, one of them today.  The
    request of the example, 2 operations, is allowed; so is a request of 3
    operations, more than the hourly window holds, and one of 10, more than
    the daily window holds; only a request of more than 10 operations is
    refused.  No window is named, and [remaining] is NaN. *)
Theorem checkLimit_allows_what_the_windows_forbid :
  let record := mkUsageTracking None (Some "fp") 9 0 1 0 0 (Some 1000) None in
  let db := mkDB unit Z ∅ ∅ ∅ ∅ [] [record] 0 in
  let check := fun operationCount =>
    snd (run_alone (checkLimit unit Z 0 exampleLimits None "fp" operationCount) 2000 db) in
  let usage := mkUsageStats 9 0 1 0 1000 9000 in
  check 2 = Ok (mkCheckLimitResult true None usage) /\
  check 3 = Ok (mkCheckLimitResult true None usage) /\
  check 10 = Ok (mkCheckLimitResult true None usage) /\
  check 11 = Ok (mkCheckLimitResult false None usage).
Proof. vm_compute. repeat split. Qed.

(** C5 fails for a registered user: exactly 30 x 24 hours after the
    reference time [getUserOperationCounts] leaves [monthlyOperations] as it
    is (and moves the reference time to now), while [getAnonymousSession]
    resets the monthly counter of a session with the same timestamps. *)
Theorem user_monthly_window_not_reset_at_30_days :
  let t := 1700000000000 in
  let now := t + 30 * 24 * 60 * 60 * 1000 in
  let u := mkUserRow unit "u1" tt 7 3 1 (Some t) 0 None in
  let db := mkDB unit Z {[ "u1" := u ]} {[ "s1" := demoSession 7 3 1 t ]} ∅ ∅ [] [] 0 in
  now - t >= 30 * 24 * 60 * 60 * 1000 /\
  (exists db' u',
     run_alone (getUserOperationCounts unit Z 0 "u1") now db = (now, db', Ok (Some u')) /\
     u_monthlyOperations unit u' = 7 /\
     u_lastOperationAt unit u' = Some now) /\
  (exists db' s',
     run_alone (getAnonymousSession unit Z 0 demoSha "s1" None) now db
       = (now, db', Ok (Some s')) /\
     monthlyOperationsUsed s' = 0 /\
     currentPeriodStart s' = Some now).
Proof.
  intros t now u db.
  assert (Hu : users unit Z db !! "u1" = Some u) by (vm_compute; reflexivity).
  assert (Hs : anonymousSessions unit Z db !! "s1" = Some (demoSession 7 3 1 t))
    by (vm_compute; reflexivity).
  split; [subst now; lia|]. split.
  - destruct (user_monthly_at_30_days unit Z 0 "u1" db u t Hu eq_refl)
      as (db' & u' & Hrun & _ & Hm & Hl & _).
    exists db', u'. split; [exact Hrun|]. split; [exact Hm | exact Hl].
  - destruct (getAnonymousSession_monthly unit Z 0 demoSha "s1" None now db
                (demoSession 7 3 1 t) t Hs eq_refl) as (db' & s' & Hrun & Hdue & _).
    exists db', s'. split; [exact Hrun|].
    destruct (Hdue ltac:(subst now; unfold msPer30Days; lia)) as (H1 & H2 & _). auto.
Qed.

(** C6 fails: a reset is applied twice for one boundary, and an operation
    recorded in between is lost from the daily and the hourly counter.  The
    session [s1] has used 4, 3 and 2 operations and was last reset at 10:00
    of day 0; [look] is a call of [getAnonymousSession], [operate] one of
    [recordOperation].

    First, two calls in flight together, ten milliseconds after midnight:
    both read the row before either writes its reset, and the reset of the
    second is written after the operation: the counters end at 5, 0 and 0,
    where the same three calls one after the other leave 5, 1 and 1.

    Second, no two calls in flight together, but midnight falls between the
    [new Date()] of [now] and the one of [today] in the first call: the
    reset is stamped with [now], a time of the day before, so that the next
    call finds the daily and the hourly reset due again. *)
Theorem reset_applied_twice :
  let day := 24 * 60 * 60 * 1000 in
  let db := demoDB {[ "s1" := demoSession 4 3 2 (10 * 60 * 60 * 1000) ]} 0 in
  let look := forget (getAnonymousSession unit Z 0 demoSha "s1" None) in
  let operate := forget (recordOperation unit Z 0 demoSha demoPlan demoUseCredits
                           (demoContext None)) in
  let after := fun now sched =>
    let final := run_events (mkConfig now db [look; operate; look]) sched in
    (counters unit Z (SessionKey "s1") (store final),
     lastDailyReset <$> anonymousSessions unit Z (store final) !! "s1",
     forallb (fun p => bool_decide (returned p = Some tt)) (pool final)) in
  (* two calls of getAnonymousSession in flight together *)
  after (day + 10) ([Run 0; Run 2] ++ runAll 4 0 ++ runAll 3 1 ++ runAll 4 2)%nat%list
    = (Some (5, 0, 0), Some (Some (day + 10)), true) /\
  after (day + 10) (runAll 5 0 ++ runAll 3 1 ++ runAll 4 2)%list
    = (Some (5, 1, 1), Some (Some (day + 10)), true) /\
  (* one call after the other, midnight between two clock readings *)
  after (day - 1) ([Run 0; Run 0; Tick 1] ++ runAll 3 0)%nat%list
    = (Some (4, 0, 0), Some (Some (day - 1)), false) /\
  shouldReset 0 Daily (day - 1) (day + 9) = true /\
  after (day - 1) ([Run 0; Run 0; Tick 1] ++ runAll 3 0 ++ [Tick 4] ++ runAll 3 1
                     ++ [Tick 5] ++ runAll 5 2)%nat%list
    = (Some (5, 0, 0), Some (Some (day + 9)), true).
Proof. vm_compute. repeat split. Qed.

End Ledger.

(* ===================================================================== *)
(** * The scope middleware (server/scopeMiddleware.ts) *)
(* ===================================================================== *)

Module Scope.
Import JS Http.

(** What the middleware does with the request: it sets [req.trackingScope]
    and [req.planId] and calls [next()], or it answers with an error. *)
Inductive Outcome : Type :=
| Next (trackingScope planId : string)
| Respond (status : Z) (error : string).

(** The lines written with [console.warn] and [console.error]. *)
Inductive LogLine : Type :=
| AccessDenied (scope : string)
| UserNotFound (userId : string)
| AuthCheckFailed
| ClientOverrideIgnored (clientScope clientPlan : jsval).

(** The [switch (pageSource)] of step 1. *)
Definition scopeOfPageSource (pageSource : jsval) : string :=
  if strictEq pageSource "premium" then "pro"
  else if strictEq pageSource "enterprise" then "enterprise"
  else if strictEq pageSource "test-premium" then "test_premium"
  else if strictEq pageSource "cr2-converter" then "cr2-free"
  else if (strictEq pageSource "free" || strictEq pageSource "free-signed")%bool then "free"
  else "main".

(** The [switch (clientPlanId)] of step 1. *)
Definition scopeOfPlanId (clientPlanId : jsval) : string :=
  if strictEq clientPlanId "pro" then "pro"
  else if strictEq clientPlanId "enterprise" then "enterprise"
  else if strictEq clientPlanId "test_premium" then "test_premium"
  else if strictEq clientPlanId "cr2-free" then "cr2-free"
  else if strictEq clientPlanId "free" then "free"
  else if strictEq clientPlanId "anonymous" then "main"
  else "main".

(** Step 1: the scope the request asks for. *)
Definition requestedScope (req : Request) : string :=
  let pageIdentifier := ctx_pageIdentifier req in
  let pageScope := ctx_pageScope req in
  let pageSource := JS.or (body_pageSource req) (query_pageSource req) in
  let clientPlanId := query_planId req in
  if (truthyStr pageIdentifier && truthyStr pageScope)%bool then default "" pageScope
  else if truthy pageSource then scopeOfPageSource pageSource
  else if truthy clientPlanId then scopeOfPlanId clientPlanId
  else "main".

(** Step 2: the user id of the request, if any. *)
Definition userIdOf (req : Request) : option string :=
  let userId :=
    match isAuthenticated req, user_sub req with
    | true, Some sub => sub
    | _, _ => orStr (session_userId req) None
    end in
  if (negb (truthyStr userId) && truthyStr (session_userId req))%bool
  then session_userId req
  else userId.

(** [array.includes(s)] *)
Definition includes (l : list string) (s : string) : bool :=
  existsb (String.eqb s) l.

Definition publicScopes : list string := ["main"; "free"; "cr2-free"].

Section Middleware.

(** A row of the users table, as [storage.getUser] returns it. *)
Variable User : Type.

(** [await storage.getUser(userId)]: the user, [undefined], or an exception. *)
Inductive Lookup : Type :=
| Found (user : User)
| Missing
| StorageFailed.

Variable getUser : string -> Lookup.
(** [getUserPlan(user).id] *)
Variable getUserPlan : User -> string.

(** The security log line of lines 181-186, written when the request
    carries a scope or a plan of its own. *)
Definition overrideLog (req : Request) : list LogLine :=
  let clientScope := JS.or (query_scope req) (hdr_x_usage_scope req) in
  let clientPlan := JS.or (query_planId req) (hdr_x_plan_id req) in
  if (truthy clientScope || truthy clientPlan)%bool
  then [ClientOverrideIgnored clientScope clientPlan]
  else [].

(** [requireScopeFromAuth(req, res, next)] *)
Definition requireScopeFromAuth (req : Request) : Outcome * list LogLine :=
  let scope := requestedScope req in
  let userId := userIdOf req in
  if truthyStr userId then
    match getUser (default "" userId) with
    | Found user =>
        let planId := getUserPlan user in
        let scopeRequiresAuth := includes ["pro"; "enterprise"; "test_premium"; "free"] scope in
        if (scopeRequiresAuth && String.eqb scope "pro" && negb (String.eqb planId "pro"))%bool
        then (Respond 403 "Premium subscription required", [AccessDenied scope])
        else if (scopeRequiresAuth && String.eqb scope "enterprise"
                 && negb (String.eqb planId "enterprise"))%bool
        then (Respond 403 "Enterprise subscription required", [AccessDenied scope])
        else if (scopeRequiresAuth && String.eqb scope "test_premium"
                 && negb (String.eqb planId "test_premium"))%bool
        then (Respond 403 "Test premium subscription required", [AccessDenied scope])
        else (Next scope planId, overrideLog req)
    | Missing =>
        if includes ["premium"; "enterprise"; "test_premium"] scope
        then (Respond 403 "Authentication required", [UserNotFound (default "" userId)])
        else (Next scope "anonymous",
              (UserNotFound (default "" userId) :: overrideLog req)%list)
    | StorageFailed =>
        (* catch: on error, default to anonymous *)
        (Next "main" "anonymous", (AuthCheckFailed :: overrideLog req)%list)
    end
  else
    if negb (includes publicScopes scope)
    then (Respond 403 "Authentication required", [AccessDenied scope])
    else (Next scope (if String.eqb scope "cr2-free" then "cr2-free" else "anonymous"),
          overrideLog req).

(** [getSessionIdFromRequest(req)] *)
Definition getSessionIdFromRequest (req : Request) : string :=
  let clientSessionId := JS.or (hdr_x_session_id req) (body_clientSessionId req) in
  if (truthy clientSessionId && isStringStartingWith "mj_client_" clientSessionId)%bool
  then asString clientSessionId
  else if truthyStr (session_id req) then default "" (session_id req)
  else "fallback_session".

(** ** Vocabulary of the statements *)

(** The request with other values in its headers. *)
Definition withHeaders (xSessionId : jsval) (userAgent : option string)
  (xUsageScope xPlanId : jsval) (req : Request) : Request :=
  mkRequest (path req) xSessionId userAgent xUsageScope xPlanId
    (body_clientSessionId req) (body_pageSource req) (query_pageSource req)
    (query_planId req) (query_scope req) (ctx_pageIdentifier req) (ctx_pageScope req)
    (ip req) (remoteAddress req) (isAuthenticated req) (user_sub req)
    (session_userId req) (session_id req).

(** The request with another [planId] query parameter. *)
Definition withQueryPlanId (planId : jsval) (req : Request) : Request :=
  mkRequest (path req) (hdr_x_session_id req) (hdr_user_agent req)
    (hdr_x_usage_scope req) (hdr_x_plan_id req)
    (body_clientSessionId req) (body_pageSource req) (query_pageSource req)
    planId (query_scope req) (ctx_pageIdentifier req) (ctx_pageScope req)
    (ip req) (remoteAddress req) (isAuthenticated req) (user_sub req)
    (session_userId req) (session_id req).

(** The request with another [scope] query parameter. *)
Definition withQueryScope (scope : jsval) (req : Request) : Request :=
  mkRequest (path req) (hdr_x_session_id req) (hdr_user_agent req)
    (hdr_x_usage_scope req) (hdr_x_plan_id req)
    (body_clientSessionId req) (body_pageSource req) (query_pageSource req)
    (query_planId req) scope (ctx_pageIdentifier req) (ctx_pageScope req)
    (ip req) (remoteAddress req) (isAuthenticated req) (user_sub req)
    (session_userId req) (session_id req).

(** ** Properties *)

(** Neither the headers nor the [scope] query parameter take part in the
    resolution; they only show in the security log line. *)
Lemma requireScopeFromAuth_ignores_headers req xSessionId userAgent xUsageScope xPlanId scope :
  fst (requireScopeFromAuth
         (withQueryScope scope (withHeaders xSessionId userAgent xUsageScope xPlanId req)))
  = fst (requireScopeFromAuth req).
Proof.
  set (req' := withQueryScope scope (withHeaders xSessionId userAgent xUsageScope xPlanId req)).
  assert (Hs : requestedScope req' = requestedScope req) by reflexivity.
  assert (Hu : userIdOf req' = userIdOf req) by reflexivity.
  unfold requireScopeFromAuth. rewrite Hs, Hu.
  destruct (truthyStr (userIdOf req)).
  - destruct (getUser (default "" (userIdOf req))) as [user| |]; [| |reflexivity].
    + repeat (match goal with |- context [if ?b then _ else _] => destruct b end;
              try reflexivity).
    + destruct (includes _ (requestedScope req)); reflexivity.
  - destruct (negb (includes publicScopes (requestedScope req))); reflexivity.
Qed.

(** C7.  A request without a user id resolves to one of the public scopes
    [main], [free], [cr2-free], the one it asked for; when it asks for any
    other scope, "enterprise" in particular, the middleware answers 403
    "Authentication required" and does not call [next()], whatever the
    headers of the request say. *)
Theorem anonymous_only_public_scopes req :
  truthyStr (userIdOf req) = false ->
  match fst (requireScopeFromAuth req) with
  | Next scope planId =>
      In scope publicScopes /\ scope = requestedScope req /\
      planId = (if String.eqb scope "cr2-free" then "cr2-free" else "anonymous")
  | Respond status error =>
      status = 403 /\ error = "Authentication required" /\
      ~ In (requestedScope req) publicScopes
  end /\
  (requestedScope req = "enterprise" ->
   forall xSessionId userAgent xUsageScope xPlanId,
     fst (requireScopeFromAuth (withHeaders xSessionId userAgent xUsageScope xPlanId req))
     = Respond 403 "Authentication required").
Proof.
  intros Hanon.
  assert (Hin : forall s, includes publicScopes s = true <-> In s publicScopes).
  { intros s. unfold includes. rewrite existsb_exists. split.
    - intros (x & Hx & Heq). apply String.eqb_eq in Heq. now subst.
    - intros Hs. exists s. split; [exact Hs | apply String.eqb_refl]. }
  split.
  - unfold requireScopeFromAuth. rewrite Hanon.
    destruct (includes publicScopes (requestedScope req)) eqn:Hpub; cbn [negb fst].
    + apply Hin in Hpub. auto.
    + repeat split. intros Hs. apply Hin in Hs. congruence.
  - intros Hent xs ua us xp. unfold requireScopeFromAuth.
    assert (Hu : userIdOf (withHeaders xs ua us xp req) = userIdOf req) by reflexivity.
    assert (Hs : requestedScope (withHeaders xs ua us xp req) = requestedScope req)
      by reflexivity.
    rewrite Hu, Hs, Hanon, Hent. reflexivity.
Qed.

(** C10 (as amended).  The client-chosen session id is the [x-session-id]
    header when that is a string beginning with [mj_client_]; the body's
    [clientSessionId] is looked at only when the header is absent or empty,
    and is then the id when it is such a string.  In every other case, also
    when the header holds some other non-empty value and the body a string
    beginning with [mj_client_], [generateAnonymousSessionId] falls back to
    [anon_] followed by 16 hex digits of the hash of IP and User-Agent, and
    [getSessionIdFromRequest] to the Express session id or
    [fallback_session]. *)
Theorem client_chosen_session_id (sha256hex : string -> string) req :
  (forall s, hdr_x_session_id req = JStr s -> String.prefix "mj_client_" s = true ->
     Ledger.generateAnonymousSessionId sha256hex req = s /\
     getSessionIdFromRequest req = s) /\
  (forall s, truthy (hdr_x_session_id req) = false ->
     body_clientSessionId req = JStr s -> String.prefix "mj_client_" s = true ->
     Ledger.generateAnonymousSessionId sha256hex req = s /\
     getSessionIdFromRequest req = s) /\
  ((truthy (hdr_x_session_id req) = true /\
    isStringStartingWith "mj_client_" (hdr_x_session_id req) = false) \/
   (truthy (hdr_x_session_id req) = false /\
    isStringStartingWith "mj_client_" (body_clientSessionId req) = false) ->
   Ledger.generateAnonymousSessionId sha256hex req
   = "anon_" ++ String.substring 0 16
       (sha256hex (orDefault (orStr (ip req) (remoteAddress req)) "unknown"
                   ++ ":" ++ orDefault (hdr_user_agent req) "unknown")) /\
   getSessionIdFromRequest req
   = (if truthyStr (session_id req) then default "" (session_id req)
      else "fallback_session")).
Proof.
  assert (Hnonempty : forall s, String.prefix "mj_client_" s = true ->
                                truthy (JStr s) = true).
  { intros [|c s] H; [discriminate | reflexivity]. }
  unfold Ledger.generateAnonymousSessionId, getSessionIdFromRequest, JS.or.
  split; [|split].
  - intros s Hh Hp. rewrite Hh, (Hnonempty s Hp). cbv iota.
    rewrite (Hnonempty s Hp). cbn. rewrite Hp. auto.
  - intros s Hh Hb Hp. rewrite Hh, Hb. cbv iota.
    rewrite (Hnonempty s Hp). cbn. rewrite Hp. auto.
  - intros [[Hh Hn] | [Hh Hn]]; rewrite Hh, Hn, andb_false_r; auto.
Qed.

End Middleware.

(** ** Concrete requests *)

(** A plain anonymous request for the main page. *)
Definition plainRequest : Request :=
  mkRequest "/api/compress" JUndefined (Some "Mozilla/5.0") JUndefined JUndefined
    JUndefined JUndefined JUndefined JUndefined JUndefined None None
    (Some "203.0.113.7") None false None None None.

Definition noUsers (userId : string) : Lookup unit := Missing unit.
Definition freePlan (u : unit) : string := "free".

(** An anonymous request that asks for the enterprise scope and claims an
    enterprise plan in its headers is refused. *)
Lemma anonymous_only_public_scopes_witness :
  truthyStr (userIdOf (withQueryPlanId (JStr "enterprise") plainRequest)) = false /\
  fst (requireScopeFromAuth unit noUsers freePlan
         (withHeaders JUndefined None (JStr "enterprise") (JStr "enterprise")
            (withQueryPlanId (JStr "enterprise") plainRequest)))
  = Respond 403 "Authentication required".
Proof.
  split; [reflexivity|].
  apply (anonymous_only_public_scopes unit noUsers freePlan
           (withQueryPlanId (JStr "enterprise") plainRequest)); reflexivity.
Defined.

(** A request that presents [mj_client_42] in its header is counted under
    that very id. *)
Lemma client_chosen_session_id_witness :
  let req := withHeaders (JStr "mj_client_42") None JUndefined JUndefined plainRequest in
  Ledger.generateAnonymousSessionId (fun s => s) req = "mj_client_42" /\
  getSessionIdFromRequest req = "mj_client_42".
Proof.
  exact (proj1 (client_chosen_session_id (fun s => s)
                  (withHeaders (JStr "mj_client_42") None JUndefined JUndefined plainRequest))
               "mj_client_42" eq_refl eq_refl).
Defined.

(** C3 fails: two anonymous requests that differ in the [planId] query
    parameter alone resolve to different scopes and plans, and the log line
    of the second one reports that parameter as ignored.  The [pageSource]
    of the body selects the scope in the same way. *)
Theorem client_plan_id_selects_scope_and_plan :
  requireScopeFromAuth unit noUsers freePlan plainRequest
    = (Next "main" "anonymous", []) /\
  requireScopeFromAuth unit noUsers freePlan (withQueryPlanId (JStr "cr2-free") plainRequest)
    = (Next "cr2-free" "cr2-free",
       [ClientOverrideIgnored JUndefined (JStr "cr2-free")]) /\
  fst (requireScopeFromAuth unit noUsers freePlan
         (mkRequest "/api/compress" JUndefined (Some "Mozilla/5.0") JUndefined JUndefined
            JUndefined (JStr "cr2-converter") JUndefined JUndefined JUndefined None None
            (Some "203.0.113.7") None false None None None))
    = Next "cr2-free" "cr2-free".
Proof. repeat split. Qed.

(** C10 as stated fails: the body carries a string beginning with
    [mj_client_], the header some other value, and the session id is not
    the client's string. *)
Lemma body_session_id_not_used :
  let req := mkRequest "/api/compress" (JStr "abc") (Some "Mozilla/5.0") JUndefined JUndefined
               (JStr "mj_client_1") JUndefined JUndefined JUndefined JUndefined None None
               (Some "203.0.113.7") None false None None None in
  isStringStartingWith "mj_client_" (body_clientSessionId req) = true /\
  getSessionIdFromRequest req = "fallback_session" /\
  getSessionIdFromRequest req <> "mj_client_1" /\
  forall sha256hex, Ledger.generateAnonymousSessionId sha256hex req <> "mj_client_1".
Proof.
  cbv zeta. split; [reflexivity|]. split; [reflexivity|]. split; [discriminate|].
  intros sha. unfold Ledger.generateAnonymousSessionId. cbn. discriminate.
Qed.

End Scope.

(* ===================================================================== *)
(** * The result cache (attached_assets/performance-caching_1757404672749.js) *)
(* ===================================================================== *)

Module Cache.
Import JS Conc.

Notation "'await' x <- p 'in' q" := (bind p (fun x => q))
  (at level 10, x name, p at level 100, q at level 200).

(** [req.body]: the parameters of a conversion. *)
Record Params : Type := mkParams {
  format : option string;
  outputFormat : option string;
  quality : option Z;
  width : option Z;
  height : option Z;
  fileHash : option string
}.

(** [multipliers[format] || 1] *)
Definition multiplierOf (format : option string) : Q :=
  match format with
  | Some f =>
      if String.eqb f "RAW" then 4
      else if String.eqb f "AVIF" then 2
      else if String.eqb f "WEBP" then (3 # 2)
      else if String.eqb f "JPG" then 1
      else 1
  | None => 1
  end%Q.

(** [Math.floor(baseTTL * multiplier)] *)
Definition ttlFor (baseTTL : Z) (format : option string) : Z :=
  Qfloor (inject_Z baseTTL * multiplierOf format).

(** [calculateTTL(params)] *)
Definition calculateTTL (params : Params) : Z :=
  let baseTTL := 3600 in
  let format := toUpperCase <$> format params in
  ttlFor baseTTL format.

(** A JavaScript [Map] from strings: insertion order, one entry per key. *)
Fixpoint mapGet {V} (key : string) (m : list (string * V)) : option V :=
  match m with
  | [] => None
  | (k, v) :: rest => if String.eqb k key then Some v else mapGet key rest
  end.

Fixpoint mapSet {V} (key : string) (v : V) (m : list (string * V)) : list (string * V) :=
  match m with
  | [] => [(key, v)]
  | (k, v') :: rest =>
      if String.eqb k key then (k, v) :: rest else (k, v') :: mapSet key v rest
  end.

Section Optimizer.

(** A result of [processFunction], as JSON stores and restores it. *)
Variable Payload : Type.
(** What [processFunction] works on besides the cache. *)
Variable Ext : Type.
(** [crypto.createHash('md5').update(s).digest('hex')] *)
Variable md5hex : string -> string.
(** [JSON.stringify(keyData)] *)
Variable stringifyKeyData : Params -> string.
(** [new Date().toISOString().split('T')[0]] *)
Variable isoDate : Z -> string.

(** What a Redis key holds. *)
Inductive RedisValue : Type :=
| RString (s : string)
| RJson (p : Payload)
| RHash (fields : gmap string Z).

Record RedisEntry : Type := mkRedisEntry {
  value : RedisValue;
  expireAt : option Z   (* in milliseconds *)
}.

Record Metrics : Type := mkMetrics {
  cacheHits : Z;
  cacheMisses : Z;
  requestCount : Z
}.

(** The optimizer's own fields, the Redis server, and the world of
    [processFunction].  The running average of [metrics] is left out. *)
Record State : Type := mkState {
  cache : list (string * Payload);
  redis : gmap string RedisEntry;
  metrics : Metrics;
  ext : Ext
}.

Definition with_cache (f : list (string * Payload) -> list (string * Payload)) (s : State) :=
  mkState (f (cache s)) (redis s) (metrics s) (ext s).
Definition with_redis (f : gmap string RedisEntry -> gmap string RedisEntry) (s : State) :=
  mkState (cache s) (f (redis s)) (metrics s) (ext s).
Definition with_metrics (f : Metrics -> Metrics) (s : State) :=
  mkState (cache s) (redis s) (f (metrics s)) (ext s).
Definition with_ext (f : Ext -> Ext) (s : State) :=
  mkState (cache s) (redis s) (metrics s) (f (ext s)).

(** The entry of a key that has not expired. *)
Definition live (now : Z) (r : gmap string RedisEntry) (key : string) : option RedisValue :=
  match r !! key with
  | Some e =>
      match expireAt e with
      | Some t => if now <? t then Some (value e) else None
      | None => Some (value e)
      end
  | None => None
  end.

(** [await this.redis.get(key)] *)
Definition redisGet (key : string) : prog State (option RedisValue) :=
  atomic (fun now s => (s, live now (redis s) key)).

(** [await this.redis.setex(key, seconds, v)] *)
Definition redisSetex (key : string) (seconds : Z) (v : RedisValue) : prog State unit :=
  atomic (fun now s =>
    (with_redis (insert key (mkRedisEntry v (Some (now + seconds * 1000)))) s, tt)).

(** [await this.redis.del(key)] *)
Definition redisDel (key : string) : prog State unit :=
  atomic (fun _ s => (with_redis (delete key) s, tt)).

(** [await this.redis.expire(key, seconds)] *)
Definition redisExpire (key : string) (seconds : Z) : prog State unit :=
  atomic (fun now s =>
    match live now (redis s) key with
    | Some v => (with_redis (insert key (mkRedisEntry v (Some (now + seconds * 1000)))) s, tt)
    | None => (s, tt)
    end).

(** [await this.redis.hincrby(key, field, n)] *)
Definition redisHincrby (key field : string) (n : Z) : prog State unit :=
  atomic (fun now s =>
    let fields := match live now (redis s) key with
                  | Some (RHash h) => h
                  | _ => ∅
                  end in
    let keep := match redis s !! key with
                | Some e => match live now (redis s) key with
                            | Some _ => expireAt e
                            | None => None
                            end
                | None => None
                end in
    (with_redis
       (insert key (mkRedisEntry
                      (RHash (<[field := default 0 (fields !! field) + n]> fields)) keep)) s,
     tt)).

(** Code between two awaits. *)
Definition sync (f : State -> State) : prog State unit :=
  atomic (fun _ s => (f s, tt)).

(** [generateCacheKey(params)] *)
Definition generateCacheKey (params : Params) : string :=
  let keyData := mkParams (format params) (outputFormat params) (quality params)
                   (width params) (height params)
                   (if truthyStr (fileHash params) then fileHash params else None) in
  md5hex (stringifyKeyData keyData).

(** [checkCache(key)] *)
Definition checkCache (key : string) : prog State (option Payload) :=
  await l1 <- atomic (fun _ s => (s, mapGet key (cache s))) in
  match l1 with
  | Some data => Ret (Some data)
  | None =>
      await redisResult <- redisGet ("cache:" ++ key) in
      match redisResult with
      | Some (RJson data) =>
          await _ <- sync (with_cache (mapSet key data)) in
          Ret (Some data)
      | _ => Ret None
      end
  end.

(** [logCacheMetrics(key, params)] *)
Definition logCacheMetrics (key : string) (params : Params) : prog State unit :=
  await date <- atomic (fun now s => (s, isoDate now)) in
  await _ <- redisHincrby ("metrics:" ++ date) "cache_saves" 1 in
  redisHincrby ("metrics:" ++ date) ("format:" ++ default "undefined" (format params)) 1.

(** [cacheResult(key, result, params)] *)
Definition cacheResult (key : string) (result : Payload) (params : Params)
  : prog State unit :=
  let ttl := calculateTTL params in
  await _ <- redisSetex ("cache:" ++ key) ttl (RJson result) in
  await _ <- sync (with_cache (fun c =>
                     let c' := mapSet key result c in
                     if 1000 <? Z.of_nat (length c') then tl c' else c')) in
  logCacheMetrics key params.

(** [checkInProgress(key)], as a condition. *)
Definition checkInProgress (key : string) : prog State bool :=
  await v <- redisGet ("progress:" ++ key) in
  Ret (match v with
       | Some (RString s) => negb (String.eqb s "")
       | Some _ => true
       | None => false
       end).

(** [markInProgress(key)] *)
Definition markInProgress (key : string) : prog State unit :=
  redisSetex ("progress:" ++ key) 60 (RString "processing").

(** [clearInProgress(key)] *)
Definition clearInProgress (key : string) : prog State unit :=
  redisDel ("progress:" ++ key).

(** [touchCache(key)] *)
Definition touchCache (key : string) : prog State unit :=
  redisExpire ("cache:" ++ key) 3600.

(** How the polling loop of [waitForResult] ends. *)
Inductive Waited : Type :=
| Got (data : Payload)    (* the result has appeared in the cache *)
| Gone                    (* the marker has disappeared *)
| TimedOut                (* the loop condition has failed *)
| OutOfFuel.

(** The [while] loop of [waitForResult], unrolled at most [fuel] times. *)
Fixpoint waitLoop (fuel : nat) (key : string) (startTime timeout : Z) : prog State Waited :=
  await now <- readClock in
  if now - startTime <? timeout then
    match fuel with
    | O => Ret OutOfFuel
    | S fuel' =>
        await cached <- checkCache key in
        match cached with
        | Some data => Ret (Got data)
        | None =>
            await inProgress <- checkInProgress key in
            if negb inProgress then Ret Gone
            else
              await _ <- sleep 500 in
              waitLoop fuel' key startTime timeout
        end
    end
  else Ret TimedOut.

(** [waitForResult(key, timeout)]: every round sleeps 500 ms, so
    [timeout / 500 + 1] rounds are enough. *)
Definition waitForResult (key : string) (timeout : Z) : prog State (option Payload) :=
  await startTime <- readClock in
  await waited <- waitLoop (Z.to_nat (timeout / 500 + 1)) key startTime timeout in
  Ret (match waited with
       | Got data => Some data
       | _ => None
       end).

(** [res.json({...result, cached, processingTime})]; a result that was
    waited for is sent as it is, without the [cached] field. *)
Inductive Response : Type :=
| Json (payload : Payload) (cached : option bool).

(** [getCachedOrProcess(req, res, processFunction)].  [processFunction]
    works on its own world and answers with a result or an exception. *)
Definition getCachedOrProcess (body : Params)
  (processFunction : Params -> Z -> Ext -> Ext * result Payload)
  : prog State (result Response) :=
  let cacheKey := generateCacheKey body in
  await cached <- checkCache cacheKey in
  match cached with
  | Some data =>
      await _ <- sync (with_metrics (fun m =>
                         mkMetrics (cacheHits m + 1) (cacheMisses m) (requestCount m + 1))) in
      await _ <- touchCache cacheKey in
      Ret (Ok (Json data (Some true)))
  | None =>
      await _ <- sync (with_metrics (fun m =>
                         mkMetrics (cacheHits m) (cacheMisses m + 1) (requestCount m))) in
      await inProgress <- checkInProgress cacheKey in
      await waited <- (if inProgress : bool then waitForResult cacheKey 30000
                       else Ret None) in
      match waited with
      | Some result => Ret (Ok (Json result None))
      | None =>
          await _ <- markInProgress cacheKey in
          await outcome <- atomic (fun now s =>
                             let (e, r) := processFunction body now (ext s) in
                             (with_ext (fun _ => e) s, r)) in
          match outcome with
          | Ok result =>
              await _ <- cacheResult cacheKey result body in
              await _ <- clearInProgress cacheKey in
              await _ <- sync (with_metrics (fun m =>
                                 mkMetrics (cacheHits m) (cacheMisses m)
                                           (requestCount m + 1))) in
              Ret (Ok (Json result (Some false)))
          | Throw error =>
              await _ <- clearInProgress cacheKey in
              Ret (Throw error)
          end
      end
  end.

(** ** Vocabulary of the statements *)

(** Between [s] and [s'] no cache tier has been written: the in-memory map
    is the same and Redis differs at most at the in-flight marker of [key]. *)
Definition cachesUntouched (key : string) (s s' : State) : Prop :=
  cache s' = cache s /\
  forall k, k <> "progress:" ++ key -> redis s' !! k = redis s !! k.

(** ** Properties *)

Lemma cachesUntouched_refl key s : cachesUntouched key s s.
Proof. split; auto. Qed.

(** A miss of [checkCache] leaves the state as it was. *)
Lemma wp_checkCache_miss key now s :
  wp (checkCache key) (fun _ s' r => r = None -> s' = s) now s.
Proof.
  unfold checkCache, redisGet, sync, atomic. cbn [bind wp].
  intros now1 _. destruct (mapGet key (cache s)) as [data|]; cbn [bind wp].
  - discriminate.
  - intros now2 _. destruct (live now2 (redis s) ("cache:" ++ key)) as [[x|data|h]|];
      cbn [bind wp]; auto.
    intros now3 _. discriminate.
Qed.

(** The polling loop leaves the state as it was unless it finds the
    result, and does not run out of fuel. *)
Lemma wp_waitLoop key startTime timeout fuel : forall now s,
  timeout <= now - startTime + 500 * Z.of_nat fuel ->
  wp (waitLoop fuel key startTime timeout)
     (fun _ s' w => w <> OutOfFuel /\ ((forall data, w <> Got data) -> s' = s)) now s.
Proof.
  induction fuel as [|fuel IH]; intros now s Hfuel; cbn [waitLoop readClock bind wp].
  - intros now1 Hle. destruct (Z.ltb_spec (now1 - startTime) timeout); cbn [wp].
    + lia.
    + split; [discriminate | auto].
  - intros now1 Hle. destruct (Z.ltb_spec (now1 - startTime) timeout); cbn [wp].
    + apply wp_bind.
      eapply wp_mono; [|apply wp_clock, (wp_checkCache_miss key now1 s)].
      intros now2 s2 [data|] [Hle2 Hs]; cbn [wp].
      * split; [discriminate|]. intros Hn. exfalso. apply (Hn data). reflexivity.
      * specialize (Hs eq_refl). subst s2.
        unfold checkInProgress, redisGet, sleep, atomic. cbn [bind wp].
        intros now3 Hle3.
        destruct (negb match live now3 (redis s) ("progress:" ++ key) with
                       | Some (RString s0) => negb (s0 =? "")%string
                       | Some _ => true
                       | None => false
                       end); cbn [bind wp].
        -- split; [discriminate | auto].
        -- intros now4 Hle4 now5 Hle5 Hwake. apply IH. lia.
    + split; [discriminate | auto].
Qed.

Lemma wp_waitForResult key now s :
  wp (waitForResult key 30000) (fun _ s' r => r = None -> s' = s) now s.
Proof.
  unfold waitForResult, readClock. cbn [bind wp]. intros now1 Hle.
  apply wp_bind.
  eapply wp_mono; [|apply (wp_waitLoop key now1 30000 _ now1 s)].
  - intros now2 s2 w [_ Hw]. cbn [wp]. intros Hnone. apply Hw.
    intros data ->. discriminate.
  - change (Z.to_nat (30000 / 500 + 1)) with 61%nat. lia.
Qed.

(** C8.  When [getCachedOrProcess] ends with an exception, which only a
    failing [processFunction] can cause, the in-flight marker of the key is
    gone from Redis when the exception leaves the call, and neither the
    in-memory map nor any other Redis key has been written; and a
    [processFunction] that fails on a key that is neither cached nor in
    flight makes the call end with that very exception. *)
Theorem compute_failure_clears_marker body processFunction :
  (forall now s,
     wp (getCachedOrProcess body processFunction)
        (fun _ s' r =>
           forall error, r = Throw error ->
             redis s' !! ("progress:" ++ generateCacheKey body) = None /\
             cachesUntouched (generateCacheKey body) s s')
        now s) /\
  (forall now s error,
     mapGet (generateCacheKey body) (cache s) = None ->
     live now (redis s) ("cache:" ++ generateCacheKey body) = None ->
     live now (redis s) ("progress:" ++ generateCacheKey body) = None ->
     snd (processFunction body now (ext s)) = Throw error ->
     let '(_, s', r) := run_alone (getCachedOrProcess body processFunction) now s in
     r = Throw error /\
     redis s' !! ("progress:" ++ generateCacheKey body) = None /\
     cachesUntouched (generateCacheKey body) s s').
Proof.
  split.
  - intros now s. unfold getCachedOrProcess. cbv zeta.
    set (key := generateCacheKey body).
    apply wp_bind. eapply wp_mono; [|apply (wp_checkCache_miss key now s)].
    intros now1 s1 [data|] Hs.
    + eapply wp_mono; [|apply ends_wp with (P := fun r => exists resp, r = Ok resp)].
      * cbn. intros ? ? ? [resp ->] ? ?. discriminate.
      * repeat (apply ends_bind; intros ?). cbn. eauto.
    + specialize (Hs eq_refl). subst s1.
      unfold sync at 1. unfold atomic at 1. cbn [bind wp]. intros now2 _.
      set (s2 := with_metrics _ s).
      assert (H2 : cache s2 = cache s /\ redis s2 = redis s) by (split; reflexivity).
      clearbody s2.
      unfold checkInProgress, redisGet, atomic. cbn [bind wp]. intros now3 _.
      apply wp_bind.
      eapply wp_mono with (Q := fun _ s' r => r = None -> s' = s2).
      2:{ destruct (match live now3 (redis s2) ("progress:" ++ key) with
                    | Some (RString s0) => negb (s0 =? "")%string
                    | Some _ => true
                    | None => false
                    end); [apply wp_waitForResult | cbn [wp]; auto]. }
      intros now4 s4 [result|] Hs4; cbn [wp].
      * intros ? ?. discriminate.
      * specialize (Hs4 eq_refl). subst s4.
        unfold markInProgress, redisSetex, atomic. cbn [bind wp]. intros now5 _ now6 _.
        destruct (processFunction body now6 (ext _)) as [e [result|error]] eqn:Hp;
          cbn [bind wp].
        -- eapply wp_mono; [|apply ends_wp with (P := fun r => exists resp, r = Ok resp)].
           ++ cbn. intros ? ? ? [resp ->] ? ?. discriminate.
           ++ repeat (apply ends_bind; intros ?). cbn. eauto.
        -- unfold clearInProgress, redisDel, atomic. cbn [bind wp]. intros now7 _.
           intros error' _. destruct H2 as [Hc Hr]. split.
           ++ cbn. apply lookup_delete_eq.
           ++ split; [cbn; exact Hc|]. intros k Hk. cbn.
              rewrite lookup_delete_ne, lookup_insert_ne by congruence.
              now rewrite Hr.
  - intros now s error Hl1 Hl2 Hmark Hfail.
    unfold getCachedOrProcess, checkCache, checkInProgress, markInProgress,
      clearInProgress, redisGet, redisSetex, redisDel, sync, atomic.
    cbn [bind run_alone]. rewrite Hl1. cbn [bind run_alone]. rewrite Hl2.
    cbn [bind run_alone redis with_metrics]. rewrite Hmark. cbn [bind run_alone].
    cbn [ext with_redis with_metrics].
    destruct (processFunction body now (ext s)) as [e r]. cbn [snd] in Hfail. subst r.
    cbn [bind run_alone]. split; [reflexivity|]. split.
    + cbn. apply lookup_delete_eq.
    + split; [reflexivity|]. intros k Hk. cbn.
      rewrite lookup_delete_ne, lookup_insert_ne by congruence. reflexivity.
Qed.

(** For formats given by the keys of the multiplier table: with the base
    TTL of the code, results whose format is the label RAW, AVIF, WEBP or
    JPG (in any letter case; JPEG counts as JPG) get TTLs of 14400, 7200,
    5400 and 3600 seconds. *)
Theorem ttl_order raw avif webp jpeg :
  toUpperCase <$> format raw = Some "RAW" ->
  toUpperCase <$> format avif = Some "AVIF" ->
  toUpperCase <$> format webp = Some "WEBP" ->
  (toUpperCase <$> format jpeg = Some "JPG" \/ toUpperCase <$> format jpeg = Some "JPEG") ->
  calculateTTL raw = 14400 /\ calculateTTL avif = 7200 /\
  calculateTTL webp = 5400 /\ calculateTTL jpeg = 3600 /\
  calculateTTL jpeg < calculateTTL webp /\
  calculateTTL webp < calculateTTL avif /\
  calculateTTL avif < calculateTTL raw /\
  calculateTTL jpeg < calculateTTL raw.
Proof.
  intros Hr Ha Hw Hj.
  assert (H1 : calculateTTL raw = 14400) by (unfold calculateTTL; rewrite Hr; reflexivity).
  assert (H2 : calculateTTL avif = 7200) by (unfold calculateTTL; rewrite Ha; reflexivity).
  assert (H3 : calculateTTL webp = 5400) by (unfold calculateTTL; rewrite Hw; reflexivity).
  assert (H4 : calculateTTL jpeg = 3600)
    by (unfold calculateTTL; destruct Hj as [-> | ->]; reflexivity).
  rewrite H1, H2, H3, H4. repeat split; lia.
Qed.

(** The order does not depend on the base TTL, as long as it is at least
    two seconds (with a base of one second WebP and JPEG get the same TTL). *)
Lemma ttlFor_order baseTTL :
  2 <= baseTTL ->
  ttlFor baseTTL (Some "JPG") < ttlFor baseTTL (Some "WEBP") /\
  ttlFor baseTTL (Some "WEBP") < ttlFor baseTTL (Some "AVIF") /\
  ttlFor baseTTL (Some "AVIF") < ttlFor baseTTL (Some "RAW").
Proof.
  intros Hb. unfold ttlFor. cbn [multiplierOf String.eqb Ascii.eqb Bool.eqb].
  cbn. change (Z.pos (1 * 1)) with 1. change (Z.pos (1 * 2)) with 2.
  rewrite !Z.div_1_r.
  pose proof (Z.div_mod (baseTTL * 3) 2 ltac:(lia)).
  pose proof (Z.mod_pos_bound (baseTTL * 3) 2 ltac:(lia)). lia.
Qed.

End Optimizer.

(** ** Concrete runs *)

Definition demoParams (fmt : string) : Params :=
  mkParams (Some fmt) (Some "webp") (Some 80) (Some 100) (Some 200) None.

(** Formats written in lower and mixed case. *)
Lemma ttl_order_witness :
  toUpperCase <$> format (demoParams "raw") = Some "RAW" /\
  toUpperCase <$> format (demoParams "Avif") = Some "AVIF" /\
  toUpperCase <$> format (demoParams "webp") = Some "WEBP" /\
  toUpperCase <$> format (demoParams "jpeg") = Some "JPEG" /\
  calculateTTL (demoParams "jpeg") < calculateTTL (demoParams "webp") /\
  calculateTTL (demoParams "webp") < calculateTTL (demoParams "Avif") /\
  calculateTTL (demoParams "Avif") < calculateTTL (demoParams "raw").
Proof.
  destruct (ttl_order (demoParams "raw") (demoParams "Avif") (demoParams "webp")
              (demoParams "jpeg") eq_refl eq_refl eq_refl (or_intror eq_refl))
    as (_ & _ & _ & _ & H1 & H2 & H3 & _).
  repeat split; assumption.
Defined.

(** A camera-raw extension is not a key of the multiplier table: a file
    whose format is given as CR2 gets the base TTL, the same as a JPEG. *)
Lemma ttl_of_cr2 : calculateTTL (demoParams "cr2") = calculateTTL (demoParams "jpg").
Proof. reflexivity. Qed.

(** The extensions by which the repository recognises a camera-raw file
    ([rawFormats] of the processing endpoint). *)
Definition rawFormats : list string :=
  ["ARW"; "CR2"; "CR3"; "DNG"; "NEF"; "ORF"; "RW2"; "RAF"].

(** C9 fails for camera-raw files as the repository names them.
    [calculateTTL] looks the upper-cased format up under the key RAW, which
    no camera-raw extension is: every format of [rawFormats], in upper or
    lower case and whatever the other parameters, gets 3600 seconds, the TTL
    of a JPEG, and not the 14400 seconds of the table's RAW entry.  The TTL
    of a CR2 result is not greater than that of a JPEG result, and it is
    less than the TTLs of AVIF and WebP results. *)
Theorem raw_extension_gets_the_jpeg_ttl :
  Forall (fun ext => forall output quality width height file,
            calculateTTL (mkParams (Some ext) output quality width height file) = 3600)
         (rawFormats ++ ["arw"; "cr2"; "cr3"; "dng"; "nef"; "orf"; "rw2"; "raf"]) /\
  Forall (fun jpeg => forall output quality width height file,
            calculateTTL (mkParams (Some jpeg) output quality width height file) = 3600)
         ["jpg"; "JPG"; "jpeg"; "JPEG"] /\
  ~ calculateTTL (demoParams "jpeg") < calculateTTL (demoParams "CR2") /\
  calculateTTL (demoParams "CR2") < calculateTTL (demoParams "webp") /\
  calculateTTL (demoParams "CR2") < calculateTTL (demoParams "avif") /\
  calculateTTL (demoParams "RAW") = 14400.
Proof.
  split; [|split].
  - repeat (apply Forall_cons_2; [intros; reflexivity|]). apply Forall_nil_2.
  - repeat (apply Forall_cons_2; [intros; reflexivity|]). apply Forall_nil_2.
  - vm_compute. repeat split; discriminate.
Qed.

(** A compute function that counts its invocations and answers with the
    number of the invocation. *)
Definition countingProcess (body : Params) (now : Z) (calls : nat) : nat * result nat :=
  (S calls, Ok calls).

Definition demoKey (p : Params) : string := "k".
Definition demoHash (s : string) : string := s.
Definition demoDate (now : Z) : string := "1970-01-01".

Definition emptyState : State nat nat :=
  mkState nat nat [] ∅ (mkMetrics 0 0 0) 0%nat.

(** A compute function that fails. *)
Definition failingProcess (body : Params) (now : Z) (calls : nat) : nat * result nat :=
  (S calls, Throw "conversion failed").

(** A failing computation on an empty cache: the exception comes out, no
    marker is left and nothing has been cached; a later call for the same
    key computes again. *)
Lemma compute_failure_clears_marker_witness :
  (let '(_, s', r) :=
     run_alone (getCachedOrProcess nat nat demoHash demoKey demoDate
                  (demoParams "jpg") failingProcess) 0 emptyState in
   r = Throw "conversion failed" /\
   redis nat nat s'
     !! ("progress:" ++ generateCacheKey demoHash demoKey (demoParams "jpg")) = None /\
   cachesUntouched nat nat (generateCacheKey demoHash demoKey (demoParams "jpg"))
     emptyState s') /\
  snd (run_alone (getCachedOrProcess nat nat demoHash demoKey demoDate
                    (demoParams "jpg") countingProcess) 1000
         (snd (fst (run_alone (getCachedOrProcess nat nat demoHash demoKey demoDate
                                 (demoParams "jpg") failingProcess) 0 emptyState))))
    = Ok (Json nat 1%nat (Some false)).
Proof.
  split.
  - exact (proj2 (compute_failure_clears_marker nat nat demoHash demoKey demoDate
                    (demoParams "jpg") failingProcess)
                 0 emptyState "conversion failed" eq_refl eq_refl eq_refl eq_refl).
  - vm_compute. reflexivity.
Defined.

(** Both calls take one step in turn. *)
Fixpoint roundRobin (rounds : nat) : list event :=
  match rounds with
  | O => []
  | S n => Run 0%nat :: Run 1%nat :: roundRobin n
  end.

(** C4 fails: two concurrent calls with the same fingerprint that take
    their steps in turn both find no marker, both set it and both invoke
    the compute function; they return different results. *)
Theorem two_calls_compute_twice :
  let call := getCachedOrProcess nat nat demoHash demoKey demoDate
                (demoParams "jpg") countingProcess in
  let final := run_events (mkConfig 0 emptyState [call; call]) (roundRobin 13) in
  pool final = [Ret (Ok (Json nat 0%nat (Some false)));
                Ret (Ok (Json nat 1%nat (Some false)))] /\
  ext nat nat (store final) = 2%nat.
Proof. vm_compute. split; reflexivity. Qed.

End Cache.

(* ===================================================================== *)
(** * The scoped counters (shared/schema.ts, class ScopedOperationCounter) *)
(* ===================================================================== *)

Module ScopedCounter.
Import JS Clock Conc Http Ledger.

Notation "'await' x <- p 'in' q" := (bind p (fun x => q))
  (at level 10, x name, p at level 100, q at level 200).
Notation "'awaitOk' x <- p 'in' q" := (bindE p (fun x => q))
  (at level 10, x name, p at level 100, q at level 200).

(** What [getRouteScope] returns. *)
Record RouteScope : Type := mkRouteScope {
  scope : string;
  planId : string
}.

(** [pathname] is one of the labels of a group of [case]s. *)
Definition oneOf (labels : list string) (pathname : string) : bool :=
  existsb (String.eqb pathname) labels.

(** [ScopedOperationCounter.getRouteScope(pathname)]: a [switch] on the
    exact path, its [default] looking at two prefixes. *)
Definition getRouteScope (pathname : string) : RouteScope :=
  if oneOf ["/"; "/landing"; "/landing-new"; "/landing-simple"; "/micro-jpeg-landing"]
       pathname
  then mkRouteScope "main" "anonymous"
  else if oneOf ["/compress-free"; "/free-signed-compress"] pathname
  then mkRouteScope "free" "free"
  else if oneOf ["/test-premium"; "/test-premium-compress"] pathname
  then mkRouteScope "test_premium" "test_premium"
  else if oneOf ["/compress-premium"; "/premium-compress"] pathname
  then mkRouteScope "pro" "pro"
  else if oneOf ["/compress-enterprise"; "/enterprise-compress"] pathname
  then mkRouteScope "enterprise" "enterprise"
  else if oneOf ["/convert/cr2-to-jpg"; "/convert/cr2-to-png"; "/cr2-converter"] pathname
  then mkRouteScope "cr2-free" "cr2-free"
  else if oneOf ["/convert-cr2-to-jpg"] pathname
  then mkRouteScope "cr2-free" "cr2-free"
  else if oneOf ["/compress-raw-files"] pathname
  then mkRouteScope "raw_converter" "cr2-free"
  else if oneOf ["/web-compress"; "/web/compress"; "/web-convert"; "/web/convert";
                 "/web-overview"; "/web/overview"] pathname
  then mkRouteScope "web_tools" "anonymous"
  else if oneOf ["/bulk-image-compression"] pathname
  then mkRouteScope "bulk" "pro"
  else if oneOf ["/api-docs"; "/api-demo"; "/api-dashboard"; "/image-api-developers"]
            pathname
  then mkRouteScope "api" "anonymous"
  else if oneOf ["/dashboard"; "/profile"] pathname
  then mkRouteScope "user_account" "free"
  else if oneOf ["/subscribe"; "/simple-pricing"; "/subscription-success";
                 "/razorpay-checkout"; "/purchase-flow"] pathname
  then mkRouteScope "payment" "anonymous"
  else if oneOf ["/login"; "/signup"; "/email-verification"] pathname
  then mkRouteScope "auth" "anonymous"
  else if oneOf ["/wordpress-details"; "/wordpress-image-plugin";
                 "/wordpress-installation"; "/wordpress-development"] pathname
  then mkRouteScope "wordpress" "anonymous"
  else if oneOf ["/about"; "/contact"; "/support"; "/features"; "/blog";
                 "/terms-of-service"; "/privacy-policy"; "/cookie-policy";
                 "/cancellation-policy"; "/payment-protection"] pathname
  then mkRouteScope "content" "anonymous"
  else if String.prefix "/blog/" pathname then mkRouteScope "content" "anonymous"
  else if String.prefix "/api/" pathname then mkRouteScope "api" "anonymous"
  else mkRouteScope "main" "anonymous".

(** A plan of the static plan table of server/unifiedPlanConfig.ts. *)
Record Plan : Type := mkPlan {
  p_id : string;
  p_displayName : string;
  p_limits : Limits
}.

(** The plans that are paid for. *)
Definition paidPlan (planId : string) : bool :=
  oneOf ["pro"; "enterprise"; "test_premium"] planId.

(** The routes that [getRouteScope] maps to a paid plan. *)
Definition paidRoutes : list string :=
  ["/test-premium"; "/test-premium-compress"; "/compress-premium"; "/premium-compress";
   "/compress-enterprise"; "/enterprise-compress"; "/bulk-image-compression"].

(** Every label of the [switch], in the order of the source. *)
Definition routeLabels : list string :=
  ["/"; "/landing"; "/landing-new"; "/landing-simple"; "/micro-jpeg-landing";
   "/compress-free"; "/free-signed-compress";
   "/test-premium"; "/test-premium-compress";
   "/compress-premium"; "/premium-compress";
   "/compress-enterprise"; "/enterprise-compress";
   "/convert/cr2-to-jpg"; "/convert/cr2-to-png"; "/cr2-converter";
   "/convert-cr2-to-jpg";
   "/compress-raw-files";
   "/web-compress"; "/web/compress"; "/web-convert"; "/web/convert";
   "/web-overview"; "/web/overview";
   "/bulk-image-compression";
   "/api-docs"; "/api-demo"; "/api-dashboard"; "/image-api-developers";
   "/dashboard"; "/profile";
   "/subscribe"; "/simple-pricing"; "/subscription-success"; "/razorpay-checkout";
   "/purchase-flow";
   "/login"; "/signup"; "/email-verification";
   "/wordpress-details"; "/wordpress-image-plugin"; "/wordpress-installation";
   "/wordpress-development";
   "/about"; "/contact"; "/support"; "/features"; "/blog"; "/terms-of-service";
   "/privacy-policy"; "/cookie-policy"; "/cancellation-policy"; "/payment-protection"].

#[local] Arguments users {Sub Lead} d.
#[local] Arguments anonymousSessions {Sub Lead} d.
#[local] Arguments anonymousSessionScopes {Sub Lead} d.
#[local] Arguments userScopeCounters {Sub Lead} d.
#[local] Arguments operationsLog {Sub Lead} d.
#[local] Arguments usageTracking {Sub Lead} d.
#[local] Arguments leadMagnet {Sub Lead} d.
#[local] Arguments with_anonymousSessionScopes {Sub Lead} f db.
#[local] Arguments with_userScopeCounters {Sub Lead} f db.
#[local] Arguments with_operationsLog {Sub Lead} f db.
#[local] Arguments records {Sub Lead} key db.
#[local] Arguments counters {Sub Lead} key db.
#[local] Arguments ownerKnown {Sub Lead} key db.
#[local] Arguments defined {Sub Lead A} o.
#[local] Arguments decideResets {Sub Lead} tz currentPeriodStart lastDailyReset lastHourlyReset.
#[local] Arguments recordScopedOperation {Sub Lead} context.
#[local] Arguments insertOperationLog {Sub Lead} uid sid ty fmt size itf planId scope.

#[local] Instance IdentityKey_eq_dec : EqDecision IdentityKey.
Proof. solve_decision. Defined.

(** What [getScopedUsageStats] returns. *)
Record ScopedUsageStats : Type := mkScopedUsageStats {
  st_planId : string;
  st_planName : string;
  st_scope : string;
  st_monthlyUsed : Z;
  st_monthlyLimit : option Z;
  st_dailyUsed : Z;
  st_dailyLimit : option Z;
  st_hourlyUsed : Z;
  st_hourlyLimit : option Z;
  st_isAnonymous : bool
}.

(** An UPDATE whose SET clause cannot fail: every row that the WHERE clause
    selects is replaced by what [set] makes of it. *)
Definition updateAll {A} (selects : A -> bool) (set : A -> A) (table : list A) : list A :=
  map (fun row => if selects row then set row else row) table.

(** The row after [.set(updates)]; [getScopedUserCounter] adds
    [updatedAt: now] to the SET clause. *)
Definition setScope (withUpdatedAt : bool) (updates : Updates) (row : ScopeCounter)
  : ScopeCounter :=
  mkScopeCounter (sc_owner row) (sc_scope row)
    (if up_monthly updates then 0 else monthlyUsed row)
    (if up_daily updates then 0 else dailyUsed row)
    (if up_hourly updates then 0 else hourlyUsed row)
    (if up_monthly updates then Some (up_now updates) else sc_currentPeriodStart row)
    (if up_daily updates then Some (up_now updates) else sc_lastDailyReset row)
    (if up_hourly updates then Some (up_now updates) else sc_lastHourlyReset row)
    (sc_lastOperationAt row)
    (if withUpdatedAt then Some (up_now updates) else sc_updatedAt row).

(** A row as the INSERT of a get-or-create creates it: counters at zero,
    the time stamps at the database's [now()]. *)
Definition freshRow (owner scope : string) (now : Z) : ScopeCounter :=
  mkScopeCounter owner scope 0 0 0 (Some now) (Some now) (Some now) None (Some now).

Section Counters.

Variables Sub Lead : Type.
(** The server's time-zone offset, in milliseconds. *)
Variable tz : Z.
(** What [checkOperationLimits] of server/unifiedPlanConfig.ts returns: its
    [allowed], [limitType], [remaining] and [message]. *)
Variable LimitCheckResult : Type.
(** [checkOperationLimits(planId, monthlyUsed, dailyUsed, hourlyUsed,
    requestedOperations)] *)
Variable checkOperationLimits : string -> Z -> Z -> Z -> Z -> LimitCheckResult.
(** [getUnifiedPlan(planId)] of server/unifiedPlanConfig.ts. *)
Variable getUnifiedPlan : string -> Plan.

Local Abbreviation DB := (Ledger.DB Sub Lead).

(** What [checkScopedLimits] returns: the four fields of the limit check,
    and the plan and the scope of the context. *)
Record ScopedOperationResult : Type := mkScopedOperationResult {
  r_limitCheck : LimitCheckResult;
  r_planId : string;
  r_scope : string
}.

(** [ScopedOperationCounter.getScopedAnonymousSession(sessionId, scope, req)].
    The table has no key: the SELECT answers the first row of the session
    and scope, the INSERT adds a row whatever the table holds, and the
    UPDATE writes every row of the session and scope and answers the first
    of them.  The request only provides the [ip_hash] column of a new row, a
    column that [ScopeCounter] does not carry and that no code reads.  The
    answer is [None] when the UPDATE finds no row ([undefined]). *)
Definition getScopedAnonymousSession (sessionId scope : string) (req : option Request)
  : prog DB (result (option ScopeCounter)) :=
  await found <- atomic (fun _ db =>
             (db, List.find (sameScope sessionId scope) (anonymousSessionScopes db))) in
  awaitOk session <- match found with
              | Some s => Ret (Ok s)
              | None =>
                  atomic (fun now db =>
                    let row := freshRow sessionId scope now in
                    (with_anonymousSessionScopes (fun rows => rows ++ [row])%list db, Ok row))
              end in
  await updates <- decideResets tz (sc_currentPeriodStart session) (sc_lastDailyReset session)
                     (sc_lastHourlyReset session) in
  if needsUpdate updates then
    atomic (fun _ db =>
      let db' := with_anonymousSessionScopes
                   (updateAll (sameScope sessionId scope) (setScope false updates)) db in
      (db', Ok (List.find (sameScope sessionId scope) (anonymousSessionScopes db'))))
  else Ret (Ok (Some session)).

(** [ScopedOperationCounter.getScopedUserCounter(userId, scope)].  The
    column [user_id] references [users.id]: the INSERT of a row for a user
    id that is no row of [users] is refused. *)
Definition getScopedUserCounter (userId scope : string)
  : prog DB (result (option ScopeCounter)) :=
  await found <- atomic (fun _ db =>
             (db, List.find (sameScope userId scope) (userScopeCounters db))) in
  awaitOk counter <- match found with
              | Some c => Ret (Ok c)
              | None =>
                  atomic (fun now db =>
                    match users db !! userId with
                    | Some _ =>
                        let row := freshRow userId scope now in
                        (with_userScopeCounters (fun rows => rows ++ [row])%list db, Ok row)
                    | None => (db, Throw "violates foreign key constraint")
                    end)
              end in
  await updates <- decideResets tz (sc_currentPeriodStart counter) (sc_lastDailyReset counter)
                     (sc_lastHourlyReset counter) in
  if needsUpdate updates then
    atomic (fun _ db =>
      let db' := with_userScopeCounters
                   (updateAll (sameScope userId scope) (setScope true updates)) db in
      (db', Ok (List.find (sameScope userId scope) (userScopeCounters db'))))
  else Ret (Ok (Some counter)).

(** The row of the caller: the user's when the call carries a user id, else
    the session's, [sessionId || 'fallback_session']. *)
Definition getScopedRow (userId sessionId : option string) (scope : string)
  (req : option Request) : prog DB (result ScopeCounter) :=
  if truthyStr userId then
    bindE (getScopedUserCounter (default "" userId) scope) defined
  else
    let sessionId := orDefault sessionId "fallback_session" in
    bindE (getScopedAnonymousSession sessionId scope req) defined.

(** [ScopedOperationCounter.checkScopedLimits(context, requestedOperations)];
    [req] is [context.req]. *)
Definition checkScopedLimits (context : ScopedOperationContext) (req : option Request)
  (requestedOperations : Z) : prog DB (result ScopedOperationResult) :=
  awaitOk row <- getScopedRow (s_userId context) (s_sessionId context)
                   (s_scope context) req in
  let '(monthlyUsed, dailyUsed, hourlyUsed) := usedOf row in
  let limitCheck :=
    checkOperationLimits (s_planId context) monthlyUsed dailyUsed hourlyUsed
      requestedOperations in
  Ret (Ok (mkScopedOperationResult limitCheck (s_planId context) (s_scope context))).

(** [ScopedOperationCounter.getScopedUsageStats(scope, userId, sessionId, req)] *)
Definition getScopedUsageStats (scope' : string) (userId sessionId : option string)
  (req : option Request) : prog DB (result ScopedUsageStats) :=
  let plan := getUnifiedPlan (planId (getRouteScope ("/" ++ scope'))) in
  awaitOk row <- getScopedRow userId sessionId scope' req in
  Ret (Ok (mkScopedUsageStats
             (p_id plan) (p_displayName plan) scope'
             (monthlyUsed row) (monthlyOperations (p_limits plan))
             (dailyUsed row) (maxOperationsPerDay (p_limits plan))
             (hourlyUsed row) (maxOperationsPerHour (p_limits plan))
             (negb (truthyStr userId)))).

(** ** Vocabulary of the statements *)

(** The owner of the row of a scoped call. *)
Definition ownerOf (userId sessionId : option string) : string :=
  if truthyStr userId then default "" userId else orDefault sessionId "fallback_session".

(** The identity whose record a scoped call works on. *)
Definition scopedKey (userId sessionId : option string) (scope : string) : IdentityKey :=
  if truthyStr userId then UserScopeKey (default "" userId) scope
  else SessionScopeKey (orDefault sessionId "fallback_session") scope.

(** The table that holds the rows of the caller. *)
Definition scopedTable (userId : option string) (db : DB) : list ScopeCounter :=
  if truthyStr userId then userScopeCounters db else anonymousSessionScopes db.

(** The row of the caller that a SELECT answers first. *)
Definition scopedRow (userId sessionId : option string) (scope : string) (db : DB)
  : option ScopeCounter :=
  List.find (sameScope (ownerOf userId sessionId) scope) (scopedTable userId db).

(** The get-or-create of the caller's row is refused: the caller is a user
    who has no row in the scope and is no row of [users]. *)
Definition refused (userId sessionId : option string) (scope : string) (db : DB) : Prop :=
  truthyStr userId = true /\ scopedRow userId sessionId scope db = None /\
  users db !! default "" userId = None.

(** What the block of resets decides on a row when all its readings of the
    clock give [t]. *)
Definition scopeNeedsUpdate (t : Z) (row : ScopeCounter) : bool :=
  needsUpdate (resetsAt tz t (sc_currentPeriodStart row) (sc_lastDailyReset row)
                 (sc_lastHourlyReset row)).

(** Each counter is what it was, or zero. *)
Definition keptOrReset (before after : Z * Z * Z) : Prop :=
  let '(m, d, h) := before in
  let '(m', d', h') := after in
  (m' = m \/ m' = 0) /\ (d' = d \/ d' = 0) /\ (h' = h \/ h' = 0).

(** A counter of the record is at the end of the range of its column. *)
Definition full (c : Z * Z * Z) : Prop := ~ hasRoom c.

(** ** The route table *)

(** A path that is no label of the [switch] takes the [default] branch. *)
Lemma getRouteScope_unlisted pathname :
  oneOf routeLabels pathname = false ->
  getRouteScope pathname =
    if String.prefix "/blog/" pathname then mkRouteScope "content" "anonymous"
    else if String.prefix "/api/" pathname then mkRouteScope "api" "anonymous"
    else mkRouteScope "main" "anonymous".
Proof.
  unfold routeLabels, getRouteScope. cbn [oneOf existsb]. intros H.
  repeat (apply orb_false_iff in H as [?E H]).
  repeat match goal with
         | E : String.eqb pathname _ = false |- _ => rewrite E; clear E
         end.
  reflexivity.
Qed.

(** A property of paths holds of every path once it holds of the labels of
    the [switch] and of the paths that take the [default] branch. *)
Lemma route_cases (b : string -> bool) :
  forallb b routeLabels = true ->
  (forall pathname, oneOf routeLabels pathname = false -> b pathname = true) ->
  forall pathname, b pathname = true.
Proof.
  intros Hlabels Hdefault pathname.
  destruct (oneOf routeLabels pathname) eqn:H; [|auto].
  apply existsb_exists in H as (label & Hin & Heq).
  apply String.eqb_eq in Heq. subst label.
  exact (proj1 (forallb_forall b routeLabels) Hlabels pathname Hin).
Qed.

Lemma oneOf_paidRoutes_unlisted pathname :
  oneOf routeLabels pathname = false -> oneOf paidRoutes pathname = false.
Proof.
  intros H. destruct (oneOf paidRoutes pathname) eqn:Hp; [|reflexivity].
  apply existsb_exists in Hp as (label & Hin & Heq).
  apply String.eqb_eq in Heq. subst label.
  rewrite <- H. symmetry. apply existsb_exists. exists pathname.
  split; [|apply String.eqb_refl].
  repeat (destruct Hin as [<-|Hin]; [vm_compute; tauto|]). destruct Hin.
Qed.

Lemma getRouteScope_then_anonymous pathname :
  planId (getRouteScope ("/" ++ scope (getRouteScope pathname))) = "anonymous".
Proof.
  apply String.eqb_eq. revert pathname.
  apply (route_cases (fun pathname =>
    String.eqb (planId (getRouteScope ("/" ++ scope (getRouteScope pathname))))
               "anonymous")).
  - vm_compute. reflexivity.
  - intros pathname H. rewrite (getRouteScope_unlisted _ H).
    destruct (String.prefix "/blog/" pathname); [vm_compute; reflexivity|].
    destruct (String.prefix "/api/" pathname); vm_compute; reflexivity.
Qed.

Lemma getRouteScope_nonempty pathname :
  (negb (String.eqb (scope (getRouteScope pathname)) "")
   && negb (String.eqb (planId (getRouteScope pathname)) ""))%bool = true.
Proof.
  revert pathname. apply route_cases.
  - vm_compute. reflexivity.
  - intros pathname H. rewrite (getRouteScope_unlisted _ H).
    destruct (String.prefix "/blog/" pathname); [reflexivity|].
    destruct (String.prefix "/api/" pathname); reflexivity.
Qed.

(** X1.  [getRouteScope] hands out a paid plan (pro, enterprise or
    test_premium) for exactly seven paths, compared character by character;
    every other path, a longer or differently spelled one included, gets the
    anonymous, the free or the cr2-free plan. *)
Theorem getRouteScope_paid_only_for_listed_routes pathname :
  paidPlan (planId (getRouteScope pathname)) = oneOf paidRoutes pathname /\
  oneOf ["anonymous"; "free"; "cr2-free"] (planId (getRouteScope pathname))
  = negb (oneOf paidRoutes pathname).
Proof.
  enough (H : (Bool.eqb (paidPlan (planId (getRouteScope pathname)))
                        (oneOf paidRoutes pathname)
               && Bool.eqb (oneOf ["anonymous"; "free"; "cr2-free"]
                                  (planId (getRouteScope pathname)))
                           (negb (oneOf paidRoutes pathname)))%bool = true).
  { apply andb_true_iff in H as [H1 H2].
    split; apply Bool.eqb_prop; assumption. }
  revert pathname. apply route_cases.
  - vm_compute. reflexivity.
  - intros pathname H.
    rewrite (getRouteScope_unlisted _ H), (oneOf_paidRoutes_unlisted _ H).
    destruct (String.prefix "/blog/" pathname); [reflexivity|].
    destruct (String.prefix "/api/" pathname); reflexivity.
Qed.

(** ** Tables without a key *)

Lemma find_head_filter {A} (p : A -> bool) (l : list A) :
  List.find p l = head (List.filter p l).
Proof using Type.
  induction l as [|x l IH]; cbn; [reflexivity|]. destruct (p x); [reflexivity | exact IH].
Qed.

Lemma find_updateAll {A} (sel : A -> bool) (set : A -> A) (l : list A) :
  (forall r, sel r = true -> sel (set r) = true) ->
  List.find sel (updateAll sel set l) = set <$> List.find sel l.
Proof using Type.
  intros Hsel. unfold updateAll. induction l as [|x l IH]; cbn; [reflexivity|].
  destruct (sel x) eqn:Hx.
  - rewrite (Hsel x Hx). reflexivity.
  - rewrite Hx. exact IH.
Qed.

Lemma filter_updateAll {A} (sel : A -> bool) (set : A -> A) (l : list A) :
  (forall r, sel r = true -> sel (set r) = true) ->
  List.filter sel (updateAll sel set l) = map set (List.filter sel l).
Proof using Type.
  intros Hsel. unfold updateAll. induction l as [|x l IH]; cbn; [reflexivity|].
  destruct (sel x) eqn:Hx.
  - rewrite (Hsel x Hx). cbn. now rewrite IH.
  - rewrite Hx. exact IH.
Qed.

Lemma filter_updateAll_other {A} (sel q : A -> bool) (set : A -> A) (l : list A) :
  (forall r, sel r = true -> q r = false /\ q (set r) = false) ->
  List.filter q (updateAll sel set l) = List.filter q l.
Proof using Type.
  intros Hq. unfold updateAll. induction l as [|x l IH]; cbn; [reflexivity|].
  destruct (sel x) eqn:Hx.
  - destruct (Hq x Hx) as [-> ->]. exact IH.
  - destruct (q x); now rewrite IH.
Qed.

Lemma find_app_new {A} (sel : A -> bool) (l : list A) (row : A) :
  List.find sel l = None -> sel row = true -> List.find sel (l ++ [row]) = Some row.
Proof using Type.
  intros Hnone Hrow. induction l as [|x l IH]; cbn in *; [now rewrite Hrow|].
  destruct (sel x); [discriminate | exact (IH Hnone)].
Qed.

Lemma filter_app_one {A} (q : A -> bool) (l : list A) (row : A) :
  List.filter q (l ++ [row]) = (List.filter q l ++ if q row then [row] else [])%list.
Proof using Type. rewrite List.filter_app. cbn. destruct (q row); reflexivity. Qed.

Lemma sameScope_eq o s o' s' row :
  sameScope o s row = true -> sameScope o' s' row = true -> o = o' /\ s = s'.
Proof using Type.
  unfold sameScope. intros H H'.
  apply andb_true_iff in H as [H1 H2]. apply andb_true_iff in H' as [H1' H2'].
  apply String.eqb_eq in H1, H2, H1', H2'. split; congruence.
Qed.

Lemma sameScope_other o s o' s' row :
  (o, s) <> (o', s') -> sameScope o s row = true -> sameScope o' s' row = false.
Proof using Type.
  intros Hne H. destruct (sameScope o' s' row) eqn:H'; [|reflexivity].
  destruct (sameScope_eq _ _ _ _ _ H H') as [-> ->]. contradiction.
Qed.

Lemma sameScope_setScope o s b updates row :
  sameScope o s (setScope b updates row) = sameScope o s row.
Proof using Type. reflexivity. Qed.

Lemma sameScope_freshRow o s t : sameScope o s (freshRow o s t) = true.
Proof using Type. unfold sameScope. cbn. now rewrite !String.eqb_refl. Qed.

(** ** Window resets of a scoped row *)

Lemma setScope_id b updates row :
  needsUpdate updates = false -> usedOf (setScope b updates row) = usedOf row.
Proof using Type.
  unfold needsUpdate, setScope, usedOf. intros H.
  apply orb_false_iff in H as [H Hh]. apply orb_false_iff in H as [Hm Hd].
  rewrite Hm, Hd, Hh. reflexivity.
Qed.

Lemma keptOrReset_setScope b updates row :
  keptOrReset (usedOf row) (usedOf (setScope b updates row)).
Proof using Type.
  unfold keptOrReset, usedOf, setScope. cbn.
  destruct (up_monthly updates), (up_daily updates), (up_hourly updates); auto.
Qed.

Lemma keptOrReset_refl c : keptOrReset c c.
Proof using Type. destruct c as [[m d] h]. cbn. auto. Qed.

Lemma decided_later cps ld lh t now' now'' updates :
  decided tz cps ld lh t now' updates -> now' <= now'' ->
  decided tz cps ld lh t now'' updates.
Proof using Type.
  intros (start & today & hour & H) Hle. exists start, today, hour.
  repeat split; try apply H. lia.
Qed.

(** Resets that are not due at a time are not decided before it. *)
Lemma decided_quiet cps ld lh t now' updates :
  decided tz cps ld lh t now' updates ->
  needsUpdate (resetsAt tz now' cps ld lh) = false ->
  needsUpdate updates = false.
Proof using Type.
  intros (start & today & hour & H1 & H2 & H3 & H4 & H5 & Hm & Hd & Hh).
  unfold needsUpdate, resetsAt. cbn [up_monthly up_daily up_hourly]. intros H.
  apply orb_false_iff in H as [H Hh']. apply orb_false_iff in H as [Hm' Hd'].
  rewrite Hm, Hd, Hh.
  rewrite (dailyResetDue_mono tz today now' ld ltac:(lia) Hd').
  rewrite (hourlyResetDue_mono tz hour now' lh ltac:(lia) Hh').
  destruct cps as [c|]; cbn [default from_option] in *.
  - unfold id in *. now rewrite (monthlyResetDue_mono (up_now updates) now' c ltac:(lia) Hm').
  - unfold id. now rewrite (monthlyResetDue_later (up_now updates) start H2).
Qed.

(** ** The get-or-create calls *)

(** What a get-or-create call leaves behind after it has found the row
    [row0], or created it at time [t0], in what is then the store [db1]:
    the resets that the block decides are written to every row of the owner
    and scope, and the first of these rows is returned. *)
Definition gotRow (tablePlus : (list ScopeCounter -> list ScopeCounter) -> DB -> DB)
  (withUpdatedAt : bool) (owner sc : string) (row0 : ScopeCounter) (db1 : DB)
  (t0 now' : Z) (db' : DB) (r : result (option ScopeCounter)) : Prop :=
  exists updates,
    decided tz (sc_currentPeriodStart row0) (sc_lastDailyReset row0) (sc_lastHourlyReset row0)
      t0 now' updates /\
    r = Ok (Some (if needsUpdate updates then setScope withUpdatedAt updates row0 else row0)) /\
    db' = (if needsUpdate updates
           then tablePlus (updateAll (sameScope owner sc) (setScope withUpdatedAt updates)) db1
           else db1).

Lemma wp_getScopedAnonymousSession sid sc req now (db : DB) :
  wp (getScopedAnonymousSession sid sc req)
     (fun now' db' r =>
        match List.find (sameScope sid sc) (anonymousSessionScopes db) with
        | Some row0 =>
            gotRow with_anonymousSessionScopes false sid sc row0 db now now' db' r
        | None =>
            exists t0, now <= t0 /\
              gotRow with_anonymousSessionScopes false sid sc (freshRow sid sc t0)
                (with_anonymousSessionScopes (fun rows => rows ++ [freshRow sid sc t0])%list db)
                t0 now' db' r
        end)
     now db.
Proof using Type.
  unfold getScopedAnonymousSession, atomic, bindE. cbn [bind wp]. intros now1 H1.
  destruct (List.find (sameScope sid sc) (anonymousSessionScopes db)) as [s|] eqn:Hfound;
    cbn [bind wp].
  - apply wp_bind. eapply wp_mono; [|apply wp_clock, wp_decideResets].
    intros now2 db2 updates H. cbn beta in H. destruct H as (H2 & Hdb & Hdec). subst db2. unfold gotRow.
    destruct (needsUpdate updates) eqn:Hn; cbn [wp].
    + intros now3 H3. exists updates. rewrite Hn.
      split.
      { destruct Hdec as (a & b & c & Hd). exists a, b, c. repeat split; try apply Hd; lia. }
      split; [|reflexivity].
      cbn [anonymousSessionScopes with_anonymousSessionScopes userScopeCounters
             with_userScopeCounters].
      rewrite find_updateAll by (intros; assumption). rewrite Hfound. reflexivity.
    + exists updates. rewrite Hn.
      split.
      { destruct Hdec as (a & b & c & Hd). exists a, b, c. repeat split; try apply Hd; lia. }
      split; reflexivity.
  - intros now2 H2. apply wp_bind. eapply wp_mono; [|apply wp_clock, wp_decideResets].
    intros now3 db3 updates H. cbn beta in H. destruct H as (H3 & Hdb & Hdec). subst db3. unfold gotRow.
    destruct (needsUpdate updates) eqn:Hn; cbn [wp].
    + intros now4 H4. exists now2. split; [lia|]. exists updates. rewrite Hn.
      split; [apply (decided_later _ _ _ _ _ _ _ Hdec H4)|].
      split; [|reflexivity].
      cbn [anonymousSessionScopes with_anonymousSessionScopes userScopeCounters
             with_userScopeCounters].
      rewrite find_updateAll by (intros; assumption).
      rewrite (find_app_new _ _ _ Hfound (sameScope_freshRow _ _ _)). reflexivity.
    + exists now2. split; [lia|]. exists updates. rewrite Hn. split; [exact Hdec|]. split; reflexivity.
Qed.

Lemma wp_getScopedUserCounter uid sc now (db : DB) :
  wp (getScopedUserCounter uid sc)
     (fun now' db' r =>
        match List.find (sameScope uid sc) (userScopeCounters db) with
        | Some row0 => gotRow with_userScopeCounters true uid sc row0 db now now' db' r
        | None =>
            match users db !! uid with
            | Some _ =>
                exists t0, now <= t0 /\
                  gotRow with_userScopeCounters true uid sc (freshRow uid sc t0)
                    (with_userScopeCounters (fun rows => rows ++ [freshRow uid sc t0])%list db)
                    t0 now' db' r
            | None => r = Throw "violates foreign key constraint" /\ db' = db
            end
        end)
     now db.
Proof using Type.
  unfold getScopedUserCounter, atomic, bindE. cbn [bind wp]. intros now1 H1.
  destruct (List.find (sameScope uid sc) (userScopeCounters db)) as [s|] eqn:Hfound;
    cbn [bind wp].
  - apply wp_bind. eapply wp_mono; [|apply wp_clock, wp_decideResets].
    intros now2 db2 updates H. cbn beta in H. destruct H as (H2 & Hdb & Hdec). subst db2. unfold gotRow.
    destruct (needsUpdate updates) eqn:Hn; cbn [wp].
    + intros now3 H3. exists updates. rewrite Hn.
      split.
      { destruct Hdec as (a & b & c & Hd). exists a, b, c. repeat split; try apply Hd; lia. }
      split; [|reflexivity].
      cbn [anonymousSessionScopes with_anonymousSessionScopes userScopeCounters
             with_userScopeCounters].
      rewrite find_updateAll by (intros; assumption). rewrite Hfound. reflexivity.
    + exists updates. rewrite Hn.
      split.
      { destruct Hdec as (a & b & c & Hd). exists a, b, c. repeat split; try apply Hd; lia. }
      split; reflexivity.
  - intros now2 H2. destruct (users db !! uid) as [u|] eqn:Hu; cbn [bind wp].
    + apply wp_bind. eapply wp_mono; [|apply wp_clock, wp_decideResets].
      intros now3 db3 updates H. cbn beta in H. destruct H as (H3 & Hdb & Hdec). subst db3. unfold gotRow.
      destruct (needsUpdate updates) eqn:Hn; cbn [wp].
      * intros now4 H4. exists now2. split; [lia|]. exists updates. rewrite Hn.
        split; [apply (decided_later _ _ _ _ _ _ _ Hdec H4)|].
        split; [|reflexivity].
      cbn [anonymousSessionScopes with_anonymousSessionScopes userScopeCounters
             with_userScopeCounters].
        rewrite find_updateAll by (intros; assumption).
        rewrite (find_app_new _ _ _ Hfound (sameScope_freshRow _ _ _)). reflexivity.
      * exists now2. split; [lia|]. exists updates. rewrite Hn. split; [exact Hdec|]. split; reflexivity.
    + split; reflexivity.
Qed.

(** What a call that got its row has done, in terms of the row [row0] that
    it found or created in the store [db1]. *)
Lemma gotRow_user uid sc row0 (db1 : DB) t0 now' db' r :
  gotRow with_userScopeCounters true uid sc row0 db1 t0 now' db' r ->
  List.find (sameScope uid sc) (userScopeCounters db1) = Some row0 ->
  exists row,
    r = Ok (Some row) /\
    List.find (sameScope uid sc) (userScopeCounters db') = Some row /\
    keptOrReset (usedOf row0) (usedOf row) /\
    (forall key', key' <> UserScopeKey uid sc -> records key' db' = records key' db1) /\
    operationsLog db' = operationsLog db1 /\
    users db' = users db1 /\
    (scopeNeedsUpdate now' row0 = false -> row = row0 /\ db' = db1).
Proof using Type.
  intros (updates & Hdec & -> & ->) Hfound.
  pose proof (decided_quiet _ _ _ _ _ _ Hdec) as Hquiet.
  destruct (needsUpdate updates) eqn:Hn.
  - eexists. split; [reflexivity|]. split.
    { cbn [userScopeCounters with_userScopeCounters].
      rewrite find_updateAll by (intros; assumption). now rewrite Hfound. }
    split; [apply keptOrReset_setScope|]. split.
    { intros key' Hne. destruct key' as [| |o' s'|o' s']; cbn; try reflexivity.
      f_equal. apply filter_updateAll_other. intros row Hrow.
      rewrite sameScope_setScope.
      assert (sameScope o' s' row = false)
        by (apply (sameScope_other uid sc); [congruence | exact Hrow]).
      auto. }
    split; [reflexivity|]. split; [reflexivity|].
    intros Hq. apply Hquiet in Hq. discriminate.
  - eexists. split; [reflexivity|]. split; [exact Hfound|].
    split; [apply keptOrReset_refl|]. repeat split.
Qed.

Lemma gotRow_session sid sc row0 (db1 : DB) t0 now' db' r :
  gotRow with_anonymousSessionScopes false sid sc row0 db1 t0 now' db' r ->
  List.find (sameScope sid sc) (anonymousSessionScopes db1) = Some row0 ->
  exists row,
    r = Ok (Some row) /\
    List.find (sameScope sid sc) (anonymousSessionScopes db') = Some row /\
    keptOrReset (usedOf row0) (usedOf row) /\
    (forall key', key' <> SessionScopeKey sid sc -> records key' db' = records key' db1) /\
    operationsLog db' = operationsLog db1 /\
    users db' = users db1 /\
    (scopeNeedsUpdate now' row0 = false -> row = row0 /\ db' = db1).
Proof using Type.
  intros (updates & Hdec & -> & ->) Hfound.
  pose proof (decided_quiet _ _ _ _ _ _ Hdec) as Hquiet.
  destruct (needsUpdate updates) eqn:Hn.
  - eexists. split; [reflexivity|]. split.
    { cbn [anonymousSessionScopes with_anonymousSessionScopes].
      rewrite find_updateAll by (intros; assumption). now rewrite Hfound. }
    split; [apply keptOrReset_setScope|]. split.
    { intros key' Hne. destruct key' as [| |o' s'|o' s']; cbn; try reflexivity.
      f_equal. apply filter_updateAll_other. intros row Hrow.
      rewrite sameScope_setScope.
      assert (sameScope o' s' row = false)
        by (apply (sameScope_other sid sc); [congruence | exact Hrow]).
      auto. }
    split; [reflexivity|]. split; [reflexivity|].
    intros Hq. apply Hquiet in Hq. discriminate.
  - eexists. split; [reflexivity|]. split; [exact Hfound|].
    split; [apply keptOrReset_refl|]. repeat split.
Qed.

(** The INSERT of a new row leaves the records of every other identity. *)
Lemma records_new_user uid sc t (db : DB) key' :
  key' <> UserScopeKey uid sc ->
  records key' (with_userScopeCounters (fun rows => rows ++ [freshRow uid sc t])%list db)
  = records key' db.
Proof using Type.
  intros Hne. destruct key' as [| |o' s'|o' s']; cbn; try reflexivity.
  rewrite filter_app_one.
  rewrite (sameScope_other uid sc o' s' (freshRow uid sc t));
    [now rewrite app_nil_r | congruence | apply sameScope_freshRow].
Qed.

Lemma records_new_session sid sc t (db : DB) key' :
  key' <> SessionScopeKey sid sc ->
  records key' (with_anonymousSessionScopes (fun rows => rows ++ [freshRow sid sc t])%list db)
  = records key' db.
Proof using Type.
  intros Hne. destruct key' as [| |o' s'|o' s']; cbn; try reflexivity.
  rewrite filter_app_one.
  rewrite (sameScope_other sid sc o' s' (freshRow sid sc t));
    [now rewrite app_nil_r | congruence | apply sameScope_freshRow].
Qed.

Lemma counters_scopedRow userId sessionId sc (db : DB) :
  counters (scopedKey userId sessionId sc) db = usedOf <$> scopedRow userId sessionId sc db.
Proof using Type.
  unfold counters, scopedKey, scopedRow, scopedTable, ownerOf.
  destruct (truthyStr userId); cbn [records]; rewrite find_head_filter;
    destruct (List.filter _ _); reflexivity.
Qed.

(** What [getScopedRow] does: the caller's row is found or created, reset
    where due, stored and returned, or the creation is refused; no other
    identity's counters and no log entry are touched. *)
Definition servedRow (userId sessionId : option string) (sc : string) (db : DB)
  (now' : Z) (db' : DB) (r : result ScopeCounter) : Prop :=
  let key := scopedKey userId sessionId sc in
  match r with
  | Ok row =>
      ~ refused userId sessionId sc db /\
      scopedRow userId sessionId sc db' = Some row /\
      keptOrReset (default (0, 0, 0) (counters key db)) (usedOf row) /\
      (forall key', key' <> key -> records key' db' = records key' db) /\
      operationsLog db' = operationsLog db /\
      users db' = users db /\
      (forall row0, scopedRow userId sessionId sc db = Some row0 ->
         scopeNeedsUpdate now' row0 = false -> row = row0 /\ db' = db)
  | Throw e =>
      e = "violates foreign key constraint" /\ refused userId sessionId sc db /\ db' = db
  end.

Lemma wp_getScopedRow userId sessionId sc req now (db : DB) :
  wp (getScopedRow userId sessionId sc req) (servedRow userId sessionId sc db) now db.
Proof using Type.
  unfold getScopedRow, servedRow. rewrite counters_scopedRow.
  unfold refused, scopedRow, scopedKey, scopedTable, ownerOf, bindE.
  destruct (truthyStr userId) eqn:Hu.
  - apply wp_bind. eapply wp_mono; [|apply wp_getScopedUserCounter].
    intros now' db' r H. cbn beta in H.
    destruct (List.find (sameScope (default "" userId) sc) (userScopeCounters db))
      as [row0|] eqn:Hfound.
    + destruct (gotRow_user _ _ _ _ _ _ _ _ H Hfound)
        as (row & -> & Hrow & Hkept & Hkeys & Hlog & Husers & Hq).
      cbn [wp defined]. split; [intros (_ & Hnone & _); discriminate|].
      split; [exact Hrow|]. split; [exact Hkept|]. split; [exact Hkeys|].
      split; [exact Hlog|]. split; [exact Husers|].
      intros row1 Hrow1. injection Hrow1 as <-. exact Hq.
    + destruct (users db !! default "" userId) as [u|] eqn:Huser.
      * destruct H as (t0 & Ht0 & H).
        destruct (gotRow_user _ _ _ _ _ _ _ _ H
                    (find_app_new _ _ _ Hfound (sameScope_freshRow _ _ _)))
          as (row & -> & Hrow & Hkept & Hkeys & Hlog & Husers & Hq).
        cbn [wp defined]. split; [intros (_ & _ & Hnone); discriminate|].
        split; [exact Hrow|]. split; [exact Hkept|]. split.
        { intros key' Hne. rewrite (Hkeys key' Hne). apply records_new_user, Hne. }
        split; [exact Hlog|]. split; [exact Husers|]. intros row1 Hrow1. discriminate.
      * destruct H as [-> ->]. cbn [wp defined]. auto.
  - cbv zeta. apply wp_bind. eapply wp_mono; [|apply wp_getScopedAnonymousSession].
    intros now' db' r H. cbn beta in H.
    destruct (List.find (sameScope (orDefault sessionId "fallback_session") sc)
                (anonymousSessionScopes db)) as [row0|] eqn:Hfound.
    + destruct (gotRow_session _ _ _ _ _ _ _ _ H Hfound)
        as (row & -> & Hrow & Hkept & Hkeys & Hlog & Husers & Hq).
      cbn [wp defined]. split; [intros (Hf & _); discriminate|].
      split; [exact Hrow|]. split; [exact Hkept|]. split; [exact Hkeys|].
      split; [exact Hlog|]. split; [exact Husers|].
      intros row1 Hrow1. injection Hrow1 as <-. exact Hq.
    + destruct H as (t0 & Ht0 & H).
      destruct (gotRow_session _ _ _ _ _ _ _ _ H
                  (find_app_new _ _ _ Hfound (sameScope_freshRow _ _ _)))
        as (row & -> & Hrow & Hkept & Hkeys & Hlog & Husers & Hq).
      cbn [wp defined]. split; [intros (Hf & _); discriminate|].
      split; [exact Hrow|]. split; [exact Hkept|]. split.
      { intros key' Hne. rewrite (Hkeys key' Hne). apply records_new_session, Hne. }
      split; [exact Hlog|]. split; [exact Husers|]. intros row1 Hrow1. discriminate.
Qed.

(** ** The UPDATE of [recordScopedOperation] *)

Lemma bumpScopeUser_full t1 t2 row : bumpScopeUser t1 t2 row = None -> full (usedOf row).
Proof using Type.
  intros Hnone Hroom. destruct (bumpScopeUser_room t1 t2 row Hroom) as [row' Hrow].
  congruence.
Qed.

Lemma bumpScopeSession_full t row : bumpScopeSession t row = None -> full (usedOf row).
Proof using Type.
  intros Hnone Hroom. destruct (bumpScopeSession_room t row Hroom) as [row' Hrow].
  congruence.
Qed.

Lemma bumpScopeUser_hasRoom t1 t2 row row' :
  bumpScopeUser t1 t2 row = Some row' -> hasRoom (usedOf row).
Proof using Type.
  unfold bumpScopeUser, hasRoom, usedOf.
  destruct (plusOne (monthlyUsed row)) as [m|] eqn:Hm; [|discriminate].
  destruct (plusOne (dailyUsed row)) as [d|] eqn:Hd; [|discriminate].
  destruct (plusOne (hourlyUsed row)) as [h|] eqn:Hh; [|discriminate].
  apply plusOne_inv in Hm as [_ Hm], Hd as [_ Hd], Hh as [_ Hh]. auto.
Qed.

Lemma bumpScopeSession_hasRoom t row row' :
  bumpScopeSession t row = Some row' -> hasRoom (usedOf row).
Proof using Type.
  unfold bumpScopeSession, hasRoom, usedOf.
  destruct (plusOne (monthlyUsed row)) as [m|] eqn:Hm; [|discriminate].
  destruct (plusOne (dailyUsed row)) as [d|] eqn:Hd; [|discriminate].
  destruct (plusOne (hourlyUsed row)) as [h|] eqn:Hh; [|discriminate].
  apply plusOne_inv in Hm as [_ Hm], Hd as [_ Hd], Hh as [_ Hh]. auto.
Qed.

(** A SET clause that adds one to the three counters of a scoped row. *)
Definition increments (set : ScopeCounter -> option ScopeCounter) : Prop :=
  (forall r r', set r = Some r' ->
     sc_owner r' = sc_owner r /\ sc_scope r' = sc_scope r /\
     usedOf r' = bump3 (usedOf r) /\ hasRoom (usedOf r) /\
     sc_currentPeriodStart r' = sc_currentPeriodStart r /\
     sc_lastDailyReset r' = sc_lastDailyReset r /\
     sc_lastHourlyReset r' = sc_lastHourlyReset r) /\
  (forall r, set r = None -> full (usedOf r)).

Lemma increments_bumpScopeUser t1 t2 : increments (bumpScopeUser t1 t2).
Proof using Type.
  split.
  - intros r r' H. destruct (bumpScopeUser_inv _ _ _ _ H) as (H1 & H2 & H3 & H4 & H5 & H6).
    pose proof (bumpScopeUser_hasRoom _ _ _ _ H). auto 10.
  - apply bumpScopeUser_full.
Qed.

Lemma increments_bumpScopeSession t : increments (bumpScopeSession t).
Proof using Type.
  split.
  - intros r r' H. destruct (bumpScopeSession_inv _ _ _ H) as (H1 & H2 & H3 & H4 & H5 & H6).
    pose proof (bumpScopeSession_hasRoom _ _ _ H). auto 10.
  - apply bumpScopeSession_full.
Qed.

(** The UPDATE succeeds when every record of the owner and scope has room,
    and then makes each of them one higher and leaves the records of every
    other owner and scope; it fails when one of them is full. *)
Lemma updateWhere_scoped owner scope set table :
  increments set ->
  match updateWhere (sameScope owner scope) set table with
  | Some table' =>
      Forall hasRoom (map usedOf (List.filter (sameScope owner scope) table)) /\
      forall o s,
        map usedOf (List.filter (sameScope o s) table') =
          if decide ((o, s) = (owner, scope))
          then map bump3 (map usedOf (List.filter (sameScope o s) table))
          else map usedOf (List.filter (sameScope o s) table)
  | None => Exists full (map usedOf (List.filter (sameScope owner scope) table))
  end.
Proof using Type.
  intros [Hsome Hnone]. induction table as [|row rest IH]; cbn [updateWhere].
  - split; [constructor|]. intros o s. cbn. destruct (decide _); reflexivity.
  - destruct (sameScope owner scope row) eqn:Hs.
    + destruct (set row) as [row'|] eqn:Hset.
      * destruct (Hsome row row' Hset) as (Ho & Hsc & Hused & Hroom & _).
        destruct (updateWhere (sameScope owner scope) set rest) as [rest'|].
        -- destruct IH as [IH1 IH2]. split.
           ++ cbn [List.filter]. rewrite Hs. cbn [map]. constructor; assumption.
           ++ intros o s. cbn [List.filter].
              replace (sameScope o s row') with (sameScope o s row)
                by (unfold sameScope; now rewrite Ho, Hsc).
              destruct (sameScope o s row) eqn:Hos.
              ** destruct (sameScope_eq _ _ _ _ _ Hos Hs) as [-> ->].
                 specialize (IH2 owner scope).
                 destruct (decide _) as [_|Hne]; [|contradiction].
                 cbn [map]. now rewrite IH2, Hused.
              ** apply IH2.
        -- cbn [List.filter]. rewrite Hs. cbn [map]. apply Exists_cons_tl, IH.
      * cbn [List.filter]. rewrite Hs. cbn [map]. apply Exists_cons_hd, Hnone, Hset.
    + destruct (updateWhere (sameScope owner scope) set rest) as [rest'|].
      * destruct IH as [IH1 IH2]. split.
        -- cbn [List.filter]. rewrite Hs. exact IH1.
        -- intros o s. cbn [List.filter]. specialize (IH2 o s).
           destruct (sameScope o s row) eqn:Hos; [|exact IH2].
           destruct (decide _) as [Heq|Hne].
           ++ injection Heq as -> ->. congruence.
           ++ cbn [map]. now rewrite IH2.
      * cbn [List.filter]. rewrite Hs. exact IH.
Qed.

(** The first row of the owner and scope after an UPDATE that succeeds. *)
Lemma find_updateWhere owner scope set table table' row :
  increments set ->
  updateWhere (sameScope owner scope) set table = Some table' ->
  List.find (sameScope owner scope) table = Some row ->
  exists row', set row = Some row' /\
               List.find (sameScope owner scope) table' = Some row'.
Proof using Type.
  intros [Hsome _]. revert table'.
  induction table as [|r rest IH]; intros table' Hup Hfind; [discriminate|].
  cbn in Hup, Hfind. destruct (sameScope owner scope r) eqn:Hs.
  - injection Hfind as <-.
    destruct (set r) as [r'|] eqn:Hset; [|discriminate].
    destruct (updateWhere (sameScope owner scope) set rest) as [rest'|]; [|discriminate].
    injection Hup as <-. exists r'. split; [reflexivity|]. cbn.
    destruct (Hsome r r' Hset) as (Ho & Hsc & _).
    replace (sameScope owner scope r') with (sameScope owner scope r)
      by (unfold sameScope; now rewrite Ho, Hsc).
    now rewrite Hs.
  - destruct (updateWhere (sameScope owner scope) set rest) as [rest'|]; [|discriminate].
    injection Hup as <-. destruct (IH rest' eq_refl Hfind) as (row' & Hrow & Hfind').
    exists row'. split; [exact Hrow|]. cbn. now rewrite Hs.
Qed.

(** ** [recordScopedOperation] *)

(** The row that [recordScopedOperation] writes to the operations log. *)
Definition scopedEntry (context : ScopedOperationContext) (createdAt : Z) : OperationLog :=
  mkOperationLog (orNull (s_userId context)) (orNull (s_sessionId context))
    (s_operationType context) (s_fileFormat context) (mathRound (s_fileSizeMb context))
    (s_interface context) (s_planId context) (Some (s_scope context)) createdAt.

(** The steps of [recordScopedOperation], with the readings of the clock
    that go into its statements. *)
Lemma wp_recordScopedOperation context now (db : DB) :
  wp (recordScopedOperation context)
     (fun _ db' r =>
        exists t0 t1 t2,
          let db1 := with_operationsLog (fun l => l ++ [scopedEntry context t0])%list db in
          if truthyStr (s_userId context) then
            match users db !! default "" (s_userId context) with
            | None => r = Throw "violates foreign key constraint" /\ db' = db
            | Some _ =>
                match updateWhere (sameScope (default "" (s_userId context)) (s_scope context))
                        (bumpScopeUser t1 t2) (userScopeCounters db) with
                | Some rows => r = Ok tt /\ db' = with_userScopeCounters (fun _ => rows) db1
                | None => r = Throw "integer out of range" /\ db' = db1
                end
            end
          else
            match updateWhere (sameScope (orDefault (s_sessionId context) "fallback_session")
                                 (s_scope context))
                    (bumpScopeSession t1) (anonymousSessionScopes db) with
            | Some rows => r = Ok tt /\ db' = with_anonymousSessionScopes (fun _ => rows) db1
            | None => r = Throw "integer out of range" /\ db' = db1
            end)
     now db.
Proof using Type.
  unfold recordScopedOperation, insertOperationLog, atomic, readClock, bindE.
  cbn [bind wp]. intros now1 _. unfold scopedEntry.
  destruct (truthyStr (s_userId context)) eqn:Hu.
  - unfold orNull at 1. rewrite Hu.
    destruct (s_userId context) as [u|] eqn:Huid; [|discriminate Hu].
    cbn [default from_option]. unfold id.
    destruct (users db !! u) as [user|] eqn:Huser; cbn [bind wp].
    + intros now2 _ now3 _ now4 _. cbn [userScopeCounters with_operationsLog].
      destruct (updateWhere _ _ _) as [rows|] eqn:Hup; cbn [wp];
        exists now1, now2, now3; cbv zeta; unfold orNull; rewrite ?Hu, Hup;
        split; reflexivity.
    + exists now1, now1, now1. split; reflexivity.
  - unfold orNull at 1. rewrite Hu. cbn [bind wp]. intros now2 _ now3 _.
    cbn [anonymousSessionScopes with_operationsLog].
    destruct (updateWhere _ _ _) as [rows|] eqn:Hup; cbn [wp];
      exists now1, now2, now2; cbv zeta; rewrite Hup; split; reflexivity.
Qed.

(** The log has the entry of the operation as its new last row. *)
Definition logged (context : ScopedOperationContext) (db db' : DB) : Prop :=
  exists entry,
    operationsLog db' = (operationsLog db ++ [entry])%list /\
    ol_scope entry = Some (s_scope context) /\
    ol_planId entry = s_planId context.

(** X2.  [recordScopedOperation] adds one to the three counters of every
    record of its own (owner, scope) pair, and appends one entry to the
    operations log that carries the scope and the plan of the context.  It
    creates no record, and the records of every other identity, another
    scope of the same owner included, stay as they were.  It returns in
    exactly this case: the caller is no user, or a user with a row in
    [users], and every record of the pair has room in its three counters.
    For a user without a row in [users] the INSERT into the log is refused
    and nothing is written; when a counter of a record is at 2147483647, the
    UPDATE is refused after the log entry has been written, and no record
    changes. *)
Theorem recordScopedOperation_touches_one_record context now (db : DB) :
  wp (recordScopedOperation context)
     (fun _ db' r =>
        let key := scopedKey (s_userId context) (s_sessionId context) (s_scope context) in
        match r with
        | Ok _ =>
            ownerKnown key db /\
            Forall hasRoom (records key db) /\
            (forall key', records key' db' =
               if decide (key' = key) then map bump3 (records key' db)
               else records key' db) /\
            logged context db db'
        | Throw e =>
            (e = "violates foreign key constraint" /\ ~ ownerKnown key db /\ db' = db) \/
            (e = "integer out of range" /\ ownerKnown key db /\
             Exists full (records key db) /\
             (forall key', records key' db' = records key' db) /\
             logged context db db')
        end)
     now db.
Proof using Type.
  eapply wp_mono; [|apply wp_recordScopedOperation].
  intros now' db' r (t0 & t1 & t2 & H). cbv zeta in H. cbv zeta. unfold scopedKey.
  destruct (truthyStr (s_userId context)).
  - cbn [ownerKnown]. destruct (users db !! default "" (s_userId context)) as [user|].
    + pose proof (updateWhere_scoped (default "" (s_userId context)) (s_scope context)
                    (bumpScopeUser t1 t2) (userScopeCounters db)
                    (increments_bumpScopeUser t1 t2)) as Hup.
      destruct (updateWhere _ _ _) as [rows|]; destruct H as [-> ->].
      * destruct Hup as [Hroom Hrecs]. split; [eauto|]. split; [exact Hroom|].
        split; [|eexists; cbn; split; [reflexivity|]; split; reflexivity].
        intros key'. destruct key' as [| |o s|o s]; cbn.
        -- destruct (decide _); [discriminate | reflexivity].
        -- destruct (decide _); [discriminate | reflexivity].
        -- rewrite Hrecs. destruct (decide ((o, s) = _)) as [Heq|Hne].
           ++ injection Heq as -> ->. destruct (decide _); [reflexivity | contradiction].
           ++ destruct (decide _) as [Heq|_]; [|reflexivity].
              injection Heq as -> ->. contradiction.
        -- destruct (decide _); [discriminate | reflexivity].
      * right. split; [reflexivity|]. split; [eauto|]. split; [exact Hup|].
        split; [|eexists; cbn; split; [reflexivity|]; split; reflexivity].
        intros key'. destruct key'; reflexivity.
    + destruct H as [-> ->]. left. split; [reflexivity|]. split; [|reflexivity].
      intros [user Huser]. discriminate.
  - cbn [ownerKnown].
    pose proof (updateWhere_scoped (orDefault (s_sessionId context) "fallback_session")
                  (s_scope context) (bumpScopeSession t1) (anonymousSessionScopes db)
                  (increments_bumpScopeSession t1)) as Hup.
    destruct (updateWhere _ _ _) as [rows|]; destruct H as [-> ->].
    + destruct Hup as [Hroom Hrecs]. split; [exact I|]. split; [exact Hroom|].
      split; [|eexists; cbn; split; [reflexivity|]; split; reflexivity].
      intros key'. destruct key' as [| |o s|o s]; cbn.
      * destruct (decide _); [discriminate | reflexivity].
      * destruct (decide _); [discriminate | reflexivity].
      * destruct (decide _); [discriminate | reflexivity].
      * rewrite Hrecs. destruct (decide ((o, s) = _)) as [Heq|Hne].
        -- injection Heq as -> ->. destruct (decide _); [reflexivity | contradiction].
        -- destruct (decide _) as [Heq|_]; [|reflexivity].
           injection Heq as -> ->. contradiction.
    + right. split; [reflexivity|]. split; [exact I|]. split; [exact Hup|].
      split; [|eexists; cbn; split; [reflexivity|]; split; reflexivity].
      intros key'. destruct key'; reflexivity.
Qed.


(** X4.  [getScopedUsageStats] looks the plan up under the path
    ['/' + scope]; for every scope that [getRouteScope] assigns to a path
    (pro, enterprise, test_premium, free and cr2-free among them) that path
    is no route of the table, so the statistics that the call returns carry
    the name and the three limits of the anonymous plan.  The call returns
    statistics unless the caller is a user who has no record in the scope
    and no row in [users]. *)
Theorem getScopedUsageStats_shows_anonymous_plan pathname userId sessionId req now
  (db : DB) :
  wp (getScopedUsageStats (scope (getRouteScope pathname)) userId sessionId req)
     (fun _ _ r =>
        match r with
        | Ok stats =>
            ~ refused userId sessionId (scope (getRouteScope pathname)) db /\
            st_scope stats = scope (getRouteScope pathname) /\
            st_planId stats = p_id (getUnifiedPlan "anonymous") /\
            st_planName stats = p_displayName (getUnifiedPlan "anonymous") /\
            st_monthlyLimit stats
              = monthlyOperations (p_limits (getUnifiedPlan "anonymous")) /\
            st_dailyLimit stats
              = maxOperationsPerDay (p_limits (getUnifiedPlan "anonymous")) /\
            st_hourlyLimit stats
              = maxOperationsPerHour (p_limits (getUnifiedPlan "anonymous"))
        | Throw e =>
            e = "violates foreign key constraint" /\
            refused userId sessionId (scope (getRouteScope pathname)) db
        end)
     now db.
Proof using Type.
  unfold getScopedUsageStats, bindE. cbv zeta.
  rewrite getRouteScope_then_anonymous. apply wp_bind.
  eapply wp_mono; [|apply wp_getScopedRow].
  intros now' db' [row|e] H; cbn [wp].
  - destruct H as (Hnot & _). split; [exact Hnot|]. cbn. repeat split.
  - destruct H as (-> & Href & _). split; [reflexivity | exact Href].
Qed.

(** X5.  An operation that [recordScopedOperation] has recorded shows in
    the statistics of the same caller and scope.  The caller has a record
    in the scope, every record of the caller in the scope has room in its
    three counters, and a caller who is a user has a row in [users]: then
    the operation is recorded and [getScopedUsageStats] returns statistics;
    when none of the three windows of the record falls due before they are
    read, they show each of the three counters one higher than it stood
    before the operation. *)
Theorem recorded_operation_shows_in_scoped_stats context req row now (db : DB) :
  scopedRow (s_userId context) (s_sessionId context) (s_scope context) db = Some row ->
  Forall hasRoom
    (records (scopedKey (s_userId context) (s_sessionId context) (s_scope context)) db) ->
  ownerKnown (scopedKey (s_userId context) (s_sessionId context) (s_scope context)) db ->
  wp (bindE (recordScopedOperation context)
        (fun _ => getScopedUsageStats (s_scope context) (s_userId context)
                    (s_sessionId context) req))
     (fun now' _ r =>
        exists stats, r = Ok stats /\
          (scopeNeedsUpdate now' row = false ->
             st_monthlyUsed stats = monthlyUsed row + 1 /\
             st_dailyUsed stats = dailyUsed row + 1 /\
             st_hourlyUsed stats = hourlyUsed row + 1))
     now db.
Proof using Type.
  intros Hrow Hroom Hown. unfold bindE. apply wp_bind.
  assert (Hrec : wp (recordScopedOperation context)
            (fun _ db1 r1 =>
               r1 = Ok tt /\
               exists row1,
                 scopedRow (s_userId context) (s_sessionId context) (s_scope context) db1
                   = Some row1 /\
                 usedOf row1 = bump3 (usedOf row) /\
                 forall t, scopeNeedsUpdate t row1 = scopeNeedsUpdate t row) now db).
  { eapply wp_mono; [|apply wp_recordScopedOperation].
    intros now1 db1 r1 (t0 & t1 & t2 & H). cbv zeta in H.
    revert Hrow Hroom Hown H.
    unfold scopedRow, scopedKey, scopedTable, ownerOf.
    destruct (truthyStr (s_userId context)); cbn [ownerKnown records];
      intros Hrow Hroom Hown H.
    - destruct Hown as [user Huser]. rewrite Huser in H.
      destruct (updateWhere_total (sameScope (default "" (s_userId context)) (s_scope context))
                  (bumpScopeUser t1 t2) (userScopeCounters db)) as [rows Hrows].
      { apply List.Forall_forall. intros r Hin. apply bumpScopeUser_room.
        exact (proj1 (List.Forall_forall _ _) Hroom _ (List.in_map usedOf _ _ Hin)). }
      rewrite Hrows in H. destruct H as [-> ->]. split; [reflexivity|].
      destruct (find_updateWhere _ _ _ _ _ _ (increments_bumpScopeUser t1 t2) Hrows Hrow)
        as (row1 & Hset & Hfind).
      exists row1. split; [exact Hfind|].
      destruct (bumpScopeUser_inv _ _ _ _ Hset) as (_ & _ & Hused & H1 & H2 & H3).
      split; [exact Hused|]. intros t. unfold scopeNeedsUpdate. now rewrite H1, H2, H3.
    - destruct (updateWhere_total
                  (sameScope (orDefault (s_sessionId context) "fallback_session")
                     (s_scope context))
                  (bumpScopeSession t1) (anonymousSessionScopes db)) as [rows Hrows].
      { apply List.Forall_forall. intros r Hin. apply bumpScopeSession_room.
        exact (proj1 (List.Forall_forall _ _) Hroom _ (List.in_map usedOf _ _ Hin)). }
      rewrite Hrows in H. destruct H as [-> ->]. split; [reflexivity|].
      destruct (find_updateWhere _ _ _ _ _ _ (increments_bumpScopeSession t1) Hrows Hrow)
        as (row1 & Hset & Hfind).
      exists row1. split; [exact Hfind|].
      destruct (bumpScopeSession_inv _ _ _ Hset) as (_ & _ & Hused & H1 & H2 & H3).
      split; [exact Hused|]. intros t. unfold scopeNeedsUpdate. now rewrite H1, H2, H3. }
  eapply wp_mono; [|exact Hrec].
  intros now1 db1 r1 (-> & row1 & Hrow1 & Hused & Hsame). clear Hrec.
  unfold getScopedUsageStats, bindE. cbv zeta. apply wp_bind.
  eapply wp_mono; [|apply wp_getScopedRow].
  intros now2 db2 [row2|e] H; cbn [wp].
  - destruct H as (_ & _ & _ & _ & _ & _ & Hq).
    eexists. split; [reflexivity|]. cbn. intros Hquiet.
    destruct (Hq row1 Hrow1) as [-> _]; [now rewrite Hsame|].
    unfold usedOf, bump3, raised in Hused. injection Hused as -> -> ->. auto.
  - destruct H as (_ & (_ & Hnone & _) & _). congruence.
Qed.

End Counters.

(** ** A concrete case *)

(** A plan table in which every plan has the same three limits. *)
Definition demoPlans (planId : string) : Plan :=
  mkPlan planId planId (mkLimits (Some 10) (Some 5) (Some 2)).

Definition demoScopedContext : ScopedOperationContext :=
  mkScopedOperationContext None (Some "s1") "main" "anonymous" compression "jpg" (3 # 2) web.

(** The session [s1] has used 4, 2 and 1 operations in the scope [main];
    one more operation is recorded and the statistics are read, all within
    one second of the record's time stamps. *)
Lemma recorded_operation_shows_in_scoped_stats_witness :
  scopedRow unit Z None (Some "s1") "main" (demoDB ∅ 0) = Some demoScopeRow /\
  Forall hasRoom (records (SessionScopeKey "s1" "main") (demoDB ∅ 0)) /\
  let '(now', _, r) :=
    run_alone (bindE (recordScopedOperation demoScopedContext)
                 (fun _ => getScopedUsageStats unit Z 0 demoPlans "main" None
                             (Some "s1") None))
      1000 (demoDB ∅ 0) in
  exists stats, r = Ok stats /\
    (scopeNeedsUpdate 0 now' demoScopeRow = false ->
       st_monthlyUsed stats = 4 + 1 /\ st_dailyUsed stats = 2 + 1 /\
       st_hourlyUsed stats = 1 + 1).
Proof.
  assert (Hroom : Forall hasRoom (records (SessionScopeKey "s1" "main") (demoDB ∅ 0)))
    by (apply Forall_cons_2; [vm_compute; repeat split | apply Forall_nil_2]).
  split; [reflexivity|]. split; [exact Hroom|].
  exact (wp_run_alone _ _ 1000 (demoDB ∅ 0)
           (recorded_operation_shows_in_scoped_stats unit Z 0 demoPlans
              demoScopedContext None demoScopeRow 1000 (demoDB ∅ 0) eq_refl Hroom I)).
Defined.

End ScopedCounter.

(* ===================================================================== *)
(** * Isolated plans and usage statistics
      (shared/schema.ts, class UnifiedOperationCounter) *)
(* ===================================================================== *)

Module UnifiedStats.
Import JS Clock Conc Http Ledger.

Notation "'await' x <- p 'in' q" := (bind p (fun x => q))
  (at level 10, x name, p at level 100, q at level 200).
Notation "'awaitOk' x <- p 'in' q" := (bindE p (fun x => q))
  (at level 10, x name, p at level 100, q at level 200).

#[local] Arguments users {Sub Lead} d.
#[local] Arguments anonymousSessions {Sub Lead} d.
#[local] Arguments anonymousSessionScopes {Sub Lead} d.
#[local] Arguments userScopeCounters {Sub Lead} d.
#[local] Arguments operationsLog {Sub Lead} d.
#[local] Arguments usageTracking {Sub Lead} d.
#[local] Arguments leadMagnet {Sub Lead} d.
#[local] Arguments with_anonymousSessions {Sub Lead} f db.
#[local] Arguments with_users {Sub Lead} f db.
#[local] Arguments with_operationsLog {Sub Lead} f db.
#[local] Arguments counters {Sub Lead} key db.
#[local] Arguments records {Sub Lead} key db.
#[local] Arguments defined {Sub Lead A} o.
#[local] Arguments insertOperationLog {Sub Lead} uid sid ty fmt size itf planId scope.
#[local] Arguments getAnonymousSession {Sub Lead} tz sha256hex sid req.
#[local] Arguments getUserOperationCounts {Sub Lead} tz uid.
#[local] Arguments u_monthlyOperations {Sub} u.
#[local] Arguments u_dailyOperations {Sub} u.
#[local] Arguments u_hourlyOperations {Sub} u.

(** What [getUsageStats] returns. *)
Record Stats : Type := mkStats {
  st_planId : string;
  st_planName : string;
  st_monthlyUsed : Z;
  st_monthlyLimit : option Z;
  st_dailyUsed : Z;
  st_dailyLimit : option Z;
  st_hourlyUsed : Z;
  st_hourlyLimit : option Z;
  st_isAnonymous : bool;
  st_sessionId : option string   (* only in the answer for a session *)
}.

(** [limit || null] *)
Definition orNullZ (limit : option Z) : option Z :=
  match limit with
  | Some 0 => None
  | _ => limit
  end.

(** [eq(operationsLog.userId, userId)] *)
Definition ofUser (userId : string) (entry : OperationLog) : bool :=
  match ol_userId entry with
  | Some u => String.eqb u userId
  | None => false
  end.

(** [eq(operationsLog.sessionId, finalSessionId)] *)
Definition ofSession (sessionId : string) (entry : OperationLog) : bool :=
  match ol_sessionId entry with
  | Some s => String.eqb s sessionId
  | None => false
  end.

(** [eq(operationsLog.planId, 'cr2-free')] *)
Definition ofCr2 (entry : OperationLog) : bool := String.eqb (ol_planId entry) "cr2-free".

(** The SQL count of the log entries that a WHERE clause selects. *)
Definition countWhere (p : OperationLog -> bool) (log : list OperationLog) : Z :=
  Z.of_nat (length (List.filter p log)).

Section Stats.

Variables Sub Lead : Type.
(** The server's time-zone offset, in milliseconds. *)
Variable tz : Z.
(** [crypto.createHash('sha256').update(s).digest('hex')]. *)
Variable sha256hex : string -> string.
(** [getUnifiedPlan(planId)] of server/unifiedPlanConfig.ts. *)
Variable getUnifiedPlan : string -> ScopedCounter.Plan.
(** [getUserPlan(user)] of server/unifiedPlanConfig.ts. *)
Variable getUserPlan : UserRow Sub -> ScopedCounter.Plan.

Local Abbreviation DB := (Ledger.DB Sub Lead).
Local Abbreviation Plan := ScopedCounter.Plan.
Local Abbreviation p_id := ScopedCounter.p_id.
Local Abbreviation p_displayName := ScopedCounter.p_displayName.
Local Abbreviation p_limits := ScopedCounter.p_limits.

(** [finalSessionId] of [recordOperationWithForcedPlan]: the session id of
    the context, or for a caller without user id and session id the one
    generated from the request (reading [req.headers] of a missing request
    throws a TypeError). *)
Definition finalSessionIdOf (context : OperationContext) : result (option string) :=
  if (negb (truthyStr (userId context)) && negb (truthyStr (ctx_sessionId context)))%bool
  then match req context with
       | Some r => Ok (Some (generateAnonymousSessionId sha256hex r))
       | None => Throw "TypeError"
       end
  else Ok (ctx_sessionId context).

(** [UnifiedOperationCounter.recordOperationWithForcedPlan(context, forcePlanId)] *)
Definition recordOperationWithForcedPlan (context : OperationContext)
  (forcePlanId : string) : prog DB (result unit) :=
  match finalSessionIdOf context with
  | Throw e => Ret (Throw e)
  | Ok finalSessionId =>
      awaitOk _ <- insertOperationLog (orNull (userId context)) (orNull finalSessionId)
             (operationType context) (fileFormat context) (fileSizeMb context)
             (interface context) forcePlanId None in
      Ret (Ok tt)
  end.

(** The two queries on the operations log that both branches of
    [getUsageStats] run for the CR2 converter: all entries of the caller
    with the plan cr2-free, and those of the last 24 hours. *)
Definition cr2Usage (who : OperationLog -> bool) : prog DB (Z * Z) :=
  await cr2MonthlyUsed <- atomic (fun _ db =>
    (db, countWhere (fun entry => who entry && ofCr2 entry)%bool (operationsLog db))) in
  await now <- readClock in
  let oneDayAgo := now - 24 * 60 * 60 * 1000 in
  await cr2DailyUsed <- atomic (fun _ db =>
    (db, countWhere (fun entry => who entry && ofCr2 entry
                                  && (oneDayAgo <=? ol_createdAt entry))%bool
           (operationsLog db))) in
  Ret (cr2MonthlyUsed, cr2DailyUsed).

(** [forcePlanId === 'cr2-free'] *)
Definition isCr2Free (forcePlanId : option string) : bool :=
  match forcePlanId with
  | Some p => String.eqb p "cr2-free"
  | None => false
  end.

(** [UnifiedOperationCounter.getUsageStats(userId, sessionId, req, forcePlanId)].
    A user or a session that comes back [undefined] from its get call makes
    the first field access throw a TypeError. *)
Definition getUsageStats (userId sessionId : option string) (req : option Request)
  (forcePlanId : option string) : prog DB (result Stats) :=
  if truthyStr userId then
    let uid := default "" userId in
    awaitOk user <- getUserOperationCounts tz uid in
    if isCr2Free forcePlanId then
      let plan := getUnifiedPlan (default "" forcePlanId) in
      await used <- cr2Usage (ofUser uid) in
      let '(cr2MonthlyUsed, cr2DailyUsed) := used in
      Ret (Ok (mkStats (p_id plan) (p_displayName plan)
                 cr2MonthlyUsed (monthlyOperations (p_limits plan))
                 cr2DailyUsed (maxOperationsPerDay (p_limits plan))
                 0 (maxOperationsPerHour (p_limits plan))
                 false None))
    else
      awaitOk user <- defined user in
      let plan := if truthyStr forcePlanId then getUnifiedPlan (default "" forcePlanId)
                  else getUserPlan user in
      Ret (Ok (mkStats (p_id plan) (p_displayName plan)
                 (u_monthlyOperations user) (monthlyOperations (p_limits plan))
                 (u_dailyOperations user) (maxOperationsPerDay (p_limits plan))
                 (u_hourlyOperations user) (maxOperationsPerHour (p_limits plan))
                 false None))
  else
    match (if truthyStr sessionId then Ok (default "" sessionId)
           else match req with
                | Some r => Ok (generateAnonymousSessionId sha256hex r)
                | None => Throw "TypeError"
                end) with
    | Throw e => Ret (Throw e)
    | Ok finalSessionId =>
        awaitOk session <- getAnonymousSession tz sha256hex finalSessionId req in
        let plan := if truthyStr forcePlanId then getUnifiedPlan (default "" forcePlanId)
                    else getUnifiedPlan "anonymous" in
        if isCr2Free forcePlanId then
          await used <- cr2Usage (ofSession finalSessionId) in
          let '(cr2MonthlyUsed, cr2DailyUsed) := used in
          Ret (Ok (mkStats (p_id plan) (p_displayName plan)
                     cr2MonthlyUsed (monthlyOperations (p_limits plan))
                     cr2DailyUsed (maxOperationsPerDay (p_limits plan))
                     0 (maxOperationsPerHour (p_limits plan))
                     true (Some finalSessionId)))
        else
          awaitOk session <- defined session in
          Ret (Ok (mkStats (orDefault forcePlanId "anonymous") (p_displayName plan)
                     (monthlyOperationsUsed session) (monthlyOperations (p_limits plan))
                     (dailyOperationsUsed session)
                     (orNullZ (maxOperationsPerDay (p_limits plan)))
                     (hourlyOperationsUsed session)
                     (orNullZ (maxOperationsPerHour (p_limits plan)))
                     true (Some finalSessionId)))
    end.

(** ** Vocabulary of the statements *)

(** The number of log entries of a session that carry the plan cr2-free. *)
Definition cr2Count (sessionId : string) (db : DB) : Z :=
  countWhere (fun entry => ofSession sessionId entry && ofCr2 entry)%bool (operationsLog db).

(** ** Properties *)

Lemma countWhere_app p l1 l2 : countWhere p (l1 ++ l2) = countWhere p l1 + countWhere p l2.
Proof.
  unfold countWhere. rewrite List.filter_app, length_app. lia.
Qed.

Lemma countWhere_le p q l :
  (forall e, p e = true -> q e = true) -> countWhere p l <= countWhere q l.
Proof.
  intros Hpq. unfold countWhere. apply inj_le.
  induction l as [|e l IH]; [cbn; lia|]. cbn [List.filter].
  destruct (p e) eqn:Hp.
  - rewrite (Hpq e Hp). cbn. lia.
  - destruct (q e); cbn; lia.
Qed.

(** What [getAnonymousSession] answers: the session that it found, or
    created with all counters at zero, with the counters reset whose window
    the block of resets decided to reset; the log stays as it was. *)
Lemma wp_getAnonymousSession_answer sid req now (db : DB) :
  wp (getAnonymousSession tz sha256hex sid req)
     (fun _ db' r =>
        operationsLog db' = operationsLog db /\
        exists session updates,
          r = Ok (Some (if needsUpdate updates then setSession updates session
                        else session)) /\
          match anonymousSessions db !! sid with
          | Some found => session = found
          | None =>
              monthlyOperationsUsed session = 0 /\ dailyOperationsUsed session = 0 /\
              hourlyOperationsUsed session = 0
          end)
     now db.
Proof using Type.
  unfold getAnonymousSession, atomic, bindE. cbn [bind wp].
  intros now1 _.
  destruct (anonymousSessions db !! sid) as [s|] eqn:Hfound; cbn [bind wp].
  - apply wp_bind. eapply wp_mono; [|apply wp_decideResets].
    intros now2 db2 updates H. cbn beta in H. destruct H as [-> _].
    destruct (needsUpdate updates) eqn:Hn; cbn [wp].
    + intros now3 _. rewrite Hfound. split; [reflexivity|].
      exists s, updates. rewrite Hn. split; reflexivity.
    + split; [reflexivity|]. exists s, updates. rewrite Hn. split; reflexivity.
  - intros now2 _. rewrite Hfound. cbn [bind wp].
    apply wp_bind. eapply wp_mono; [|apply wp_decideResets].
    intros now3 db3 updates H. cbn beta in H. destruct H as [-> _].
    destruct (needsUpdate updates) eqn:Hn; cbn [wp].
    + intros now4 _. cbn [anonymousSessions with_anonymousSessions].
      rewrite lookup_insert_eq. split; [reflexivity|].
      eexists _, updates. rewrite Hn. split; [reflexivity|]. repeat split.
    + split; [reflexivity|]. eexists _, updates. rewrite Hn.
      split; [reflexivity|]. repeat split.
Qed.

(** X6.  [recordOperationWithForcedPlan] counts nowhere but in the log: it
    appends one entry that carries the forced plan and the scope that the
    column has by default, main, and leaves the records of every user,
    session and scope as they were.  It throws in two cases, and then
    writes nothing at all: there is no user id, no session id and no request
    to derive one from, or the user id is no row of [users], so that the
    INSERT is refused. *)
Theorem recordOperationWithForcedPlan_writes_the_log_only context forcePlanId now
  (db : DB) :
  wp (recordOperationWithForcedPlan context forcePlanId)
     (fun _ db' r =>
        (forall key, records key db' = records key db) /\
        users db' = users db /\ anonymousSessions db' = anonymousSessions db /\
        match r with
        | Ok _ =>
            (truthyStr (userId context) = true ->
               is_Some (users db !! default "" (userId context))) /\
            exists entry,
              operationsLog db' = (operationsLog db ++ [entry])%list /\
              ol_planId entry = forcePlanId /\ ol_scope entry = Some "main" /\
              ol_userId entry = orNull (userId context)
        | Throw e =>
            db' = db /\
            ((e = "TypeError" /\ truthyStr (userId context) = false /\
              truthyStr (ctx_sessionId context) = false /\ req context = None) \/
             (e = "violates foreign key constraint" /\
              truthyStr (userId context) = true /\
              users db !! default "" (userId context) = None))
        end)
     now db.
Proof using Type.
  unfold recordOperationWithForcedPlan, finalSessionIdOf, insertOperationLog, atomic, bindE.
  unfold orNull at 1 3.
  destruct (truthyStr (userId context)) eqn:Hu.
  - destruct (userId context) as [u|] eqn:Huid; [|discriminate Hu].
    cbn [negb andb bind wp default from_option]. unfold id. intros now1 _.
    destruct (users db !! u) as [user|] eqn:Huser; cbn [wp].
    + split; [intros key; apply records_log|]. split; [reflexivity|].
      split; [reflexivity|]. split; [eauto|].
      eexists. cbn. repeat split; reflexivity.
    + split; [reflexivity|]. split; [reflexivity|]. split; [reflexivity|].
      split; [reflexivity|]. right. auto.
  - destruct (truthyStr (ctx_sessionId context)) eqn:Hs; cbn [negb andb].
    + cbn [bind wp]. intros now1 _.
      split; [intros key; apply records_log|]. split; [reflexivity|].
      split; [reflexivity|]. split; [discriminate|].
      eexists. cbn. repeat split; reflexivity.
    + destruct (req context) as [r|] eqn:Hr; cbn [bind wp].
      * intros now1 _.
        split; [intros key; apply records_log|]. split; [reflexivity|].
        split; [reflexivity|]. split; [discriminate|].
        eexists. cbn. repeat split; reflexivity.
      * split; [reflexivity|]. split; [reflexivity|]. split; [reflexivity|].
        split; [reflexivity|]. left. auto.
Qed.

(** X7.  The monthly figure that [getUsageStats] shows for the CR2
    converter is the number of cr2-free entries that the operations log
    holds for the session: an operation that [recordOperationWithForcedPlan]
    has logged raises it by one however much time passes before the
    statistics are read (the figure has no reset), the daily figure never
    exceeds it, and the hourly figure is always zero. *)
Theorem cr2_usage_is_counted_from_the_log context req' now (db : DB) :
  truthyStr (userId context) = false ->
  truthyStr (ctx_sessionId context) = true ->
  wp (bind (recordOperationWithForcedPlan context "cr2-free")
        (fun _ => getUsageStats None (ctx_sessionId context) req' (Some "cr2-free")))
     (fun _ _ r =>
        exists stats, r = Ok stats /\
          st_monthlyUsed stats = cr2Count (default "" (ctx_sessionId context)) db + 1 /\
          st_dailyUsed stats <= st_monthlyUsed stats /\
          st_hourlyUsed stats = 0 /\
          st_planId stats = p_id (getUnifiedPlan "cr2-free"))
     now db.
Proof using Type.
  intros Hu Hs.
  destruct (ctx_sessionId context) as [sid|] eqn:Hsid; [|discriminate Hs].
  unfold recordOperationWithForcedPlan, finalSessionIdOf, insertOperationLog, atomic, bindE.
  unfold orNull at 1. rewrite Hu, Hsid, Hs. cbn [negb andb bind wp]. intros now1 _.
  unfold getUsageStats. change (truthyStr None) with false. cbv iota. rewrite Hs.
  unfold bindE. apply wp_bind.
  eapply wp_mono; [|apply wp_getAnonymousSession_answer].
  intros now2 db2 r2 [Hlog (session & updates & -> & _)]. cbn [isCr2Free].
  change (String.eqb "cr2-free" "cr2-free") with true. cbv iota.
  unfold cr2Usage, atomic, readClock. cbn [bind wp].
  intros now3 _ now4 _ now5 _.
  eexists. split; [reflexivity|]. cbn [st_monthlyUsed st_dailyUsed st_hourlyUsed st_planId].
  rewrite Hlog. cbn [operationsLog with_operationsLog].
  split; [|split; [|split; reflexivity]].
  - unfold cr2Count. rewrite countWhere_app. f_equal.
    assert (Hnull : orNull (Some sid) = Some sid)
      by (unfold orNull; rewrite Hs; reflexivity).
    rewrite Hnull. unfold countWhere, ofSession, ofCr2.
    cbn [List.filter ol_sessionId ol_planId default from_option].
    unfold Datatypes.id. rewrite String.eqb_refl. reflexivity.
  - apply countWhere_le. intros e He. apply andb_true_iff in He as [He _]. exact He.
Qed.

(** X8.  [recordOperation] does not create the record it counts on: for an
    anonymous caller whose session has no row yet it appends its log entry
    and the UPDATE of the counters finds nothing to update, so the operation
    does not show when [getUsageStats] is read next; that call creates the
    row, with all three counters at zero. *)
Theorem recordOperation_before_any_check_is_not_counted getUserPlanId useLeadMagnetCredits
  context now (db : DB) :
  truthyStr (leadMagnetEmail context) = false ->
  truthyStr (userId context) = false ->
  truthyStr (ctx_sessionId context) = true ->
  anonymousSessions db !! default "" (ctx_sessionId context) = None ->
  wp (bind (recordOperation Sub Lead tz sha256hex getUserPlanId useLeadMagnetCredits context)
        (fun _ => getUsageStats None (ctx_sessionId context) (req context) None))
     (fun _ db' r =>
        exists stats, r = Ok stats /\
          st_monthlyUsed stats = 0 /\ st_dailyUsed stats = 0 /\ st_hourlyUsed stats = 0 /\
          length (operationsLog db') = S (length (operationsLog db)))
     now db.
Proof using Type.
  intros Hl Hu Hs Hnone.
  assert (Hnull : orNull (userId context) = None) by (unfold orNull; now rewrite Hu).
  unfold recordOperation, sessionIdOf, insertOperationLog, atomic, readClock, bindE.
  rewrite Hnull, Hl, Hu, Hs. cbn [bind wp].
  destruct (ctx_sessionId context) as [sid|] eqn:Hsid; [|discriminate Hs].
  cbn [default from_option] in *. unfold Datatypes.id in *.
  cbn [bind wp]. intros now1 _ now2 _ now3 _.
  cbn [anonymousSessions with_operationsLog]. unfold updateByKey. rewrite Hnone.
  cbn [wp].
  unfold getUsageStats. cbn [truthyStr]. change (truthyStr (Some sid)) with
    (negb (String.eqb sid "")). cbn [truthyStr] in Hs. rewrite Hs.
  cbn [default from_option]. unfold Datatypes.id.
  unfold bindE. apply wp_bind.
  eapply wp_mono; [|apply wp_getAnonymousSession_answer].
  intros now4 db4 r4 [Hlog (session & updates & -> & Hsession)].
  revert Hsession. cbn [anonymousSessions with_anonymousSessions with_operationsLog].
  rewrite Hnone. intros (Hm & Hd & Hh).
  cbn [isCr2Free truthyStr bind wp defined].
  eexists. split; [reflexivity|].
  cbn [st_monthlyUsed st_dailyUsed st_hourlyUsed]. rewrite Hlog.
  cbn [operationsLog with_anonymousSessions with_operationsLog].
  rewrite length_app. cbn [length].
  destruct (needsUpdate updates); cbn;
    [destruct (up_monthly updates), (up_daily updates), (up_hourly updates)|];
    repeat split; lia.
Qed.

End Stats.

(** ** Concrete cases *)

Definition demoUserPlan (user : UserRow unit) : ScopedCounter.Plan :=
  ScopedCounter.demoPlans "free".

(** The session [s1] converts one CR2 file on an empty log. *)
Lemma cr2_usage_is_counted_from_the_log_witness :
  truthyStr (userId (demoContext None)) = false /\
  truthyStr (ctx_sessionId (demoContext None)) = true /\
  let '(_, _, r) :=
    run_alone
      (bind (recordOperationWithForcedPlan unit Z demoSha (demoContext None) "cr2-free")
         (fun _ => getUsageStats unit Z 0 demoSha ScopedCounter.demoPlans demoUserPlan
                     None (Some "s1") None (Some "cr2-free")))
      1000 (demoDB ∅ 0) in
  exists stats, r = Ok stats /\
    st_monthlyUsed stats = cr2Count unit Z "s1" (demoDB ∅ 0) + 1 /\
    st_dailyUsed stats <= st_monthlyUsed stats /\
    st_hourlyUsed stats = 0 /\
    st_planId stats = "cr2-free".
Proof.
  split; [reflexivity|]. split; [reflexivity|].
  exact (wp_run_alone _ _ 1000 (demoDB ∅ 0)
           (cr2_usage_is_counted_from_the_log unit Z 0 demoSha ScopedCounter.demoPlans
              demoUserPlan (demoContext None) None 1000 (demoDB ∅ 0) eq_refl eq_refl)).
Defined.

(** The session [s1] has no row in [anonymous_sessions]; its operation is
    recorded, and the statistics read next show no operation. *)
Lemma recordOperation_before_any_check_is_not_counted_witness :
  truthyStr (leadMagnetEmail (demoContext None)) = false /\
  truthyStr (userId (demoContext None)) = false /\
  truthyStr (ctx_sessionId (demoContext None)) = true /\
  anonymousSessions (demoDB ∅ 0) !! "s1" = None /\
  let '(_, db', r) :=
    run_alone
      (bind (recordOperation unit Z 0 demoSha demoPlan demoUseCredits (demoContext None))
         (fun _ => getUsageStats unit Z 0 demoSha ScopedCounter.demoPlans demoUserPlan
                     None (Some "s1") None None))
      1000 (demoDB ∅ 0) in
  exists stats, r = Ok stats /\
    st_monthlyUsed stats = 0 /\ st_dailyUsed stats = 0 /\ st_hourlyUsed stats = 0 /\
    length (operationsLog db') = 1%nat.
Proof.
  split; [reflexivity|]. split; [reflexivity|]. split; [reflexivity|].
  split; [reflexivity|].
  exact (wp_run_alone _ _ 1000 (demoDB ∅ 0)
           (recordOperation_before_any_check_is_not_counted unit Z 0 demoSha
              ScopedCounter.demoPlans demoUserPlan demoPlan demoUseCredits
              (demoContext None) 1000 (demoDB ∅ 0) eq_refl eq_refl eq_refl eq_refl)).
Defined.

End UnifiedStats.

(* ===================================================================== *)
(** * The middleware chain (server/scopeMiddleware.ts) *)
(* ===================================================================== *)

Module ScopeChain.
Import JS Http Scope.

(** The three properties that the middleware sets on the request. *)
Record ScopeFields : Type := mkScopeFields {
  trackingScope : option string;
  planId : option string;
  scopeEnforced : option bool
}.

(** What a middleware that only checks does: it calls [next()], or it
    answers. *)
Inductive Verdict : Type :=
| CallNext
| Answer (status : Z) (error : string).

(** [setScopeFromRoute(req, res, next)]: the fields it sets before it calls
    [next()]. *)
Definition setScopeFromRoute (req : Request) : ScopeFields :=
  let pathname := path req in
  let route := ScopedCounter.getRouteScope pathname in
  mkScopeFields (Some (ScopedCounter.scope route)) (Some (ScopedCounter.planId route))
    (Some true).

(** [ensureScopeSet(req, res, next)] *)
Definition ensureScopeSet (fields : ScopeFields) : Verdict :=
  if (negb (default false (scopeEnforced fields))
      || negb (truthyStr (trackingScope fields))
      || negb (truthyStr (planId fields)))%bool
  then Answer 500 "Scope enforcement failed"
  else CallNext.

(** The fields of the request after [requireScopeFromAuth]: set when it
    calls [next()], as they were when it answers itself. *)
Definition fieldsAfter (outcome : Outcome) (before : ScopeFields) : ScopeFields :=
  match outcome with
  | Next scope plan => mkScopeFields (Some scope) (Some plan) (Some true)
  | Respond _ _ => before
  end.

Section Chain.

(** A row of the users table, as [storage.getUser] returns it. *)
Variable User : Type.
Variable getUser : string -> Lookup User.
(** [getUserPlan(user).id] *)
Variable getUserPlan : User -> string.

(** [requireScopeFromReferer(req, res, next)]: two warnings on the console,
    then [requireScopeFromAuth]. *)
Definition requireScopeFromReferer (req : Request) : Outcome * list LogLine :=
  requireScopeFromAuth User getUser getUserPlan req.

(** ** Properties *)

Lemma requestedScope_nonempty req : String.eqb (requestedScope req) "" = false.
Proof.
  unfold requestedScope. cbv zeta.
  destruct (truthyStr (ctx_pageIdentifier req)); cbn [andb].
  - destruct (ctx_pageScope req) as [s|]; cbn [truthyStr].
    + destruct (String.eqb s "") eqn:E; cbn [negb default from_option].
      * destruct (truthy _); [unfold scopeOfPageSource; repeat destruct (strictEq _ _); reflexivity|].
        destruct (truthy _); [unfold scopeOfPlanId; repeat destruct (strictEq _ _); reflexivity|].
        reflexivity.
      * exact E.
    + destruct (truthy _); [unfold scopeOfPageSource; repeat destruct (strictEq _ _); reflexivity|].
      destruct (truthy _); [unfold scopeOfPlanId; repeat destruct (strictEq _ _); reflexivity|].
      reflexivity.
  - destruct (truthy _); [unfold scopeOfPageSource; repeat destruct (strictEq _ _); reflexivity|].
    destruct (truthy _); [unfold scopeOfPlanId; repeat destruct (strictEq _ _); reflexivity|].
    reflexivity.
Qed.

(** X9.  After [setScopeFromRoute] the safety check [ensureScopeSet] never
    answers with its error 500: whatever the path of the request, the route
    table yields a scope and a plan that are not empty. *)
Theorem ensureScopeSet_passes_after_setScopeFromRoute req :
  ensureScopeSet (setScopeFromRoute req) = CallNext.
Proof.
  unfold ensureScopeSet, setScopeFromRoute. cbv zeta.
  cbn [scopeEnforced trackingScope planId default from_option truthyStr].
  unfold Datatypes.id. cbn [negb orb].
  pose proof (ScopedCounter.getRouteScope_nonempty (path req)) as H.
  apply andb_true_iff in H as [H1 H2]. rewrite H1, H2. reflexivity.
Qed.

(** X10.  When [requireScopeFromAuth] lets a request pass, the scope it
    has set is never empty, and [ensureScopeSet] behind it fails exactly
    when the plan id is empty, which only the plan of a stored user can be;
    when it answers itself, the status is 403. *)
Theorem ensureScopeSet_after_requireScopeFromAuth req before :
  match fst (requireScopeFromAuth User getUser getUserPlan req) with
  | Next scope plan =>
      scope <> "" /\
      (ensureScopeSet (fieldsAfter (Next scope plan) before) = CallNext <-> plan <> "") /\
      (plan = "" ->
       exists user, getUser (default "" (userIdOf req)) = Found User user /\
                    getUserPlan user = "")
  | Respond status _ => status = 403
  end.
Proof.
  pose proof (requestedScope_nonempty req) as Hs.
  assert (Hcheck : forall scope plan,
             String.eqb scope "" = false ->
             (ensureScopeSet (fieldsAfter (Next scope plan) before) = CallNext
              <-> plan <> "")).
  { intros scope plan E. unfold ensureScopeSet, fieldsAfter.
    cbn [scopeEnforced trackingScope planId default from_option truthyStr negb orb].
    rewrite E. unfold Datatypes.id. cbn [negb orb].
    destruct (String.eqb_spec plan ""); cbn [negb]; split; intros H;
      congruence. }
  assert (Hne : forall scope, String.eqb scope "" = false -> scope <> "")
    by (intros scope E ->; discriminate E).
  unfold requireScopeFromAuth. cbv zeta.
  destruct (truthyStr (userIdOf req)).
  - destruct (getUser (default "" (userIdOf req))) as [user| |] eqn:Hget.
    + repeat (match goal with |- context [if ?c then _ else _] => destruct c end;
              cbn [fst]; try reflexivity).
      split; [auto|]. split; [auto|]. intros Hp. exists user. auto.
    + destruct (includes _ _); cbn [fst]; [reflexivity|].
      split; [auto|]. split; [auto|]. discriminate.
    + cbn [fst]. split; [discriminate|]. split; [apply Hcheck; reflexivity|]. discriminate.
  - destruct (negb (includes publicScopes (requestedScope req))); cbn [fst]; [reflexivity|].
    split; [auto|]. split; [auto|].
    destruct (String.eqb (requestedScope req) "cr2-free"); discriminate.
Qed.

(** X11.  Who gets a paid plan or a paid scope from
    [requireScopeFromAuth].  A paid plan id (pro, enterprise, test_premium)
    is set only for a user that storage knows and whose own plan it is.  A
    paid scope is set only for such a user with the plan of that name, with
    one exception: the scope pro is also set, with the plan anonymous, for
    a user id that storage does not know (that branch refuses the scopes
    premium, enterprise and test_premium). *)
Theorem paid_scope_needs_matching_plan req scope plan :
  fst (requireScopeFromAuth User getUser getUserPlan req) = Next scope plan ->
  (ScopedCounter.paidPlan plan = true ->
   exists user, getUser (default "" (userIdOf req)) = Found User user /\
                getUserPlan user = plan) /\
  (ScopedCounter.paidPlan scope = true ->
   (exists user, getUser (default "" (userIdOf req)) = Found User user /\
                 getUserPlan user = scope /\ plan = scope) \/
   (scope = "pro" /\ plan = "anonymous" /\ truthyStr (userIdOf req) = true /\
    getUser (default "" (userIdOf req)) = Missing User)).
Proof.
  unfold requireScopeFromAuth. cbv zeta.
  destruct (truthyStr (userIdOf req)) eqn:Hu.
  - destruct (getUser (default "" (userIdOf req))) as [user| |] eqn:Hget.
    + destruct (includes ["pro"; "enterprise"; "test_premium"; "free"] (requestedScope req))
        eqn:Hauth; cbn [andb].
      * destruct (String.eqb_spec (requestedScope req) "pro") as [Hpro|Hpro];
        destruct (String.eqb_spec (requestedScope req) "enterprise") as [Hent|Hent];
        destruct (String.eqb_spec (requestedScope req) "test_premium") as [Htp|Htp];
        destruct (String.eqb_spec (getUserPlan user) "pro") as [Hp1|Hp1];
        destruct (String.eqb_spec (getUserPlan user) "enterprise") as [Hp2|Hp2];
        destruct (String.eqb_spec (getUserPlan user) "test_premium") as [Hp3|Hp3];
          cbn [negb andb fst]; intros H; try discriminate H; injection H as <- <-;
          (split; [intros _; exists user; auto|]); intros Hpaid;
          try (left; exists user; split; [reflexivity|]; split; congruence);
          exfalso; revert Hpaid; unfold ScopedCounter.paidPlan, ScopedCounter.oneOf;
          cbn [existsb];
          rewrite ?(proj2 (String.eqb_neq _ _) Hpro), ?(proj2 (String.eqb_neq _ _) Hent),
            ?(proj2 (String.eqb_neq _ _) Htp); discriminate.
      * cbn [fst]. intros H. injection H as <- <-.
        split; [intros _; exists user; auto|]. intros Hpaid. exfalso.
        revert Hauth Hpaid. unfold includes, ScopedCounter.paidPlan, ScopedCounter.oneOf.
        cbn [existsb]. rewrite !orb_false_r.
        destruct (String.eqb (requestedScope req) "pro"),
                 (String.eqb (requestedScope req) "enterprise"),
                 (String.eqb (requestedScope req) "test_premium"); discriminate.
    + destruct (includes ["premium"; "enterprise"; "test_premium"] (requestedScope req))
        eqn:Hin; cbn [fst]; [discriminate|].
      intros H. injection H as <- <-. split; [discriminate|]. intros Hpaid. right.
      revert Hin Hpaid. unfold includes, ScopedCounter.paidPlan, ScopedCounter.oneOf.
      cbn [existsb]. rewrite !orb_false_r.
      destruct (String.eqb_spec (requestedScope req) "pro") as [->|];
        [auto|].
      destruct (String.eqb (requestedScope req) "enterprise"),
               (String.eqb (requestedScope req) "test_premium");
        rewrite ?orb_true_r; cbn; discriminate.
    + cbn [fst]. intros H. injection H as <- <-. split; discriminate.
  - destruct (negb (includes publicScopes (requestedScope req))) eqn:Hpub; cbn [fst];
      [discriminate|].
    intros H. injection H as <- <-. split.
    + destruct (String.eqb (requestedScope req) "cr2-free"); discriminate.
    + intros Hpaid. exfalso. revert Hpub Hpaid.
      unfold includes, publicScopes, ScopedCounter.paidPlan, ScopedCounter.oneOf.
      cbn [existsb]. rewrite !orb_false_r.
      destruct (String.eqb_spec (requestedScope req) "main") as [->|];
        [discriminate|].
      destruct (String.eqb_spec (requestedScope req) "free") as [->|];
        [discriminate|].
      destruct (String.eqb_spec (requestedScope req) "cr2-free") as [->|];
        [discriminate|].
      discriminate.
Qed.

End Chain.

(** ** A concrete case *)

(** A request that carries the user id [ghost] in its session and names the
    page source premium; storage knows no users. *)
Definition ghostRequest : Request :=
  mkRequest "/api/compress" JUndefined (Some "Mozilla/5.0") JUndefined JUndefined
    JUndefined (JStr "premium") JUndefined JUndefined JUndefined None None
    (Some "203.0.113.7") None false None (Some "ghost") None.

Lemma paid_scope_needs_matching_plan_witness :
  fst (requireScopeFromAuth unit noUsers freePlan ghostRequest) = Next "pro" "anonymous" /\
  ("pro" = "pro" /\ "anonymous" = "anonymous" /\
   truthyStr (userIdOf ghostRequest) = true /\
   noUsers (default "" (userIdOf ghostRequest)) = Missing unit).
Proof.
  split; [reflexivity|].
  destruct (proj2 (paid_scope_needs_matching_plan unit noUsers freePlan ghostRequest
                     "pro" "anonymous" eq_refl) eq_refl)
    as [(user & Hfound & _) | H].
  - discriminate Hfound.
  - exact H.
Defined.

End ScopeChain.

(* ===================================================================== *)
(** * Low-credit warnings and the usage record (server/usageTracker.ts) *)
(* ===================================================================== *)

Module CreditWarnings.
Import JS Clock Conc.

Notation "'await' x <- p 'in' q" := (bind p (fun x => q))
  (at level 10, x name, p at level 100, q at level 200).

(** ['warning' | 'urgent' | 'critical'] *)
Inductive Severity : Type := warning | urgent | critical.

Definition severityName (severity : Severity) : string :=
  match severity with
  | warning => "warning"
  | urgent => "urgent"
  | critical => "critical"
  end.

(** An entry of [warningEmailCache]. *)
Record SentWarning : Type := mkSentWarning {
  severity : Severity;
  credits : Z;
  sentAt : Z
}.

(** The columns of a user that the warning reads. *)
Record Account : Type := mkAccount {
  email : option string;
  firstName : option string
}.

(** A call of [emailService.sendCreditLowWarning]. *)
Record Mail : Type := mkMail {
  m_to : string;
  m_firstName : string;
  m_creditsInUnits : Z;
  m_severity : Severity
}.

(** The static [warningEmailCache] of the class, and the mails that the
    e-mail service has accepted. *)
Record WarningState : Type := mkWarningState {
  warningEmailCache : gmap string SentWarning;
  outbox : list Mail
}.

Definition msPer48Hours : Z := 48 * 60 * 60 * 1000.

(** [`${userId}_${severity}`] *)
Definition cacheKey (userId : string) (severity : Severity) : string :=
  userId ++ "_" ++ severityName severity.

(** [resendThreshold], in hours. *)
Definition resendThreshold (severity : Severity) : Z :=
  match severity with
  | critical => 6
  | urgent => 12
  | warning => 24
  end.

(** The thresholds of [checkAndSendCreditWarnings], on whole credits. *)
Definition severityOf (creditsInUnits : Z) : option Severity :=
  if creditsInUnits =? 0 then Some critical
  else if creditsInUnits <=? 5 then Some urgent
  else if creditsInUnits <=? 10 then Some warning
  else None.

(** [UsageTracker.shouldSendWarningEmail(userId, severity, currentCredits)] *)
Definition shouldSendWarningEmail (userId : string) (severity : Severity)
  (currentCredits : Z) : prog WarningState bool :=
  atomic (fun now s =>
    (s, match warningEmailCache s !! cacheKey userId severity with
        | None => true
        | Some cached =>
            let timeDiff := now - sentAt cached in
            let hoursDiff := (inject_Z timeDiff / inject_Z (1000 * 60 * 60))%Q in
            Qle_bool (inject_Z (resendThreshold severity)) hoursDiff
        end)).

(** [UsageTracker.recordWarningEmailSent(userId, severity, currentCredits)]:
    the entry is set, then every entry older than 48 hours is deleted. *)
Definition recordWarningEmailSent (userId : string) (severity : Severity)
  (currentCredits : Z) : prog WarningState unit :=
  atomic (fun now s =>
    let cache := <[cacheKey userId severity := mkSentWarning severity currentCredits now]>
                   (warningEmailCache s) in
    (mkWarningState (filter (fun entry => now - sentAt entry.2 <= msPer48Hours) cache) (outbox s),
     tt)).

Section Warnings.

(** [storage.getUser(userId)]: the user, [undefined], or an exception. *)
Variable getUser : string -> Scope.Lookup Account.
(** Whether [emailService.sendCreditLowWarning] accepts a mail, or throws. *)
Variable accepts : Mail -> bool.

(** [UsageTracker.checkAndSendCreditWarnings(userId, currentCredits)]; every
    exception ends in the [catch] that writes it to the console. *)
Definition checkAndSendCreditWarnings (userId : string) (currentCredits : Z)
  : prog WarningState unit :=
  await user <- atomic (fun _ s => (s, getUser userId)) in
  match user with
  | Scope.Found _ user =>
      if negb (truthyStr (email user)) then Ret tt
      else
        let creditsInUnits := currentCredits / 100 in
        match severityOf creditsInUnits with
        | None => Ret tt
        | Some severity =>
            await shouldSend <- shouldSendWarningEmail userId severity creditsInUnits in
            if shouldSend : bool then
              let mail := mkMail (default "" (email user))
                            (orDefault (firstName user) "Valued Customer")
                            creditsInUnits severity in
              await sent <- atomic (fun _ s =>
                if accepts mail
                then (mkWarningState (warningEmailCache s) (outbox s ++ [mail]), true)
                else (s, false)) in
              if sent : bool then recordWarningEmailSent userId severity creditsInUnits
              else Ret tt
            else Ret tt
        end
  | _ => Ret tt
  end.

(** ** Vocabulary of the statements *)

(** The band of a balance in cents. *)
Definition bandOf (cents : Z) : option Severity :=
  if (0 <=? cents) && (cents <? 100) then Some critical
  else if cents <? 600 then Some urgent
  else if cents <? 1100 then Some warning
  else None.

(** The time between two warnings of one severity, in milliseconds. *)
Definition resendInterval (severity : Severity) : Z :=
  resendThreshold severity * (60 * 60 * 1000).

(** One mail has been sent and noted down at a time between [t1] and [t2]. *)
Definition sentOne (userId : string) (mail : Mail) (t1 t2 : Z) (s s' : WarningState) : Prop :=
  outbox s' = (outbox s ++ [mail])%list /\
  exists t, t1 <= t /\ t <= t2 /\
    warningEmailCache s' !! cacheKey userId (m_severity mail)
    = Some (mkSentWarning (m_severity mail) (m_creditsInUnits mail) t).

(** ** Properties *)

Lemma severityOf_bandOf cents : severityOf (cents / 100) = bandOf cents.
Proof.
  unfold severityOf, bandOf.
  pose proof (Z.div_mod cents 100 ltac:(lia)) as Hdm.
  pose proof (Z.mod_pos_bound cents 100 ltac:(lia)) as Hm.
  destruct (Z.eqb_spec (cents / 100) 0) as [E|E].
  - destruct (Z.leb_spec 0 cents), (Z.ltb_spec cents 100); cbn [andb]; try reflexivity; lia.
  - destruct (Z.leb_spec 0 cents), (Z.ltb_spec cents 100); cbn [andb]; try lia;
      destruct (Z.leb_spec (cents / 100) 5), (Z.ltb_spec cents 600); try lia;
      try reflexivity;
      destruct (Z.leb_spec (cents / 100) 10), (Z.ltb_spec cents 1100); try lia;
      reflexivity.
Qed.

Lemma hoursDiff_reached threshold timeDiff :
  Qle_bool (inject_Z threshold) (inject_Z timeDiff / inject_Z (1000 * 60 * 60))%Q = true
  <-> threshold * (60 * 60 * 1000) <= timeDiff.
Proof.
  rewrite Qle_bool_iff. change (1000 * 60 * 60) with 3600000.
  unfold Qle, Qdiv, Qmult, Qinv, inject_Z. cbn [Qnum Qden].
  change (Z.pos (1 * 3600000)) with 3600000. lia.
Qed.

(** X12.  [checkAndSendCreditWarnings] sends at most one mail per call,
    and only to a user with an e-mail address; the severity of the mail is
    the band of the balance in cents: critical from 0 to 99, urgent below
    0 and from 100 to 599, warning from 600 to 1099.  From 1100 cents on
    (eleven whole credits) nothing is sent and nothing is noted down. *)
Theorem warning_severity_follows_the_balance userId currentCredits now s :
  wp (checkAndSendCreditWarnings userId currentCredits)
     (fun _ s' _ =>
        s' = s \/
        exists user mail,
          getUser userId = Scope.Found Account user /\
          email user = Some (m_to mail) /\ m_to mail <> "" /\
          bandOf currentCredits = Some (m_severity mail) /\
          m_creditsInUnits mail = currentCredits / 100 /\
          outbox s' = (outbox s ++ [mail])%list)
     now s /\
  (1100 <= currentCredits ->
   wp (checkAndSendCreditWarnings userId currentCredits) (fun _ s' _ => s' = s) now s).
Proof.
  unfold checkAndSendCreditWarnings, shouldSendWarningEmail, recordWarningEmailSent, atomic.
  cbv zeta. rewrite severityOf_bandOf. split.
  - cbn [bind wp]. intros now1 _.
    destruct (getUser userId) as [user| |] eqn:Hget; cbn [wp]; auto.
    destruct (email user) as [addr|] eqn:Hmail; cbn [truthyStr]; [|cbn; auto].
    destruct (String.eqb_spec addr "") as [->|Hne]; cbn [negb bind wp]; auto.
    destruct (bandOf currentCredits) as [sev|] eqn:Hband; cbn [bind wp]; auto.
    intros now2 _.
    match goal with |- context [if ?c then _ else _] => destruct c end; cbn [bind wp]; auto.
    intros now3 _. destruct (accepts _); cbn [bind wp]; auto.
    intros now4 _. right. eexists user, _.
    split; [reflexivity|]. cbn [m_to m_severity m_creditsInUnits outbox default from_option].
    unfold Datatypes.id. repeat split; auto.
  - intros Hrich. assert (Hnone : bandOf currentCredits = None).
    { unfold bandOf. destruct (Z.leb_spec 0 currentCredits), (Z.ltb_spec currentCredits 100),
        (Z.ltb_spec currentCredits 600), (Z.ltb_spec currentCredits 1100); cbn; try lia;
        reflexivity. }
    rewrite Hnone. cbn [bind wp]. intros now1 _.
    destruct (getUser userId) as [user| |]; cbn [wp]; auto.
    destruct (negb (truthyStr (email user))); cbn [wp]; auto.
Qed.

(** X13.  A warning of one severity is repeated only after its interval:
    6 hours for critical, 12 for urgent, 24 for warning.  For a user with
    an e-mail address whose balance is in the band of [severity], and an
    e-mail service that accepts the mail: when no warning of that severity
    has been noted down for the user, or the call starts once the interval
    since the noted time has passed, exactly one mail is sent and its time
    is noted down; when the call ends before the interval has passed,
    nothing is sent and nothing changes. *)
Theorem warning_is_repeated_only_after_its_interval userId currentCredits severity user
  now s :
  getUser userId = Scope.Found Account user ->
  truthyStr (email user) = true ->
  bandOf currentCredits = Some severity ->
  (forall mail, accepts mail = true) ->
  wp (checkAndSendCreditWarnings userId currentCredits)
     (fun now' s' _ =>
        let mail := mkMail (default "" (email user))
                      (orDefault (firstName user) "Valued Customer")
                      (currentCredits / 100) severity in
        match warningEmailCache s !! cacheKey userId severity with
        | None => sentOne userId mail now now' s s'
        | Some cached =>
            (sentAt cached + resendInterval severity <= now ->
             sentOne userId mail now now' s s') /\
            (now' < sentAt cached + resendInterval severity -> s' = s)
        end)
     now s.
Proof.
  intros Hget Hmail Hband Haccepts.
  unfold checkAndSendCreditWarnings, shouldSendWarningEmail, recordWarningEmailSent, atomic.
  cbv zeta. rewrite severityOf_bandOf, Hband. cbn [bind wp]. intros now1 H1.
  rewrite Hget, Hmail. cbn [negb bind wp]. intros now2 H2.
  assert (Hsend : forall s0, warningEmailCache s0 = warningEmailCache s ->
            outbox s0 = outbox s ->
            wp (bind (atomic (fun _ s1 =>
                        if accepts (mkMail (default "" (email user))
                                      (orDefault (firstName user) "Valued Customer")
                                      (currentCredits / 100) severity)
                        then (mkWarningState (warningEmailCache s1)
                                (outbox s1 ++
                                 [mkMail (default "" (email user))
                                    (orDefault (firstName user) "Valued Customer")
                                    (currentCredits / 100) severity]), true)
                        else (s1, false)))
                    (fun sent => if sent : bool
                                 then atomic (fun now0 s1 =>
                                   (mkWarningState
                                      (filter (fun entry =>
                                                 now0 - sentAt entry.2 <= msPer48Hours)
                                         (<[cacheKey userId severity :=
                                              mkSentWarning severity (currentCredits / 100)
                                                now0]> (warningEmailCache s1)))
                                      (outbox s1), tt))
                                 else Ret tt))
               (fun now' s' _ =>
                  now2 <= now' /\
                  sentOne userId
                    (mkMail (default "" (email user))
                       (orDefault (firstName user) "Valued Customer")
                       (currentCredits / 100) severity) now now' s s')
               now2 s0).
  { intros s0 Hc Ho. unfold atomic. cbn [bind wp]. intros now3 H3.
    rewrite Haccepts. cbn [bind wp]. intros now4 H4.
    split; [lia|].
    unfold sentOne. cbn [outbox warningEmailCache m_severity m_creditsInUnits].
    rewrite Ho. split; [reflexivity|]. exists now4.
    split; [lia|]. split; [lia|].
    apply map_lookup_filter_Some_2; [apply lookup_insert_eq|].
    cbn. unfold msPer48Hours. lia. }
  destruct (warningEmailCache s !! cacheKey userId severity) as [cached|] eqn:Hcached.
  - match goal with |- context [Qle_bool ?a ?b] => destruct (Qle_bool a b) eqn:Hq end.
    + apply hoursDiff_reached in Hq. eapply wp_mono; [|apply (Hsend s); reflexivity].
      cbn beta. intros now' s' _ [Hle Hone]. split; [auto|].
      intros Hearly. exfalso. unfold resendInterval in Hearly. lia.
    + cbn [wp]. split; [|reflexivity].
      intros Hlate. exfalso.
      assert (Hq' : Qle_bool (inject_Z (resendThreshold severity))
                      (inject_Z (now2 - sentAt cached) / inject_Z (1000 * 60 * 60))%Q = true).
      { apply hoursDiff_reached. unfold resendInterval in Hlate. lia. }
      congruence.
  - eapply wp_mono; [|apply (Hsend s); reflexivity].
    cbn beta. intros now' s' _ [_ Hone]. exact Hone.
Qed.

End Warnings.

(** ** A concrete case *)

Definition demoAccounts (userId : string) : Scope.Lookup Account :=
  if String.eqb userId "u1"
  then Scope.Found Account (mkAccount (Some "ann@example.org") None)
  else Scope.Missing Account.

Definition acceptAll (mail : Mail) : bool := true.

(** The user [u1] was warned of an urgent balance at time 0; a call eleven
    hours later with 450 cents left changes nothing. *)
Lemma warning_is_repeated_only_after_its_interval_witness :
  let s := mkWarningState {[ cacheKey "u1" urgent := mkSentWarning urgent 4 0 ]} [] in
  demoAccounts "u1" = Scope.Found Account (mkAccount (Some "ann@example.org") None) /\
  bandOf 450 = Some urgent /\
  run_alone (checkAndSendCreditWarnings demoAccounts acceptAll "u1" 450)
    (11 * 60 * 60 * 1000) s = (11 * 60 * 60 * 1000, s, tt).
Proof.
  cbv zeta.
  set (s := mkWarningState {[ cacheKey "u1" urgent := mkSentWarning urgent 4 0 ]} []).
  split; [reflexivity|]. split; [reflexivity|].
  pose proof (wp_run_alone _ _ (11 * 60 * 60 * 1000) s
                (warning_is_repeated_only_after_its_interval demoAccounts acceptAll
                   "u1" 450 urgent (mkAccount (Some "ann@example.org") None)
                   (11 * 60 * 60 * 1000) s eq_refl eq_refl eq_refl (fun _ => eq_refl)))
    as H.
  destruct (run_alone _ _ s) as [[now' s'] []] eqn:E.
  assert (Hnow : now' = 11 * 60 * 60 * 1000).
  { change now' with (fst (fst (now', s', tt))). rewrite <- E. vm_compute. reflexivity. }
  assert (Hc : warningEmailCache s !! cacheKey "u1" urgent = Some (mkSentWarning urgent 4 0))
    by (vm_compute; reflexivity).
  cbv zeta in H. rewrite Hc in H. destruct H as [_ H].
  rewrite (H ltac:(rewrite Hnow; vm_compute; reflexivity)), Hnow. reflexivity.
Defined.

End CreditWarnings.

(* ===================================================================== *)
(** * The usage record of [UsageTracker.getUsage] *)
(* ===================================================================== *)

Module UsageRecord.
Import JS Clock Conc Ledger.

#[local] Arguments users {Sub Lead} d.
#[local] Arguments usageTracking {Sub Lead} d.
#[local] Arguments with_usageTracking {Sub Lead} f db.
#[local] Arguments u_purchasedCredits {Sub} u.

Section Record.

Variables Sub Lead : Type.
(** The server's time-zone offset, in milliseconds. *)
Variable tz : Z.

Local Abbreviation DB := (Ledger.DB Sub Lead).

(** ** Vocabulary of the statements *)

(** The number of rows of [usage_tracking] that the WHERE clause of
    [getUsage] selects. *)
Definition matching (uid fingerprint : option string) (db : DB) : nat :=
  length (List.filter (whereClause uid fingerprint) (usageTracking db)).

(** The purchased credits of the caller, in cents. *)
Definition purchasedCents (uid : option string) (db : DB) : Z :=
  if truthyStr uid then
    match users db !! default "" uid with
    | Some user => u_purchasedCredits user * 100
    | None => 0
    end
  else 0.

(** ** Properties *)

Lemma find_none_filter {A} (p : A -> bool) (l : list A) :
  List.find p l = None -> List.filter p l = [].
Proof.
  induction l as [|a l IH]; [reflexivity|]. cbn [List.find List.filter].
  destruct (p a); [discriminate|exact IH].
Qed.

Lemma find_some_filter {A} (p : A -> bool) (l : list A) a :
  List.find p l = Some a -> (1 <= length (List.filter p l))%nat.
Proof.
  induction l as [|b l IH]; [discriminate|]. cbn [List.find List.filter].
  destruct (p b); [cbn; lia | exact IH].
Qed.

Lemma whereClause_reset uid fp now r :
  whereClause uid fp (resetUsageRow now r) = whereClause uid fp r.
Proof using Type. reflexivity. Qed.

Lemma find_map_reset uid fp now rows :
  List.find (whereClause uid fp)
    (map (fun r => if whereClause uid fp r then resetUsageRow now r else r) rows)
  = resetUsageRow now <$> List.find (whereClause uid fp) rows.
Proof using Type.
  induction rows as [|r rows IH]; [reflexivity|]. cbn [map List.find].
  destruct (whereClause uid fp r) eqn:Hr.
  - rewrite whereClause_reset, Hr. reflexivity.
  - rewrite Hr. exact IH.
Qed.

Lemma filter_map_reset uid fp now rows :
  length (List.filter (whereClause uid fp)
            (map (fun r => if whereClause uid fp r then resetUsageRow now r else r) rows))
  = length (List.filter (whereClause uid fp) rows).
Proof using Type.
  induction rows as [|r rows IH]; [reflexivity|]. cbn [map List.filter].
  destruct (whereClause uid fp r) eqn:Hr.
  - rewrite whereClause_reset, Hr. cbn. rewrite IH. reflexivity.
  - rewrite Hr. exact IH.
Qed.

Lemma whereClause_created uid fp now :
  (truthyStr uid || truthyStr fp)%bool = true ->
  whereClause uid fp
    (mkUsageTracking (orNull uid) (orNull fp) 0 0 0 0 0 (Some now) (Some now)) = true.
Proof using Type.
  unfold whereClause, orNull. cbn [ut_userId ut_fingerprint].
  destruct (truthyStr uid) eqn:Hu.
  - intros _. destruct uid as [u|]; [apply String.eqb_refl | discriminate Hu].
  - cbn [orb]. intros Hf. rewrite Hf.
    destruct fp as [f|]; [apply String.eqb_refl | discriminate Hf].
Qed.

(** X14.  [getUsage] finds or creates the usage record of its caller.
    Without a user id and without a fingerprint it throws and writes
    nothing.  Otherwise, when rows matched the caller before, it answers, no
    row is added (a daily reset rewrites the matching rows in place) and the
    available credits are not negative.  When no row matched, the record is
    created: exactly one matching row exists afterwards, all totals are
    zero and the available credits are 9000 cents plus the purchased credits
    of the user; but for a user id that is no row of [users] the INSERT of
    the record is refused, and the call throws and writes nothing. *)
Theorem getUsage_finds_or_creates_the_record uid fingerprint now (db : DB) :
  wp (getUsage Sub Lead tz uid fingerprint)
     (fun _ db' r =>
        if (negb (truthyStr uid) && negb (truthyStr fingerprint))%bool
        then r = Throw "Either userId or fingerprint must be provided" /\ db' = db
        else
          users db' = users db /\
          match r with
          | Ok stats =>
              matching uid fingerprint db' = Nat.max 1 (matching uid fingerprint db) /\
              (matching uid fingerprint db = 0%nat ->
                 (truthyStr uid = true -> is_Some (users db !! default "" uid)) /\
                 totalCompressions stats = 0 /\ totalConversions stats = 0 /\
                 dailyCompressions stats = 0 /\ dailyConversions stats = 0 /\
                 currentCredits stats = 90 * 100 + purchasedCents uid db) /\
              (matching uid fingerprint db <> 0%nat -> 0 <= currentCredits stats)
          | Throw e =>
              e = "violates foreign key constraint" /\ db' = db /\
              matching uid fingerprint db = 0%nat /\
              truthyStr uid = true /\ users db !! default "" uid = None
          end)
     now db.
Proof using Type.
  unfold getUsage.
  destruct (negb (truthyStr uid) && negb (truthyStr fingerprint))%bool eqn:Hguard;
    [cbn [wp]; auto|].
  assert (Hid : (truthyStr uid || truthyStr fingerprint)%bool = true)
    by (destruct (truthyStr uid), (truthyStr fingerprint); cbn in *; congruence).
  unfold matching. apply wp_bind. unfold atomic at 1. cbn [wp]. intros now1 _.
  apply wp_bind.
  apply (wp_mono _ (fun _ db' purchased => db' = db /\ purchased = purchasedCents uid db)).
  2:{ unfold purchasedCents, atomic. destruct (truthyStr uid); cbn [wp]; auto. }
  intros now2 db2 purchased [-> ->].
  destruct (List.find (whereClause uid fingerprint) (usageTracking db)) as [record|]
    eqn:Hfind.
  - pose proof (find_some_filter _ _ _ Hfind) as Hpos.
    unfold dateOrNow. unfold atomic, readClock, bindE, defined. cbn [bind wp]. intros now3 _.
    destruct (ut_lastResetDate record) as [lastReset|]; cbn [bind wp].
    + destruct (usageNeedsReset tz now3 lastReset); cbn [bind wp].
      * intros now4 _. rewrite find_map_reset, Hfind.
        cbn [fmap option_fmap option_map bind wp].
        split; [reflexivity|]. cbn [usageTracking with_usageTracking].
        rewrite filter_map_reset. split; [lia|]. split; [lia|]. intros _. cbn. lia.
      * split; [reflexivity|]. split; [lia|]. split; [lia|]. intros _. cbn. lia.
    + intros now4 _. destruct (usageNeedsReset tz now3 now4); cbn [bind wp].
      * intros now5 _. rewrite find_map_reset, Hfind.
        cbn [fmap option_fmap option_map bind wp].
        split; [reflexivity|]. cbn [usageTracking with_usageTracking].
        rewrite filter_map_reset. split; [lia|]. split; [lia|]. intros _. cbn. lia.
      * intros now5 _. split; [reflexivity|]. split; [lia|]. split; [lia|].
        intros _. cbn. lia.
  - pose proof (find_none_filter _ _ Hfind) as Hnone.
    unfold dateOrNow. unfold atomic, readClock, bindE. cbn [bind wp]. intros now3 _.
    assert (Hcreated :
      wp (Ret (Ok (mkUsageStats 0 0 0 0 now3 (90 * 100 + purchasedCents uid db))))
         (fun _ db' r =>
            users db' = users db /\
            match r with
            | Ok stats =>
                length (List.filter (whereClause uid fingerprint) (usageTracking db'))
                = Nat.max 1 (length (List.filter (whereClause uid fingerprint)
                                       (usageTracking db))) /\
                (length (List.filter (whereClause uid fingerprint) (usageTracking db))
                 = 0%nat ->
                   totalCompressions stats = 0 /\ totalConversions stats = 0 /\
                   dailyCompressions stats = 0 /\ dailyConversions stats = 0 /\
                   currentCredits stats = 90 * 100 + purchasedCents uid db) /\
                (length (List.filter (whereClause uid fingerprint) (usageTracking db))
                 <> 0%nat -> 0 <= currentCredits stats)
            | Throw e => False
            end)
         now3
         (with_usageTracking
            (fun l => (l ++ [mkUsageTracking (orNull uid) (orNull fingerprint) 0 0 0 0 0
                               (Some now3) (Some now3)])%list) db)).
    { cbn [wp]. split; [reflexivity|]. cbn [usageTracking with_usageTracking].
      rewrite List.filter_app, length_app, Hnone. cbn [List.filter].
      rewrite (whereClause_created uid fingerprint now3 Hid). cbn [length].
      split; [reflexivity|]. split; [intros _; cbn; repeat split|].
      intros H. exfalso. apply H. reflexivity. }
    cbn [wp] in Hcreated. destruct Hcreated as (Husers & Hcount & Hzero & Hpos).
    unfold orNull at 1. destruct (truthyStr uid) eqn:Hu.
    + destruct uid as [u|]; [|discriminate Hu]. cbn [default from_option]. unfold id.
      destruct (users db !! u) as [user|] eqn:Huser; cbn [bind wp].
      * split; [exact Husers|]. split; [exact Hcount|]. split; [|exact Hpos].
        intros Hz. split; [eauto | exact (Hzero Hz)].
      * split; [reflexivity|]. split; [reflexivity|]. split; [reflexivity|].
        rewrite Hnone. auto.
    + cbn [bind wp]. split; [exact Husers|]. split; [exact Hcount|]. split; [|exact Hpos].
      intros Hz. split; [discriminate | exact (Hzero Hz)].
Qed.

End Record.

End UsageRecord.

(* ===================================================================== *)
(** * The two cache tiers at work
      (attached_assets/performance-caching_1757404672749.js) *)
(* ===================================================================== *)

Module CacheTiers.
Import JS Conc Cache.

#[local] Arguments cache {Payload Ext} s.
#[local] Arguments redis {Payload Ext} s.
#[local] Arguments metrics {Payload Ext} s.
#[local] Arguments ext {Payload Ext} s.
#[local] Arguments with_cache {Payload Ext} f s.
#[local] Arguments with_redis {Payload Ext} f s.
#[local] Arguments with_metrics {Payload Ext} f s.
#[local] Arguments with_ext {Payload Ext} f s.
#[local] Arguments mkRedisEntry {Payload} value expireAt.
#[local] Arguments value {Payload} r.
#[local] Arguments expireAt {Payload} r.
#[local] Arguments RJson {Payload} p.
#[local] Arguments RString {Payload} s.
#[local] Arguments RHash {Payload} fields.
#[local] Arguments live {Payload} now r key.
#[local] Arguments Json {Payload} payload cached.
#[local] Arguments checkCache {Payload Ext} key.
#[local] Arguments cacheResult {Payload Ext} isoDate key result params.
#[local] Arguments logCacheMetrics {Payload Ext} isoDate key params.
#[local] Arguments touchCache {Payload Ext} key.
#[local] Arguments redisGet {Payload Ext} key.
#[local] Arguments redisSetex {Payload Ext} key seconds v.
#[local] Arguments redisDel {Payload Ext} key.
#[local] Arguments redisExpire {Payload Ext} key seconds.
#[local] Arguments redisHincrby {Payload Ext} key field n.
#[local] Arguments sync {Payload Ext} f.
#[local] Arguments checkInProgress {Payload Ext} key.
#[local] Arguments markInProgress {Payload Ext} key.
#[local] Arguments clearInProgress {Payload Ext} key.
#[local] Arguments getCachedOrProcess {Payload Ext} md5hex stringifyKeyData isoDate body
  processFunction.

Section Tiers.

(** A result of [processFunction], as JSON stores and restores it. *)
Variable Payload : Type.
(** What [processFunction] works on besides the cache. *)
Variable Ext : Type.
(** [crypto.createHash('md5').update(s).digest('hex')] *)
Variable md5hex : string -> string.
(** [JSON.stringify(keyData)] *)
Variable stringifyKeyData : Params -> string.
(** [new Date().toISOString().split('T')[0]] *)
Variable isoDate : Z -> string.

Local Abbreviation State := (Cache.State Payload Ext).

(** ** Vocabulary of the statements *)

(** The in-memory map after [cacheResult] has set [key]: the entry is set,
    and the first entry is dropped when that makes more than 1000. *)
Definition afterSet (key : string) (result : Payload) (c : list (string * Payload))
  : list (string * Payload) :=
  let c' := mapSet key result c in
  if 1000 <? Z.of_nat (length c') then tl c' else c'.

(** ** The in-memory map *)

Lemma mapGet_mapSet_eq {V} key (v : V) m : mapGet key (mapSet key v m) = Some v.
Proof.
  induction m as [|[k v'] m IH]; cbn [mapSet mapGet].
  - rewrite String.eqb_refl. reflexivity.
  - destruct (String.eqb k key) eqn:E; cbn [mapGet]; rewrite E; [reflexivity | exact IH].
Qed.

Lemma mapSet_length {V} key (v : V) m :
  length (mapSet key v m) =
    match mapGet key m with
    | Some _ => length m
    | None => S (length m)
    end.
Proof.
  induction m as [|[k v'] m IH]; cbn [mapSet mapGet]; [reflexivity|].
  destruct (String.eqb k key); cbn [length]; [reflexivity|].
  rewrite IH. destruct (mapGet key m); reflexivity.
Qed.

Lemma mapGet_afterSet key result c :
  (length c <= 1000)%nat -> mapGet key (afterSet key result c) = Some result.
Proof.
  intros Hlen. unfold afterSet. cbv zeta.
  destruct (Z.ltb_spec 1000 (Z.of_nat (length (mapSet key result c)))) as [Hbig|_];
    [|apply mapGet_mapSet_eq].
  rewrite mapSet_length in Hbig.
  destruct c as [|[k v] c]; [cbn in Hbig; lia|].
  cbn [mapGet] in Hbig. cbn [mapSet].
  destruct (String.eqb k key); [cbn [length] in *; lia|].
  cbn [tl]. apply mapGet_mapSet_eq.
Qed.

Lemma length_afterSet key result c :
  (length c <= 1000)%nat -> (length (afterSet key result c) <= 1000)%nat.
Proof.
  intros Hlen. unfold afterSet. cbv zeta.
  destruct (Z.ltb_spec 1000 (Z.of_nat (length (mapSet key result c)))) as [Hbig|Hsmall];
    [|lia].
  pose proof (mapSet_length key result c) as Hl.
  destruct (mapSet key result c) as [|e c']; [cbn in Hbig; lia|].
  cbn [tl length] in *. destruct (mapGet key c); lia.
Qed.

(** ** Storing a result *)

(** The three kinds of Redis keys do not meet. *)
Lemma metrics_ne_cache date key : "metrics:" ++ date <> "cache:" ++ key.
Proof. cbn [String.append]. discriminate. Qed.

Lemma metrics_ne_progress date key : "metrics:" ++ date <> "progress:" ++ key.
Proof. cbn [String.append]. discriminate. Qed.

Lemma cache_ne_progress key key' : "cache:" ++ key <> "progress:" ++ key'.
Proof. cbn [String.append]. discriminate. Qed.

Lemma progress_ne_cache key key' : "progress:" ++ key <> "cache:" ++ key'.
Proof. cbn [String.append]. discriminate. Qed.

(** What [cacheResult] leaves behind. *)
Lemma wp_cacheResult key result params now (s : State) :
  wp (cacheResult isoDate key result params)
     (fun now' s' _ =>
        cache s' = afterSet key result (cache s) /\
        (exists t, now <= t /\ t <= now' /\
           redis s' !! ("cache:" ++ key)
           = Some (mkRedisEntry (RJson result) (Some (t + calculateTTL params * 1000)))) /\
        redis s' !! ("progress:" ++ key) = redis s !! ("progress:" ++ key) /\
        metrics s' = metrics s /\ ext s' = ext s)
     now s.
Proof.
  unfold cacheResult, logCacheMetrics, redisSetex, redisHincrby, sync, atomic.
  cbn [bind wp]. intros now1 H1 now2 H2 now3 H3 now4 H4 now5 H5.
  cbn [cache redis metrics ext with_cache with_redis].
  split; [reflexivity|]. split; [|split; [|split; reflexivity]].
  - exists now1. split; [lia|]. split; [lia|].
    rewrite !lookup_insert_ne by apply metrics_ne_cache. apply lookup_insert_eq.
  - rewrite !lookup_insert_ne by apply metrics_ne_progress.
    rewrite lookup_insert_ne by apply cache_ne_progress. reflexivity.
Qed.

(** X15.  What [cacheResult] has stored, [checkCache] returns: after
    [cacheResult(key, result, params)] on an in-memory map of at most 1000
    entries, [checkCache(key)] answers with that result however much later
    it is asked (the in-memory entry has no expiry), without a change of
    state, and the in-memory map still has at most 1000 entries. *)
Theorem checkCache_returns_what_cacheResult_stored key result params now (s : State) :
  (length (cache s) <= 1000)%nat ->
  wp (bind (cacheResult isoDate key result params) (fun _ => checkCache key))
     (fun _ s' r =>
        r = Some result /\ (length (cache s') <= 1000)%nat /\
        mapGet key (cache s') = Some result)
     now s.
Proof.
  intros Hlen. apply wp_bind.
  eapply wp_mono; [|apply wp_cacheResult].
  intros now1 s1 _ (Hcache & _). unfold checkCache, atomic. cbn [bind wp].
  intros now2 _. rewrite Hcache, (mapGet_afterSet _ _ _ Hlen). cbn [wp].
  rewrite Hcache, (mapGet_afterSet _ _ _ Hlen).
  split; [reflexivity|]. split; [apply length_afterSet, Hlen | reflexivity].
Qed.

(** ** A hit *)

(** X16.  A request whose key is in the in-memory map is answered from
    there, at any time: [getCachedOrProcess] sends the stored result with
    [cached: true], does not invoke [processFunction], counts one hit and
    one request, and leaves both the in-memory map and the in-flight marker
    as they were.  The Redis copy of the result is either left as it was
    (it is gone or has expired) or set to expire 3600 seconds after the
    moment of the hit, whatever time to live [calculateTTL] had given it. *)
Theorem hit_is_served_from_memory body processFunction data now (s : State) :
  mapGet (generateCacheKey md5hex stringifyKeyData body) (cache s) = Some data ->
  wp (getCachedOrProcess md5hex stringifyKeyData isoDate body processFunction)
     (fun now' s' r =>
        let key := generateCacheKey md5hex stringifyKeyData body in
        r = Ok (Json data (Some true)) /\
        ext s' = ext s /\ cache s' = cache s /\
        cacheHits (metrics s') = cacheHits (metrics s) + 1 /\
        cacheMisses (metrics s') = cacheMisses (metrics s) /\
        requestCount (metrics s') = requestCount (metrics s) + 1 /\
        redis s' !! ("progress:" ++ key) = redis s !! ("progress:" ++ key) /\
        (redis s' !! ("cache:" ++ key) = redis s !! ("cache:" ++ key) \/
         exists t v, now <= t /\ t <= now' /\
           redis s' !! ("cache:" ++ key) = Some (mkRedisEntry v (Some (t + 3600 * 1000)))))
     now s.
Proof.
  intros Hhit. unfold getCachedOrProcess, checkCache, touchCache, redisExpire, sync, atomic.
  cbv zeta. cbn [bind wp]. intros now1 H1. rewrite Hhit. cbn [bind wp].
  intros now2 H2 now3 H3. cbn [redis with_metrics].
  destruct (live now3 (redis s) _) as [v|] eqn:Hlive; cbn [wp].
  - cbn [ext cache metrics redis with_redis with_metrics cacheHits cacheMisses requestCount].
    repeat (split; [reflexivity|]).
    split; [rewrite lookup_insert_ne by apply cache_ne_progress; reflexivity|].
    right. exists now3, v. split; [lia|]. split; [lia|]. apply lookup_insert_eq.
  - cbn [ext cache metrics redis with_redis with_metrics cacheHits cacheMisses requestCount].
    repeat (split; [reflexivity|]). left. reflexivity.
Qed.

(** ** A miss *)

(** X17.  A request whose key is in neither tier and not in flight is
    computed: when [processFunction] succeeds, [getCachedOrProcess] invokes
    it once, sends its result with [cached: false], stores the result in
    the in-memory map and in Redis with the time to live of
    [calculateTTL], removes the in-flight marker, and counts one miss and
    one request. *)
Theorem miss_computes_and_stores body processFunction now (s : State) :
  let key := generateCacheKey md5hex stringifyKeyData body in
  mapGet key (cache s) = None ->
  redis s !! ("cache:" ++ key) = None ->
  redis s !! ("progress:" ++ key) = None ->
  (length (cache s) <= 1000)%nat ->
  wp (getCachedOrProcess md5hex stringifyKeyData isoDate body processFunction)
     (fun now' s' r =>
        exists t,
          now <= t /\ t <= now' /\
          match snd (processFunction body t (ext s)) with
          | Ok result =>
              r = Ok (Json result (Some false)) /\
              ext s' = fst (processFunction body t (ext s)) /\
              mapGet key (cache s') = Some result /\
              (exists t', t <= t' /\ t' <= now' /\
                 redis s' !! ("cache:" ++ key)
                 = Some (mkRedisEntry (RJson result)
                           (Some (t' + calculateTTL body * 1000)))) /\
              redis s' !! ("progress:" ++ key) = None /\
              cacheHits (metrics s') = cacheHits (metrics s) /\
              cacheMisses (metrics s') = cacheMisses (metrics s) + 1 /\
              requestCount (metrics s') = requestCount (metrics s) + 1
          | Throw error => r = Throw error
          end)
     now s.
Proof.
  cbv zeta. intros Hl1 Hl2 Hmark Hlen.
  unfold getCachedOrProcess at 1. cbv zeta.
  set (key := generateCacheKey md5hex stringifyKeyData body) in *.
  unfold checkCache, checkInProgress, markInProgress, clearInProgress,
    redisGet, redisSetex, redisDel, sync, atomic.
  cbn [bind wp]. intros now1 H1. rewrite Hl1. cbn [bind wp]. intros now2 H2.
  unfold live at 1. rewrite Hl2. cbn [bind wp]. intros now3 H3 now4 H4.
  cbn [redis with_metrics]. unfold live at 1. rewrite Hmark. cbn [bind wp].
  intros now5 H5 now6 H6.
  cbn [ext with_redis with_metrics].
  destruct (processFunction body now6 (ext s)) as [e outcome] eqn:Hp.
  destruct outcome as [result|error]; cbn [bind wp].
  - apply wp_bind. eapply wp_mono; [|apply wp_clock, wp_cacheResult].
    intros now7 s7 _ (H7 & Hc & (t' & Ht1 & Ht2 & Hr) & Hm & Hmet & Hext).
    cbn [bind wp]. intros now8 H8 now9 H9.
    exists now6. split; [lia|]. split; [lia|]. rewrite Hp. cbn [snd fst].
    cbn [ext cache metrics redis with_redis with_metrics cacheHits cacheMisses requestCount].
    split; [reflexivity|]. split; [rewrite Hext; reflexivity|].
    split; [rewrite Hc; apply mapGet_afterSet; exact Hlen|].
    split; [exists t'; split; [lia|]; split; [lia|];
            rewrite lookup_delete_ne by apply progress_ne_cache; exact Hr|].
    split; [apply lookup_delete_eq|].
    rewrite Hmet. cbn. repeat split; lia.
  - intros now7 H7. exists now6. split; [lia|]. split; [lia|].
    rewrite Hp. reflexivity.
Qed.

End Tiers.

(** ** Concrete cases *)

(** One result is stored and read back on an empty cache. *)
Lemma checkCache_returns_what_cacheResult_stored_witness :
  (length (cache emptyState) <= 1000)%nat /\
  snd (run_alone (bind (cacheResult demoDate "k" 7%nat (demoParams "raw"))
                    (fun _ => checkCache "k")) 0 emptyState) = Some 7%nat.
Proof.
  assert (Hlen : (length (cache emptyState) <= 1000)%nat) by (cbn; lia).
  split; [exact Hlen|].
  pose proof (wp_run_alone _ _ 0 emptyState
                (checkCache_returns_what_cacheResult_stored nat nat demoDate "k" 7%nat
                   (demoParams "raw") 0 emptyState Hlen)) as H.
  destruct (run_alone _ 0 emptyState) as [[now' s'] r]. exact (proj1 H).
Defined.

(** A RAW result is computed at time 0, which gives its Redis copy four
    hours to live; a hit one second later leaves it one hour from then. *)
Definition afterFirstCall : Cache.State nat nat :=
  snd (fst (run_alone (getCachedOrProcess demoHash demoKey demoDate (demoParams "raw")
                         countingProcess) 0 emptyState)).

Lemma hit_is_served_from_memory_witness :
  mapGet (generateCacheKey demoHash demoKey (demoParams "raw")) (cache afterFirstCall)
  = Some 0%nat /\
  expireAt <$> redis afterFirstCall !! "cache:k" = Some (Some (4 * 3600 * 1000)) /\
  let '(_, s', r) :=
    run_alone (getCachedOrProcess demoHash demoKey demoDate (demoParams "raw")
                 countingProcess) 1000 afterFirstCall in
  r = Ok (Json 0%nat (Some true)) /\ ext s' = 1%nat /\
  expireAt <$> redis s' !! "cache:k" = Some (Some (1000 + 3600 * 1000)).
Proof.
  assert (Hhit : mapGet (generateCacheKey demoHash demoKey (demoParams "raw"))
                   (cache afterFirstCall) = Some 0%nat) by (vm_compute; reflexivity).
  split; [exact Hhit|]. split; [vm_compute; reflexivity|].
  pose proof (wp_run_alone _ _ 1000 afterFirstCall
                (hit_is_served_from_memory nat nat demoHash demoKey demoDate
                   (demoParams "raw") countingProcess 0%nat 1000 afterFirstCall Hhit)) as H.
  destruct (run_alone _ 1000 afterFirstCall) as [[now' s'] r] eqn:E.
  destruct H as (Hr & Hext & _). split; [exact Hr|]. split.
  - rewrite Hext. vm_compute. reflexivity.
  - change s' with (snd (fst (now', s', r))). rewrite <- E. vm_compute. reflexivity.
Defined.

Lemma miss_computes_and_stores_witness :
  mapGet (generateCacheKey demoHash demoKey (demoParams "raw")) (cache emptyState) = None /\
  redis emptyState !! "cache:k" = None /\ redis emptyState !! "progress:k" = None /\
  (length (cache emptyState) <= 1000)%nat /\
  let '(_, s', r) :=
    run_alone (getCachedOrProcess demoHash demoKey demoDate (demoParams "raw")
                 countingProcess) 0 emptyState in
  r = Ok (Json 0%nat (Some false)) /\ ext s' = 1%nat /\
  mapGet "k" (cache s') = Some 0%nat /\ redis s' !! "progress:k" = None.
Proof.
  assert (Hlen : (length (cache emptyState) <= 1000)%nat) by (cbn; lia).
  split; [reflexivity|]. split; [reflexivity|]. split; [reflexivity|].
  split; [exact Hlen|].
  pose proof (wp_run_alone _ _ 0 emptyState
                (miss_computes_and_stores nat nat demoHash demoKey demoDate
                   (demoParams "raw") countingProcess 0 emptyState
                   eq_refl eq_refl eq_refl Hlen)) as H.
  destruct (run_alone _ 0 emptyState) as [[now' s'] r].
  destruct H as (t & _ & _ & H). cbn [countingProcess snd fst] in H.
  destruct H as (Hr & Hext & Hget & _ & Hmark & _).
  repeat split; assumption.
Defined.

End CacheTiers.

(* ===================================================================== *)
(** * The memory manager
      (attached_assets/performance-caching_1757404672749.js, class MemoryManager) *)
(* ===================================================================== *)

Module Memory.

Local Open Scope Q_scope.

(** An entry of [this.queue]: the size asked for and the [resolve] of the
    promise that the caller awaits, named by a ticket. *)
Record MemoryRequest : Type := mkMemoryRequest {
  sizeMB : Q;
  resolve : nat
}.

(** The fields of a [MemoryManager]; sizes are megabytes, taken as exact
    rationals.  [maxMemory] is the number that [MAX_MEMORY] of the
    environment denotes, 2048 without it. *)
Record MemoryManager : Type := mkMemoryManager {
  maxMemory : Q;
  currentUsage : Q;
  queue : list MemoryRequest
}.

(** The [while] loop of [processQueue]: the usage and the queue it leaves,
    and the tickets it resolves, in this order. *)
Fixpoint processQueueLoop (maxMemory currentUsage : Q) (queue : list MemoryRequest)
  : Q * list MemoryRequest * list nat :=
  match queue with
  | [] => (currentUsage, [], [])
  | request :: rest =>
      if Qle_bool (currentUsage + sizeMB request) maxMemory then
        let '(usage, waiting, resolved) :=
          processQueueLoop maxMemory (currentUsage + sizeMB request) rest in
        (usage, waiting, resolve request :: resolved)
      else (currentUsage, queue, [])
  end.

(** [processQueue()] *)
Definition processQueue (m : MemoryManager) : MemoryManager * list nat :=
  let '(usage, waiting, resolved) :=
    processQueueLoop (maxMemory m) (currentUsage m) (queue m) in
  (mkMemoryManager (maxMemory m) usage waiting, resolved).

(** What the caller of [requestMemory] holds: [true] at once, or a promise
    that is pending until its ticket is resolved. *)
Inductive Granted : Type := Now | Pending.

(** [requestMemory(sizeMB)], the promise of a queued request being named
    [ticket]: the manager, the answer, and the tickets resolved. *)
Definition requestMemory (size : Q) (ticket : nat) (m : MemoryManager)
  : MemoryManager * Granted * list nat :=
  if Qle_bool (currentUsage m + size) (maxMemory m) then
    (mkMemoryManager (maxMemory m) (currentUsage m + size) (queue m), Now, [])
  else
    let '(m', resolved) :=
      processQueue (mkMemoryManager (maxMemory m) (currentUsage m)
                      (queue m ++ [mkMemoryRequest size ticket])) in
    (m', Pending, resolved).

(** [Math.max(0, x)] *)
Definition max0 (x : Q) : Q := if Qle_bool 0 x then x else 0.

(** [releaseMemory(sizeMB)] *)
Definition releaseMemory (size : Q) (m : MemoryManager) : MemoryManager * list nat :=
  processQueue (mkMemoryManager (maxMemory m) (max0 (currentUsage m - size)) (queue m)).

(** ** Vocabulary of the statements *)

(** A call on the manager. *)
Inductive MemoryCall : Type :=
| RequestMemory (size : Q) (ticket : nat)
| ReleaseMemory (size : Q).

Definition sizeOf (call : MemoryCall) : Q :=
  match call with
  | RequestMemory size _ => size
  | ReleaseMemory size => size
  end.

(** The manager after one call, and the tickets the call resolves. *)
Definition performCall (call : MemoryCall) (m : MemoryManager) : MemoryManager * list nat :=
  match call with
  | RequestMemory size ticket =>
      let '(m', _, resolved) := requestMemory size ticket m in (m', resolved)
  | ReleaseMemory size => releaseMemory size m
  end.

(** The manager after a series of calls, and all tickets resolved. *)
Fixpoint performAll (calls : list MemoryCall) (m : MemoryManager) : MemoryManager * list nat :=
  match calls with
  | [] => (m, [])
  | call :: rest =>
      let '(m1, resolved1) := performCall call m in
      let '(m2, resolved2) := performAll rest m1 in
      (m2, (resolved1 ++ resolved2)%list)
  end.

(** The usage is within the budget and no queued size is negative. *)
Definition wellFormed (m : MemoryManager) : Prop :=
  0 <= currentUsage m /\ currentUsage m <= maxMemory m /\
  Forall (fun request => 0 <= sizeMB request) (queue m).

(** The sum of the sizes of some requests. *)
Definition totalSize (requests : list MemoryRequest) : Q :=
  fold_right (fun request total => sizeMB request + total) 0 requests.

(** ** Properties *)

Lemma max0_nonneg x : 0 <= max0 x.
Proof.
  unfold max0. destruct (Qle_bool 0 x) eqn:E.
  - apply Qle_bool_iff, E.
  - apply Qle_refl.
Qed.

Lemma max0_le x y : 0 <= y -> x <= y -> max0 x <= y.
Proof. unfold max0. destruct (Qle_bool 0 x); auto. Qed.

Lemma Qle_bool_false x y : Qle_bool x y = false -> y < x.
Proof.
  intros H. apply Qnot_le_lt. intros Hle. apply Qle_bool_iff in Hle. congruence.
Qed.

(** What the loop of [processQueue] does: it grants a front part of the
    queue, in the order of arrival, and stops at the first request that
    does not fit. *)
Lemma processQueueLoop_spec limit usage requests :
  exists granted,
    let '(usage', waiting, resolved) := processQueueLoop limit usage requests in
    requests = (granted ++ waiting)%list /\
    resolved = map resolve granted /\
    usage' == usage + totalSize granted /\
    match waiting with
    | [] => True
    | request :: _ => limit < usage' + sizeMB request
    end.
Proof.
  revert usage. induction requests as [|request rest IH]; intros usage.
  - exists []. cbn [processQueueLoop app map totalSize fold_right].
    split; [reflexivity|]. split; [reflexivity|]. split; [ring | exact I].
  - cbn [processQueueLoop].
    destruct (Qle_bool (usage + sizeMB request) limit) eqn:Hfit.
    + destruct (IH (usage + sizeMB request)) as [granted Hg].
      destruct (processQueueLoop limit (usage + sizeMB request) rest) as [[u l] r].
      destruct Hg as (-> & -> & Hu & Hhead).
      exists (request :: granted).
      split; [reflexivity|]. split; [reflexivity|]. split; [|exact Hhead].
      cbn [totalSize fold_right]. fold (totalSize granted). rewrite Hu. ring.
    + exists []. cbn [app map totalSize fold_right].
      split; [reflexivity|]. split; [reflexivity|]. split; [ring|].
      apply Qle_bool_false, Hfit.
Qed.

Lemma processQueueLoop_wellFormed limit usage requests :
  0 <= usage -> usage <= limit ->
  Forall (fun request => 0 <= sizeMB request) requests ->
  let '(usage', waiting, _) := processQueueLoop limit usage requests in
  0 <= usage' /\ usage' <= limit /\ Forall (fun request => 0 <= sizeMB request) waiting.
Proof.
  revert usage. induction requests as [|request rest IH]; intros usage H0 Hmax Hall.
  - cbn [processQueueLoop]. auto.
  - cbn [processQueueLoop]. inversion Hall as [|? ? Hr Hrest]; subst.
    destruct (Qle_bool (usage + sizeMB request) limit) eqn:Hfit.
    + apply Qle_bool_iff in Hfit.
      assert (H0' : 0 <= usage + sizeMB request) by lra.
      specialize (IH (usage + sizeMB request) H0' Hfit Hrest).
      destruct (processQueueLoop limit (usage + sizeMB request) rest) as [[u l] r].
      exact IH.
    + auto.
Qed.

Lemma perform_wellFormed call m :
  wellFormed m -> 0 <= sizeOf call -> wellFormed (fst (performCall call m)).
Proof.
  intros (H0 & Hmax & Hall) Hsize. destruct call as [size ticket|size];
    cbn [performCall sizeOf] in *.
  - unfold requestMemory.
    destruct (Qle_bool (currentUsage m + size) (maxMemory m)) eqn:Hfit.
    + unfold wellFormed. cbn [fst currentUsage maxMemory queue].
      apply Qle_bool_iff in Hfit. split; [lra|]. split; assumption.
    + unfold processQueue. cbn [maxMemory currentUsage queue].
      pose proof (processQueueLoop_wellFormed (maxMemory m) (currentUsage m)
                    (queue m ++ [mkMemoryRequest size ticket]) H0 Hmax) as H.
      destruct (processQueueLoop _ _ _) as [[u l] r].
      unfold wellFormed. cbn [fst currentUsage maxMemory queue]. apply H.
      apply Forall_app. split; [exact Hall|]. constructor; [exact Hsize|constructor].
  - unfold releaseMemory, processQueue. cbn [maxMemory currentUsage queue].
    assert (Hle : max0 (currentUsage m - size) <= maxMemory m).
    { apply max0_le; lra. }
    pose proof (processQueueLoop_wellFormed (maxMemory m) (max0 (currentUsage m - size))
                  (queue m) (max0_nonneg _) Hle Hall) as H.
    destruct (processQueueLoop _ _ _) as [[u l] r].
    unfold wellFormed. cbn [fst currentUsage maxMemory queue]. exact H.
Qed.

Lemma perform_maxMemory call m : maxMemory (fst (performCall call m)) = maxMemory m.
Proof.
  destruct call as [size ticket|size]; cbn [performCall].
  - unfold requestMemory, processQueue.
    destruct (Qle_bool _ _); [reflexivity|]. cbn [maxMemory currentUsage queue].
    destruct (processQueueLoop _ _ _) as [[u l] r]. reflexivity.
  - unfold releaseMemory, processQueue. cbn [maxMemory currentUsage queue].
    destruct (processQueueLoop _ _ _) as [[u l] r]. reflexivity.
Qed.

(** X18.  The memory manager never hands out more than its budget: when
    the usage starts between zero and [maxMemory] and no size is negative,
    it stays between zero and [maxMemory] through any series of
    [requestMemory] and [releaseMemory] calls, [maxMemory] itself never
    changing. *)
Theorem usage_stays_within_maxMemory calls m :
  wellFormed m ->
  Forall (fun call => 0 <= sizeOf call) calls ->
  let m' := fst (performAll calls m) in
  0 <= currentUsage m' /\ currentUsage m' <= maxMemory m' /\ maxMemory m' = maxMemory m.
Proof.
  revert m. induction calls as [|call rest IH]; intros m Hwf Hall; cbv zeta.
  - cbn [performAll fst]. destruct Hwf as (H0 & Hmax & _). auto.
  - inversion Hall as [|? ? Hcall Hrest]; subst. cbn [performAll].
    pose proof (perform_wellFormed call m Hwf Hcall) as Hwf1.
    pose proof (perform_maxMemory call m) as Hmax1.
    destruct (performCall call m) as [m1 resolved1]. cbn [fst] in *.
    specialize (IH m1 Hwf1 Hrest). cbv zeta in IH.
    destruct (performAll rest m1) as [m2 resolved2]. cbn [fst] in *.
    destruct IH as (H0 & Hle & Heq). rewrite Heq, Hmax1 in *. auto.
Qed.

(** X19.  [processQueue] serves the queue strictly in the order of
    arrival: it grants a front part of the queue, resolves exactly the
    promises of that part in their order, adds their sizes to the usage,
    and stops at the first request that does not fit, even when a smaller
    request behind it would. *)
Theorem processQueue_grants_a_front_part m :
  exists granted,
    let '(m', resolved) := processQueue m in
    queue m = (granted ++ queue m')%list /\
    resolved = map resolve granted /\
    currentUsage m' == currentUsage m + totalSize granted /\
    maxMemory m' = maxMemory m /\
    match queue m' with
    | [] => True
    | request :: _ => maxMemory m < currentUsage m' + sizeMB request
    end.
Proof.
  unfold processQueue.
  destruct (processQueueLoop_spec (maxMemory m) (currentUsage m) (queue m)) as [granted H].
  exists granted. destruct (processQueueLoop _ _ _) as [[u l] r].
  cbn [currentUsage maxMemory queue].
  destruct H as (H1 & H2 & H3 & H4). auto.
Qed.

(** A request larger than the budget stops the loop of [processQueue]. *)
Lemma processQueueLoop_blocked limit usage front request behind :
  0 <= usage -> Forall (fun r => 0 <= sizeMB r) front ->
  limit < sizeMB request ->
  exists front',
    let '(usage', waiting, _) :=
      processQueueLoop limit usage (front ++ request :: behind) in
    waiting = (front' ++ request :: behind)%list /\ 0 <= usage' /\
    Forall (fun r => 0 <= sizeMB r) front'.
Proof.
  revert usage. induction front as [|r front IH]; intros usage H0 Hall Hbig.
  - cbn [app processQueueLoop].
    destruct (Qle_bool (usage + sizeMB request) limit) eqn:Hfit.
    + exfalso. apply Qle_bool_iff in Hfit. lra.
    + exists []. cbn [app]. auto.
  - inversion Hall as [|? ? Hr Hrest]; subst. cbn [app processQueueLoop].
    destruct (Qle_bool (usage + sizeMB r) limit) eqn:Hfit.
    + assert (H0' : 0 <= usage + sizeMB r) by lra.
      destruct (IH (usage + sizeMB r) H0' Hrest Hbig) as [front' H].
      exists front'. destruct (processQueueLoop _ _ _) as [[u l] res]. exact H.
    + exists (r :: front). cbn [app]. auto.
Qed.

(** The state in which [request] waits with [behind] behind it. *)
Definition stuck (request : MemoryRequest) (behind : list MemoryRequest) (m : MemoryManager) : Prop :=
  0 <= currentUsage m /\
  exists front later,
    queue m = (front ++ request :: behind ++ later)%list /\
    Forall (fun r => 0 <= sizeMB r) front.

Lemma perform_stuck request behind call m :
  maxMemory m < sizeMB request -> 0 <= sizeOf call ->
  stuck request behind m -> stuck request behind (fst (performCall call m)).
Proof.
  intros Hbig Hsize (H0 & front & later & Hq & Hfront).
  destruct call as [size ticket|size]; cbn [performCall sizeOf] in *.
  - unfold requestMemory.
    destruct (Qle_bool (currentUsage m + size) (maxMemory m)) eqn:Hfit.
    + unfold stuck. cbn [fst currentUsage maxMemory queue].
      split; [lra|]. exists front, later. auto.
    + unfold processQueue. cbn [maxMemory currentUsage queue]. rewrite Hq.
      replace ((front ++ request :: behind ++ later) ++ [mkMemoryRequest size ticket])%list
        with (front ++ request :: (behind ++ later ++ [mkMemoryRequest size ticket]))%list
        by (rewrite <- !app_assoc; cbn; rewrite <- !app_assoc; reflexivity).
      destruct (processQueueLoop_blocked (maxMemory m) (currentUsage m) front request
                  (behind ++ later ++ [mkMemoryRequest size ticket]) H0 Hfront Hbig)
        as [front' H].
      destruct (processQueueLoop _ _ _) as [[u l] res].
      unfold stuck. cbn [fst currentUsage maxMemory queue].
      destruct H as (-> & Hu & Hf). split; [exact Hu|].
      exists front', (later ++ [mkMemoryRequest size ticket])%list. auto.
  - unfold releaseMemory, processQueue. cbn [maxMemory currentUsage queue]. rewrite Hq.
    destruct (processQueueLoop_blocked (maxMemory m) (max0 (currentUsage m - size)) front
                request (behind ++ later) (max0_nonneg _) Hfront Hbig) as [front' H].
    destruct (processQueueLoop _ _ _) as [[u l] res].
    unfold stuck. cbn [fst currentUsage maxMemory queue].
    destruct H as (-> & Hu & Hf). split; [exact Hu|]. exists front', later. auto.
Qed.

(** X20.  A request for more than [maxMemory] is never granted, and it
    blocks the queue for good: once it waits in the queue (the usage not
    negative, the requests in front of it of sizes that are not negative),
    no series of [requestMemory] and [releaseMemory] calls removes it or
    any request that waits behind it; they keep their places, only requests
    in front of them are granted and new ones are queued behind. *)
Theorem oversized_request_blocks_the_queue calls m front request behind :
  queue m = (front ++ request :: behind)%list ->
  maxMemory m < sizeMB request ->
  0 <= currentUsage m ->
  Forall (fun r => 0 <= sizeMB r) front ->
  Forall (fun call => 0 <= sizeOf call) calls ->
  exists front' later,
    queue (fst (performAll calls m)) = (front' ++ request :: behind ++ later)%list.
Proof.
  intros Hq Hbig H0 Hfront Hall.
  assert (Hstuck : stuck request behind m).
  { split; [exact H0|]. exists front, []. rewrite app_nil_r. auto. }
  clear Hq H0 Hfront front.
  enough (H : stuck request behind (fst (performAll calls m))).
  { destruct H as (_ & front' & later & Hq & _). eauto. }
  revert m Hbig Hstuck. induction calls as [|call rest IH]; intros m Hbig Hstuck.
  - exact Hstuck.
  - inversion Hall as [|? ? Hcall Hrest]; subst. cbn [performAll].
    pose proof (perform_stuck request behind call m Hbig Hcall Hstuck) as H1.
    pose proof (perform_maxMemory call m) as Hmax1.
    destruct (performCall call m) as [m1 resolved1]. cbn [fst] in *.
    assert (Hbig1 : maxMemory m1 < sizeMB request) by (rewrite Hmax1; exact Hbig).
    specialize (IH Hrest m1 Hbig1 H1).
    destruct (performAll rest m1) as [m2 resolved2]. exact IH.
Qed.

(** ** A concrete case *)

(** A budget of 2048 MB, 1500 MB in use; a request for 3000 MB waits, a
    request for 100 MB is queued behind it. *)
Definition busyManager : MemoryManager :=
  mkMemoryManager 2048 1500 [mkMemoryRequest 3000 1%nat; mkMemoryRequest 100 2%nat].

Lemma usage_stays_within_maxMemory_witness :
  let m' := fst (performAll [ReleaseMemory 1500; RequestMemory 700 3%nat] busyManager) in
  wellFormed busyManager /\
  0 <= currentUsage m' /\ currentUsage m' <= maxMemory m' /\ maxMemory m' = 2048.
Proof.
  assert (Hwf : wellFormed busyManager).
  { unfold wellFormed, busyManager. cbn. repeat split; try discriminate.
    repeat constructor; discriminate. }
  assert (Hcalls : Forall (fun call => 0 <= sizeOf call)
                     [ReleaseMemory 1500; RequestMemory 700 3%nat])
    by (repeat constructor; discriminate).
  split; [exact Hwf|].
  exact (usage_stays_within_maxMemory [ReleaseMemory 1500; RequestMemory 700 3%nat]
           busyManager Hwf Hcalls).
Defined.

(** All memory is released and the queued request for 100 MB would fit,
    but both requests stay where they are. *)
Lemma oversized_request_blocks_the_queue_witness :
  maxMemory busyManager < 3000 /\
  exists front' later,
    queue (fst (performAll [ReleaseMemory 1500; RequestMemory 700 3%nat] busyManager))
    = (front' ++ mkMemoryRequest 3000 1%nat :: [mkMemoryRequest 100 2%nat] ++ later)%list.
Proof.
  split; [reflexivity|].
  apply (oversized_request_blocks_the_queue
           [ReleaseMemory 1500; RequestMemory 700 3%nat] busyManager []
           (mkMemoryRequest 3000 1%nat) [mkMemoryRequest 100 2%nat]).
  - reflexivity.
  - reflexivity.
  - discriminate.
  - constructor.
  - repeat constructor; discriminate.
Defined.

End Memory.

(* ===================================================================== *)
(** * The local metrics
      (attached_assets/performance-caching_1757404672749.js, recordMetric) *)
(* ===================================================================== *)

Module LocalMetrics.
Import Conc.

Local Open Scope Q_scope.

(** [this.metrics] of the optimizer; times are milliseconds, taken as
    exact rationals. *)
Record LocalMetricsRecord : Type := mkLocalMetrics {
  cacheHits : Z;
  cacheMisses : Z;
  avgProcessingTime : Q;
  requestCount : Z
}.

(** The part of [recordMetric] under the comment "Local metrics". *)
Definition localMetrics (type : string) (value : Q) (m : LocalMetricsRecord) : LocalMetricsRecord :=
  let requestCount' := (requestCount m + 1)%Z in
  mkLocalMetrics (cacheHits m) (cacheMisses m)
    (if String.eqb type "processing_time"
     then (avgProcessingTime m * inject_Z (requestCount' - 1) + value)
          / inject_Z requestCount'
     else avgProcessingTime m)
    requestCount'.

(** [recordMetric(type, value)].  With [DATADOG_API_KEY] in the environment
    it first calls [this.sendToMonitoring], a method the class does not
    define. *)
Definition recordMetric (datadogApiKey : bool) (type : string) (value : Q) (m : LocalMetricsRecord)
  : result LocalMetricsRecord :=
  if datadogApiKey then Throw "TypeError: this.sendToMonitoring is not a function"
  else Ok (localMetrics type value m).

(** ** Vocabulary of the statements *)

(** The metrics after a series of processing times has been recorded. *)
Definition recordTimes (values : list Q) (m : LocalMetricsRecord) : LocalMetricsRecord :=
  fold_left (fun m value => localMetrics "processing_time" value m) values m.

Definition sumQ (values : list Q) : Q := fold_right Qplus 0 values.

(** ** Properties *)

Lemma recordTimes_invariant values : forall m,
  (0 <= requestCount m)%Z ->
  requestCount (recordTimes values m) = (requestCount m + Z.of_nat (length values))%Z /\
  avgProcessingTime (recordTimes values m) * inject_Z (requestCount (recordTimes values m))
  == avgProcessingTime m * inject_Z (requestCount m) + sumQ values.
Proof.
  induction values as [|value values IH]; intros m Hcount.
  - cbn [recordTimes fold_left length sumQ fold_right]. split; [lia|]. ring.
  - cbn [recordTimes fold_left]. fold (recordTimes values (localMetrics "processing_time" value m)).
    destruct (IH (localMetrics "processing_time" value m)) as [Hn Havg];
      [cbn [localMetrics requestCount]; lia|].
    split.
    + rewrite Hn. cbn [localMetrics requestCount length]. lia.
    + rewrite Havg. cbn [localMetrics requestCount avgProcessingTime sumQ fold_right].
      change (String.eqb "processing_time" "processing_time") with true. cbv iota.
      replace (requestCount m + 1 - 1)%Z with (requestCount m) by lia.
      fold (sumQ values).
      assert (Hpos : ~ inject_Z (requestCount m + 1) == 0).
      { intros H. unfold Qeq, inject_Z in H. cbn [Qnum Qden] in H. lia. }
      field. exact Hpos.
Qed.

(** X21.  The running average of [recordMetric] is the mean: starting
    from a request count of zero, after any series of processing times has
    been recorded, and nothing else, [requestCount] is their number and
    [avgProcessingTime] is, in exact arithmetic, their sum divided by their
    number. *)
Theorem avgProcessingTime_is_the_mean values m :
  requestCount m = 0%Z -> values <> [] ->
  requestCount (recordTimes values m) = Z.of_nat (length values) /\
  avgProcessingTime (recordTimes values m)
  == sumQ values / inject_Z (Z.of_nat (length values)).
Proof.
  intros Hzero Hne.
  destruct (recordTimes_invariant values m ltac:(lia)) as [Hn Havg].
  rewrite Hzero in Hn, Havg. cbn [Z.add] in Hn. split; [exact Hn|].
  rewrite Hn in Havg.
  assert (Hpos : ~ inject_Z (Z.of_nat (length values)) == 0).
  { intros H. unfold Qeq, inject_Z in H. cbn [Qnum Qden] in H.
    destruct values; [contradiction | cbn [length] in H; lia]. }
  apply (Qmult_inj_r _ _ (inject_Z (Z.of_nat (length values))) Hpos).
  rewrite Havg. field. exact Hpos.
Qed.

(** Processing times of 120, 80 and 100 milliseconds. *)
Lemma avgProcessingTime_is_the_mean_witness :
  requestCount (mkLocalMetrics 0 0 0 0) = 0%Z /\
  avgProcessingTime (recordTimes [120; 80; 100] (mkLocalMetrics 0 0 0 0)) == 100.
Proof.
  split; [reflexivity|].
  destruct (avgProcessingTime_is_the_mean [120; 80; 100] (mkLocalMetrics 0 0 0 0) eq_refl
              ltac:(discriminate)) as [_ H].
  rewrite H. reflexivity.
Defined.

End LocalMetrics.

(* ===================================================================== *)
(** * Password rules (shared/schema.ts, client/src/pages/signup.tsx) *)
(* ===================================================================== *)

Module Signup.

(** A JavaScript string, as the sequence of its UTF-16 code units. *)
Definition JsString : Type := list Z.

(** A code unit in the range of a character class such as [[A-Z]]. *)
Definition inRange (first last : Z) (c : Z) : bool := (first <=? c) && (c <=? last).

(** [/[A-Z]/], [/[a-z]/] and [/[0-9]/] matched against a string. *)
Definition matchesUppercase (s : JsString) : bool := existsb (inRange 65 90) s.
Definition matchesLowercase (s : JsString) : bool := existsb (inRange 97 122) s.
Definition matchesDigit (s : JsString) : bool := existsb (inRange 48 57) s.

(** [s.length] *)
Definition jsLength (s : JsString) : Z := Z.of_nat (length s).

(** [passwordChecks] of the sign-up page: the four indicators under the
    password field. *)
Record PasswordChecks : Type := mkPasswordChecks {
  pc_length : bool;
  pc_uppercase : bool;
  pc_lowercase : bool;
  pc_number : bool
}.

Definition passwordChecks (watchedPassword : JsString) : PasswordChecks :=
  mkPasswordChecks
    (8 <=? jsLength watchedPassword)
    (matchesUppercase watchedPassword)
    (matchesLowercase watchedPassword)
    (matchesDigit watchedPassword).

(** One check of a zod string schema: its message when it fails. *)
Definition check (passes : bool) (message : string) : list string :=
  if passes then [] else [message].

(** The [password] field of [signupSchema]: the messages of the checks that
    fail (zod runs every check of a string schema). *)
Definition signupPassword (password : JsString) : list string :=
  (check (8 <=? jsLength password) "Password must be at least 8 characters"
   ++ check (matchesUppercase password)
        "Password must contain at least one uppercase letter"
   ++ check (matchesLowercase password)
        "Password must contain at least one lowercase letter"
   ++ check (matchesDigit password) "Password must contain at least one number")%list.

(** The [password] field of [loginSchema]. *)
Definition loginPassword (password : JsString) : list string :=
  check (6 <=? jsLength password) "Password must be at least 6 characters".

(** ** Vocabulary of the statements *)

(** The number of indicators that are not green. *)
Definition openChecks (checks : PasswordChecks) : nat :=
  (length (List.filter negb
     [pc_length checks; pc_uppercase checks; pc_lowercase checks; pc_number checks])).

(** ** Properties *)

(** X22.  The four indicators of the sign-up page and [signupSchema] agree
    on every password: the schema reports one message for each indicator
    that is not green, so it accepts the password exactly when all four are
    green; and a password that [signupSchema] accepts is also accepted by
    [loginSchema], whose only rule is a length of six. *)
Theorem signup_indicators_agree_with_schema password :
  length (signupPassword password) = openChecks (passwordChecks password) /\
  (signupPassword password = [] <->
   passwordChecks password = mkPasswordChecks true true true true) /\
  (signupPassword password = [] -> loginPassword password = []).
Proof.
  unfold signupPassword, loginPassword, passwordChecks, openChecks, check.
  cbn [pc_length pc_uppercase pc_lowercase pc_number].
  destruct (Z.leb_spec 8 (jsLength password)) as [H8|H8];
  destruct (Z.leb_spec 6 (jsLength password)) as [H6|H6];
  destruct (matchesUppercase password), (matchesLowercase password),
    (matchesDigit password); cbn; repeat split; intros; try discriminate;
    try reflexivity; try congruence; lia.
Qed.

End Signup.

(* ===================================================================== *)
(** * The windows of a registered user over many calls
      (shared/schema.ts, getUserOperationCounts and recordOperation) *)
(* ===================================================================== *)

Module UserWindows.
Import JS Clock Conc Http Ledger.

#[local] Arguments users {Sub Lead} d.
#[local] Arguments with_users {Sub Lead} f db.
#[local] Arguments with_operationsLog {Sub Lead} f db.
#[local] Arguments u_monthlyOperations {Sub} u.
#[local] Arguments u_dailyOperations {Sub} u.
#[local] Arguments u_hourlyOperations {Sub} u.
#[local] Arguments u_lastOperationAt {Sub} u.
#[local] Arguments userNeedsUpdate {Sub} tz now user.
#[local] Arguments userAfterResets {Sub} tz now user.
#[local] Arguments bumpUser {Sub} updatedAt row.





Section Windows.

Variables Sub Lead : Type.
(** The server's time-zone offset, in milliseconds. *)
Variable tz : Z.
Variable sha256hex : string -> string.
(** [getUserPlan(user).id], from server/unifiedPlanConfig.ts. *)
Variable getUserPlan : UserRow Sub -> string.
Variable useLeadMagnetCredits : string -> Z -> Lead -> Lead * bool.

Local Abbreviation DB := (Ledger.DB Sub Lead).




(** ** Properties *)









End Windows.

(** ** A concrete case *)





End UserWindows.

(* ===================================================================== *)
(** * Limit checks and operations in flight together
      (shared/schema.ts, class ScopedOperationCounter) *)
(* ===================================================================== *)

Module ScopedConcurrency.
Import JS Clock Conc Http Ledger ScopedCounter.

#[local] Arguments users {Sub Lead} d.
#[local] Arguments anonymousSessionScopes {Sub Lead} d.
#[local] Arguments userScopeCounters {Sub Lead} d.
#[local] Arguments operationsLog {Sub Lead} d.
#[local] Arguments with_anonymousSessionScopes {Sub Lead} f db.
#[local] Arguments with_userScopeCounters {Sub Lead} f db.
#[local] Arguments with_operationsLog {Sub Lead} f db.
#[local] Arguments records {Sub Lead} key db.
#[local] Arguments ownerKnown {Sub Lead} key db.
#[local] Arguments defined {Sub Lead A} o.
#[local] Arguments decideResets {Sub Lead} tz currentPeriodStart lastDailyReset lastHourlyReset.
#[local] Arguments recordScopedOperation {Sub Lead} context.
#[local] Arguments insertOperationLog {Sub Lead} uid sid ty fmt size itf planId scope.

(** A call of the scoped counter: a limit check or a recorded operation. *)
Inductive ScopedCall : Type :=
| CheckLimits (context : ScopedOperationContext) (req : option Request) (requestedOperations : Z)
| RecordOperation (context : ScopedOperationContext).

Definition contextOf (call : ScopedCall) : ScopedOperationContext :=
  match call with
  | CheckLimits context _ _ => context
  | RecordOperation context => context
  end.

(** The number of operations among the calls. *)
Definition recorded (calls : list ScopedCall) : Z :=
  Z.of_nat (length (List.filter (fun call => match call with
                                             | RecordOperation _ => true
                                             | CheckLimits _ _ _ => false
                                             end) calls)).

Section Concurrency.

Variables Sub Lead : Type.
(** The server's time-zone offset, in milliseconds. *)
Variable tz : Z.
Variable LimitCheckResult : Type.
Variable checkOperationLimits : string -> Z -> Z -> Z -> Z -> LimitCheckResult.

Local Abbreviation DB := (Ledger.DB Sub Lead).

(** The call as it runs in the pool, its answer dropped. *)
Definition performScoped (call : ScopedCall) : prog DB unit :=
  match call with
  | CheckLimits context req requestedOperations =>
      bind (checkScopedLimits Sub Lead tz LimitCheckResult checkOperationLimits
              context req requestedOperations) (fun _ => Ret tt)
  | RecordOperation context => bind (recordScopedOperation context) (fun _ => Ret tt)
  end.

(** The identity of a call. *)
Definition keyOf (call : ScopedCall) : IdentityKey :=
  let context := contextOf call in
  scopedKey (s_userId context) (s_sessionId context) (s_scope context).

(** The rows of a scoped identity, in the order of the table. *)
Definition rowsOf (key : IdentityKey) (db : DB) : list ScopeCounter :=
  match key with
  | UserScopeKey uid sc => List.filter (sameScope uid sc) (userScopeCounters db)
  | SessionScopeKey sid sc => List.filter (sameScope sid sc) (anonymousSessionScopes db)
  | _ => []
  end.

(** The row has the time stamps of [row0]. *)
Definition sameStamps (row0 row : ScopeCounter) : Prop :=
  sc_currentPeriodStart row = sc_currentPeriodStart row0 /\
  sc_lastDailyReset row = sc_lastDailyReset row0 /\
  sc_lastHourlyReset row = sc_lastHourlyReset row0.

(** The identity has one row, with the time stamps of [row0] and its
    counters some number of operations above those of [row0]; its owner,
    when a user, is a row of [users]. *)
Definition Kept (key : IdentityKey) (row0 : ScopeCounter) (db : DB) : Prop :=
  ownerKnown key db /\
  exists row j, rowsOf key db = [row] /\ sameStamps row0 row /\ 0 <= j /\
                usedOf row = raised j (usedOf row0).

(** How far the monthly counter of the row stands above that of [row0]. *)
Definition above (key : IdentityKey) (row0 : ScopeCounter) (db : DB) : Z :=
  match rowsOf key db with
  | row :: _ => monthlyUsed row - monthlyUsed row0
  | [] => 0
  end.

(** ** Properties *)

Lemma scopeNeedsUpdate_sameStamps t row0 row :
  sameStamps row0 row ->
  ScopedCounter.scopeNeedsUpdate tz t row = ScopedCounter.scopeNeedsUpdate tz t row0.
Proof using Type.
  intros (H1 & H2 & H3). unfold ScopedCounter.scopeNeedsUpdate. rewrite H1, H2, H3.
  reflexivity.
Qed.

Lemma rowsOf_log key f (db : DB) : rowsOf key (with_operationsLog f db) = rowsOf key db.
Proof using Type. destruct key; reflexivity. Qed.

Lemma Kept_log key row0 f (db : DB) :
  Kept key row0 db -> Kept key row0 (with_operationsLog f db).
Proof using Type. unfold Kept. rewrite rowsOf_log. destruct key; auto. Qed.

Lemma above_log key row0 f (db : DB) :
  above key row0 (with_operationsLog f db) = above key row0 db.
Proof using Type. unfold above. now rewrite rowsOf_log. Qed.

Lemma Kept_above key row0 (db : DB) row j :
  rowsOf key db = [row] -> usedOf row = raised j (usedOf row0) -> above key row0 db = j.
Proof using Type.
  intros Hrows Hused. unfold above. rewrite Hrows.
  unfold usedOf, raised in Hused. injection Hused as Hm _ _. lia.
Qed.

Section Counting.
Variables (key : IdentityKey) (row0 : ScopeCounter) (T N : Z).
Hypothesis Hstart : is_Some (sc_currentPeriodStart row0).
Hypothesis Hquiet : ScopedCounter.scopeNeedsUpdate tz T row0 = false.
Hypothesis Hroom : forall w, pick w (usedOf row0) + N <= int4Max.

Local Abbreviation addsQ' := (addsQ (Kept key row0) (above key row0) T N).

(** The block of resets decides on no reset for a row with the time stamps
    of [row0]. *)
Lemma addsQ_decideResets {R} (Q : R -> Z -> Prop) n row (k : Updates -> prog DB R) :
  sameStamps row0 row ->
  (forall updates, needsUpdate updates = false -> addsQ' Q n (k updates)) ->
  addsQ' Q n (bind (decideResets tz (sc_currentPeriodStart row) (sc_lastDailyReset row)
                      (sc_lastHourlyReset row)) k).
Proof.
  intros (H1 & H2 & H3) Hk. rewrite H1, H2, H3.
  destruct Hstart as [cps Hcps]. rewrite Hcps.
  revert Hquiet. unfold ScopedCounter.scopeNeedsUpdate, needsUpdate, resetsAt.
  rewrite Hcps. cbn [up_monthly up_daily up_hourly default from_option]. unfold id.
  intros Hq. apply orb_false_iff in Hq as [Hq Hh]. apply orb_false_iff in Hq as [Hm Hd].
  unfold decideResets, dateOrNow. cbn [bind].
  apply addsQ_readClock. intros now1 Hn1. cbn [bind].
  apply addsQ_readClock. intros now2 Hn2.
  apply addsQ_readClock. intros now3 Hn3. cbn [bind].
  apply Hk. unfold needsUpdate. cbn [up_monthly up_daily up_hourly].
  rewrite (monthlyResetDue_mono now1 T cps Hn1 Hm).
  rewrite (dailyResetDue_mono tz now2 T _ Hn2 Hd).
  rewrite (hourlyResetDue_mono tz now3 T _ Hn3 Hh). reflexivity.
Qed.

(** [getScopedRow] answers with a row and changes nothing. *)
Lemma addsQ_getScopedRow (Q : result ScopeCounter -> Z -> Prop) n userId sessionId sc req :
  scopedKey userId sessionId sc = key ->
  (forall row, Q (Ok row) n) ->
  addsQ' Q n (getScopedRow Sub Lead tz userId sessionId sc req).
Proof.
  intros Hkey HQ. unfold getScopedRow, scopedKey in *.
  destruct (truthyStr userId); unfold bindE; apply addsQ_bind.
  - unfold getScopedUserCounter, atomic, bindE. cbn [bind].
    apply addsQ_silent. intros now s Hn HI. cbn [fst snd].
    split; [exact HI|]. split; [reflexivity|].
    destruct HI as (_ & row & j & Hrows & Hst & _).
    rewrite <- Hkey in Hrows. cbn [rowsOf] in Hrows.
    rewrite find_head_filter, Hrows. cbn [head bind].
    apply addsQ_decideResets; [exact Hst|]. intros updates ->. cbn [addsQ defined].
    apply HQ.
  - cbv zeta. unfold getScopedAnonymousSession, atomic, bindE. cbn [bind].
    apply addsQ_silent. intros now s Hn HI. cbn [fst snd].
    split; [exact HI|]. split; [reflexivity|].
    destruct HI as (_ & row & j & Hrows & Hst & _).
    rewrite <- Hkey in Hrows. cbn [rowsOf] in Hrows.
    rewrite find_head_filter, Hrows. cbn [head bind].
    apply addsQ_decideResets; [exact Hst|]. intros updates ->. cbn [addsQ defined].
    apply HQ.
Qed.

Lemma adds_check context req requestedOperations :
  scopedKey (s_userId context) (s_sessionId context) (s_scope context) = key ->
  adds (Kept key row0) (above key row0) T N 0
    (performScoped (CheckLimits context req requestedOperations)).
Proof.
  intros Hkey. unfold adds, performScoped, checkScopedLimits, bindE.
  apply addsQ_bind, addsQ_bind.
  apply addsQ_getScopedRow; [exact Hkey|]. intros row. cbn [addsQ]. reflexivity.
Qed.

(** The UPDATE of [recordScopedOperation] on the one row of the identity. *)
Lemma bump_kept owner sc set table row j :
  increments set ->
  List.filter (sameScope owner sc) table = [row] ->
  sameStamps row0 row -> 0 <= j -> j + 1 <= N ->
  usedOf row = raised j (usedOf row0) ->
  exists table' row',
    updateWhere (sameScope owner sc) set table = Some table' /\
    List.filter (sameScope owner sc) table' = [row'] /\
    sameStamps row0 row' /\ usedOf row' = raised (j + 1) (usedOf row0).
Proof.
  intros [Hsome Hnone] Hrows (H1 & H2 & H3) Hj HjN Hused.
  destruct (set row) as [row1|] eqn:Hset.
  - destruct (updateWhere_one owner sc set table row) as (table' & row' & Hup & Hrow' & Hone).
    + intros r r' Hr. destruct (Hsome r r' Hr) as (Ho & Hs & Hu & _). auto.
    + exact Hrows.
    + eauto.
    + exists table', row'. split; [exact Hup|]. split; [exact Hone|].
      destruct (Hsome row row' Hrow') as (_ & _ & Hu & _ & H4 & H5 & H6).
      split; [unfold sameStamps; rewrite H4, H5, H6; auto|].
      rewrite Hu, Hused. unfold bump3. apply raised_raised.
  - exfalso. apply (Hnone row Hset). rewrite Hused.
    pose proof (Hroom monthly). pose proof (Hroom daily). pose proof (Hroom hourly).
    destruct (usedOf row0) as [[m d] h]. cbn in *. lia.
Qed.

Lemma adds_record context :
  scopedKey (s_userId context) (s_sessionId context) (s_scope context) = key ->
  adds (Kept key row0) (above key row0) T N 1 (performScoped (RecordOperation context)).
Proof.
  intros Hkey. unfold adds, performScoped. apply addsQ_bind.
  unfold recordScopedOperation, insertOperationLog, atomic, bindE, scopedKey in *.
  cbn [bind]. apply addsQ_silent. intros now s Hn HI.
  assert (Hlog : orNull (s_userId context) = None \/
                 (exists u, orNull (s_userId context) = Some u /\ is_Some (users s !! u))).
  { unfold orNull. destruct (truthyStr (s_userId context)) eqn:Hu; [|auto].
    right. destruct (s_userId context) as [u|]; [|discriminate Hu].
    exists u. split; [reflexivity|]. destruct HI as [Hown _].
    rewrite <- Hkey in Hown. exact Hown. }
  destruct Hlog as [Hnull | (u & Hnull & [user Huser])]; rewrite Hnull; [|rewrite Huser];
    cbn [fst snd]; (split; [apply Kept_log, HI|]); (split; [apply above_log|]).
  all: destruct (truthyStr (s_userId context)).
  all: try (apply addsQ_readClock; intros t1 _; apply addsQ_readClock; intros t2 _).
  all: try (cbv zeta; apply addsQ_readClock; intros t1 _).
  all: cbn [addsQ]; intros now' s' Hn' HI' _ Hb;
    destruct HI' as (Hown & row & j & Hrows & Hst & Hj & Hused);
    pose proof (Kept_above _ _ _ _ _ Hrows Hused) as Habove;
    pose proof Hrows as Hrows0; rewrite <- Hkey in Hrows0; cbn [rowsOf] in Hrows0.
  all: match goal with
       | |- context [updateWhere ?sel ?set ?table] =>
           destruct (bump_kept _ _ set table row j
                       ltac:(first [apply increments_bumpScopeUser
                                   | apply increments_bumpScopeSession])
                       Hrows0 Hst Hj ltac:(lia) Hused)
             as (table' & row' & -> & Hrows' & Hst' & Hused')
       end.
  all: match goal with
       | |- Kept key row0 ?db /\ _ =>
           assert (Hr : rowsOf key db = [row'])
             by (rewrite <- Hkey; cbn [rowsOf]; exact Hrows');
           assert (Ho : ownerKnown key db)
             by (revert Hown; rewrite <- Hkey; cbn [ownerKnown]; auto)
       end.
  all: pose proof (Kept_above _ _ _ _ _ Hr Hused') as Ha.
  all: split; [split; [exact Ho|]; exists row', (j + 1);
               split; [exact Hr|]; split; [exact Hst'|]; split; [lia | exact Hused']|].
  all: rewrite Ha, Habove; split; [lia|]; cbn [addsQ]; lia.
Qed.

Lemma adds_performScoped call :
  keyOf call = key ->
  adds (Kept key row0) (above key row0) T N
    (match call with RecordOperation _ => 1 | CheckLimits _ _ _ => 0 end)
    (performScoped call).
Proof.
  destruct call; unfold keyOf; cbn [contextOf]; [apply adds_check | apply adds_record].
Qed.

End Counting.

Lemma sumZ_shares calls :
  sumZ (map (fun call => match call with RecordOperation _ => 1 | CheckLimits _ _ _ => 0 end)
          calls)
  = recorded calls.
Proof using Type.
  unfold recorded, sumZ.
  induction calls as [|[c r n|c] calls IH]; cbn [map foldr List.filter].
  - reflexivity.
  - rewrite IH. lia.
  - rewrite IH. cbn [length]. lia.
Qed.

(** X24.  Limit checks that run concurrently with operations neither lose
    nor add a count.  For any number of [checkScopedLimits] and
    [recordScopedOperation] calls of one caller in one scope, under any
    interleaving of their database statements: the caller has one record in
    the scope, with a period start, whose three counters stay within the
    range of their columns when every operation is added, a caller who is a
    user has a row in [users], and none of the windows of the record falls
    due while the calls run; then once all calls have returned each of the
    three counters stands at its first value plus the number of operations
    recorded. *)
Theorem concurrent_checks_do_not_disturb_the_count key calls sched now (db : DB) row0 T :
  Forall (fun call => keyOf call = key) calls ->
  rowsOf key db = [row0] ->
  ownerKnown key db ->
  is_Some (sc_currentPeriodStart row0) ->
  monthlyUsed row0 + recorded calls <= int4Max ->
  dailyUsed row0 + recorded calls <= int4Max ->
  hourlyUsed row0 + recorded calls <= int4Max ->
  ScopedCounter.scopeNeedsUpdate tz T row0 = false ->
  let final := run_events (mkConfig now db (map performScoped calls)) sched in
  clock final <= T ->
  Forall (fun p => returned p <> None) (pool final) ->
  map usedOf (rowsOf key (store final))
  = [(monthlyUsed row0 + recorded calls, dailyUsed row0 + recorded calls,
      hourlyUsed row0 + recorded calls)].
Proof using Type.
  intros Hkeys Hrow Hown Hstart Hm Hd Hh Hquiet final HT Hret.
  assert (Hroom : forall w, pick w (usedOf row0) + recorded calls <= int4Max)
    by (intros [| |]; assumption).
  assert (Hkept : Kept key row0 db).
  { split; [exact Hown|]. exists row0, 0. split; [exact Hrow|]. split; [repeat split|].
    split; [lia|]. unfold usedOf, raised. f_equal; [f_equal|]; lia. }
  assert (Habove : above key row0 db = 0) by (unfold above; rewrite Hrow; lia).
  assert (Hpos : 0 <= recorded calls) by (unfold recorded; lia).
  destruct (run_events_adds (Kept key row0) (above key row0) T (recorded calls) sched
              (mkConfig now db (map performScoped calls))
              (map (fun call => match call with
                                | RecordOperation _ => 1
                                | CheckLimits _ _ _ => 0
                                end) calls))
    as (ns' & H1 & H2 & H3); cbn [pool store clock].
  - revert Hroom. generalize (recorded calls). intros N Hroom.
    clear -Hkeys Hstart Hquiet Hroom.
    induction Hkeys as [|call calls Hk _ IH]; cbn [map]; [constructor|].
    constructor; [|exact IH]. apply adds_performScoped; assumption.
  - clear. induction calls as [|[c r n|c] calls IH]; cbn [map]; [constructor| |];
      (constructor; [lia | exact IH]).
  - exact Hkept.
  - rewrite sumZ_shares, Habove. lia.
  - exact HT.
  - fold final in H1, H2, H3. rewrite (adds_all_returned _ _ _ _ _ _ H1 Hret) in H3.
    cbn [store] in H3. rewrite sumZ_shares, Habove in H3.
    destruct H2 as (_ & row & j & Hrows & _ & _ & Hused).
    pose proof (Kept_above _ _ _ _ _ Hrows Hused) as Hj.
    rewrite Hrows. cbn [map]. rewrite Hused. f_equal.
    unfold raised, usedOf. f_equal; [f_equal|]; lia.
Qed.

End Concurrency.

(** ** A concrete case *)

Definition demoCheck (planId : string) (m d h n : Z) : bool := m + n <=? 10.

(** A check between two operations of the session [s1], their steps
    interleaved. *)
Lemma concurrent_checks_do_not_disturb_the_count_witness :
  let calls := [RecordOperation demoScopedContext; CheckLimits demoScopedContext None 1;
                RecordOperation demoScopedContext] in
  let sched := [Run 0%nat; Run 1%nat; Run 2%nat; Run 1%nat; Run 0%nat; Tick 5; Run 1%nat;
                Run 0%nat; Run 2%nat; Run 1%nat; Run 2%nat] in
  let final := run_events
                 (mkConfig 1000 (demoDB ∅ 0) (map (performScoped unit Z 0 bool demoCheck) calls))
                 sched in
  rowsOf unit Z (SessionScopeKey "s1" "main") (demoDB ∅ 0) = [demoScopeRow] /\
  Forall (fun p => returned p <> None) (pool final) /\
  map usedOf (rowsOf unit Z (SessionScopeKey "s1" "main") (store final))
  = [(4 + 2, 2 + 2, 1 + 2)].
Proof.
  cbv zeta.
  set (calls := [RecordOperation demoScopedContext; CheckLimits demoScopedContext None 1;
                 RecordOperation demoScopedContext]).
  set (sched := [Run 0%nat; Run 1%nat; Run 2%nat; Run 1%nat; Run 0%nat; Tick 5; Run 1%nat;
                 Run 0%nat; Run 2%nat; Run 1%nat; Run 2%nat]).
  assert (Hret : Forall (fun p => returned p <> None)
                   (pool (run_events
                            (mkConfig 1000 (demoDB ∅ 0)
                               (map (performScoped unit Z 0 bool demoCheck) calls)) sched)))
    by (vm_compute; repeat constructor; discriminate).
  split; [reflexivity|]. split; [exact Hret|].
  apply (concurrent_checks_do_not_disturb_the_count unit Z 0 bool demoCheck
           (SessionScopeKey "s1" "main") calls sched 1000 (demoDB ∅ 0) demoScopeRow 2000).
  - repeat constructor.
  - reflexivity.
  - exact I.
  - eexists. reflexivity.
  - vm_compute. discriminate.
  - vm_compute. discriminate.
  - vm_compute. discriminate.
  - reflexivity.
  - vm_compute. discriminate.
  - exact Hret.
Defined.

End ScopedConcurrency.
